(** * Voice agent backend: a shallow embedding and its verified properties

  The development follows the Python backend under [backend/app]:
  - [services/audio_processor.py]   audio validation,
  - [services/speech_to_text.py]    transcription and confidence estimate,
  - [services/session_manager.py]   the conversation store,
  - [services/chat_service.py]      response generation with persistence,
  - [services/text_to_speech.py]    speech synthesis,
  - [api/websocket.py]              the connection registry and the
                                    streaming message handlers,
  - [api/endpoints.py]              the REST endpoints for chat, speech to
                                    text, voice interaction and sessions.

  Pure code is embedded as functions.  Code that raises returns a
  [result]; code that mutates the registry, the store or the wire threads
  a [state].  Everything outside the repository (the audio decoder, the
  HTTP clients, base64, the clock and the identifier generator) is a field
  of an explicit backend record or an explicit draw, so every definition
  computes on concrete inputs. *)

From Stdlib Require Import ZArith List String Ascii Bool Floats Uint63 Lia.
From stdpp Require Import base gmap strings list sorting pretty.

Set Warnings "-inexact-float".
Set Default Proof Using "Type".
Local Open Scope string_scope.
Local Open Scope Z_scope.
Local Open Scope list_scope.

(* ===================================================================== *)
(** * Python primitives used by the services *)
(* ===================================================================== *)

Module Py.

(** [bytes]: immutable byte strings. *)
Abbreviation bytes := (list Byte.byte).

(** [bytes.join] with an empty separator, as [process_complete_audio]
    joins the chunks. *)
Definition join (chunks : list bytes) : bytes := List.concat chunks.

(** Truth value of a [str]: the empty string is falsy. *)
Definition truthy (s : string) : bool := negb (String.eqb s "").

(** Truth value of an [Optional[str]]: [None] and [""] are falsy. *)
Definition truthy_opt (o : option string) : bool :=
  match o with
  | Some s => truthy s
  | None => false
  end.

(** A [str] is held in UTF-8: a string of this file is the byte sequence
    that encodes the text, as Rocq reads a string literal.  What Python
    computes by code point ([len], [strip], [split]) is computed on the code
    points of the string, each held as the bytes that encode it. *)

(** The bytes [10xxxxxx], which continue the encoding of a code point. *)
Definition continuation (b : ascii) : bool :=
  let n := nat_of_ascii b in ((128 <=? n) && (n <? 192))%nat.

(** The code points of a text: every byte that is not a continuation byte,
    together with the continuation bytes that follow it. *)
Fixpoint code_points (s : list ascii) : list (list ascii) :=
  match s with
  | [] => []
  | b :: r =>
      match code_points r with
      | (c :: p) :: ps =>
          if continuation c then (b :: c :: p) :: ps else [b] :: (c :: p) :: ps
      | ps => [b] :: ps
      end
  end.

(** The bytes of one code point: a first byte and continuation bytes. *)
Definition unit_of_text (u : list ascii) : bool :=
  match u with
  | [] => false
  | _ :: cs => forallb continuation cs
  end.

(** Bytes whose first is not a continuation byte. *)
Definition begins (u : list ascii) : bool :=
  match u with
  | [] => false
  | b :: _ => negb (continuation b)
  end.

(** [len(s)]: the number of code points. *)
Definition len (s : string) : nat :=
  length (code_points (list_ascii_of_string s)).

(** The white space of [str]: the code points [str.isspace()] holds of,
    which [strip()] and [split()] remove.  They are U+0009 to U+000D,
    U+001C to U+0020, U+0085, U+00A0, U+1680, U+2000 to U+200A, U+2028,
    U+2029, U+202F, U+205F and U+3000, here by the bytes of their
    encoding. *)
Definition white_space : list (list nat) :=
  [[9]; [10]; [11]; [12]; [13]; [28]; [29]; [30]; [31]; [32];
   [194; 133]; [194; 160]; [225; 154; 128];
   [226; 128; 128]; [226; 128; 129]; [226; 128; 130]; [226; 128; 131];
   [226; 128; 132]; [226; 128; 133]; [226; 128; 134]; [226; 128; 135];
   [226; 128; 136]; [226; 128; 137]; [226; 128; 138];
   [226; 128; 168]; [226; 128; 169]; [226; 128; 175]; [226; 129; 159];
   [227; 128; 128]]%nat.

Fixpoint encoded_by (c : list ascii) (w : list nat) : bool :=
  match c, w with
  | [], [] => true
  | b :: c', n :: w' => (nat_of_ascii b =? n)%nat && encoded_by c' w'
  | _, _ => false
  end.

(** [c.isspace()] for one code point. *)
Definition isspace (c : list ascii) : bool :=
  existsb (encoded_by c) white_space.

Fixpoint lstrip_chars (s : list (list ascii)) : list (list ascii) :=
  match s with
  | [] => []
  | c :: r => if isspace c then lstrip_chars r else s
  end.

Definition rstrip_chars (s : list (list ascii)) : list (list ascii) :=
  rev (lstrip_chars (rev s)).

(** [s.strip()] *)
Definition strip (s : string) : string :=
  string_of_list_ascii
    (concat (rstrip_chars (lstrip_chars (code_points (list_ascii_of_string s))))).

Definition lower_char (c : ascii) : ascii :=
  let n := nat_of_ascii c in
  if ((65 <=? n) && (n <=? 90))%nat then ascii_of_nat (n + 32) else c.

(** [s.lower()], which the services apply to compare the result with
    strings of ASCII letters and digits (format names, marker phrases,
    [rate_limit]): the ASCII capitals are lowered.  No lower case of another
    letter brings such a string about that was not there before, so those
    comparisons come out as in Python. *)
Fixpoint lower (s : string) : string :=
  match s with
  | EmptyString => EmptyString
  | String c r => String (lower_char c) (lower r)
  end.

(** [s.startswith(p)] *)
Fixpoint startswith (p s : string) : bool :=
  match p, s with
  | EmptyString, _ => true
  | String _ _, EmptyString => false
  | String a p', String b s' => Ascii.eqb a b && startswith p' s'
  end.

(** [sub in s] *)
Fixpoint contains (sub s : string) : bool :=
  startswith sub s ||
  match s with
  | EmptyString => false
  | String _ r => contains sub r
  end.

(** [x in xs] for a list of strings. *)
Definition in_list (x : string) (xs : list string) : bool :=
  existsb (String.eqb x) xs.

(** [" ".join(s.split())]: runs of white space become one blank, leading
    and trailing white space disappears.  [seen] tells that a word has
    begun, [pending] that white space has followed it. *)
Fixpoint squeeze (pending seen : bool) (s : list (list ascii)) : list (list ascii) :=
  match s with
  | [] => []
  | c :: r =>
      if isspace c then squeeze seen seen r
      else (if pending then [[" "%char]] else []) ++ c :: squeeze false true r
  end.

Definition normalize_spaces (s : string) : string :=
  string_of_list_ascii
    (concat (squeeze false false (code_points (list_ascii_of_string s)))).

(** [s.replace(old, new)] for a non-empty [old]: occurrences are replaced
    left to right without overlap.  [skip] counts the characters of the
    occurrence just replaced that are still to be dropped. *)
Fixpoint replace_from (old new : string) (skip : nat) (s : string) : string :=
  match s with
  | EmptyString => EmptyString
  | String c r =>
      match skip with
      | S k => replace_from old new k r
      | O =>
          if startswith old s
          then new +:+ replace_from old new (String.length old - 1) r
          else String c (replace_from old new 0 r)
      end
  end.

Definition replace (old new s : string) : string := replace_from old new 0 s.

(** [xs[-n:]] for a list [xs] and an integer [n]: the last [n] elements for
    a positive [n], the whole list for [n = 0] (since [-0 = 0]), and the
    list without its first [|n|] elements for a negative [n]. *)
Definition slice_last {A} (n : Z) (xs : list A) : list A :=
  if 0 <? n then drop (length xs - Z.to_nat n) xs
  else drop (Z.to_nat (- n)) xs.

End Py.

(* ===================================================================== *)
(** * core/exceptions.py *)
(* ===================================================================== *)

Module Exceptions.

(** The subclasses of [VoiceAgentException] the services raise. *)
Inductive exn_class :=
| AudioProcessingError
| SpeechToTextError
| TextToSpeechError
| GPTServiceError
| SessionError
| RateLimitError.

Record VoiceAgentException := {
  exn_class_of : exn_class;
  message : string;
  error_code : option string
}.

(** What a [try] block can catch: an application exception, the HTTP
    client's status error, or any other [Exception] ([AttributeError],
    a decoder error, a database error, ...), of which only [str(e)]
    matters. *)
Inductive exception :=
| Agent (e : VoiceAgentException)
| HTTPStatusError (text : string) (status_code : Z) (response_text : string)
| OtherError (text : string).

(** [str(e)] *)
Definition str (e : exception) : string :=
  match e with
  | Agent v => message v
  | HTTPStatusError t _ _ => t
  | OtherError t => t
  end.

Inductive result (A : Type) :=
| Ok (a : A)
| Raise (e : exception).
Arguments Ok {A} a.
Arguments Raise {A} e.

(** What a call out of the repository comes back with: a value, or an
    exception of the library called, which is never one of the
    application's own. *)
Inductive outcome (A : Type) :=
| Returned (a : A)
| Failed (text : string)
| FailedHTTP (text : string) (status_code : Z) (response_text : string).
Arguments Returned {A} a.
Arguments Failed {A} text.
Arguments FailedHTTP {A} text status_code response_text.

(** The call as the calling code sees it. *)
Definition call {A} (o : outcome A) : result A :=
  match o with
  | Returned a => Ok a
  | Failed text => Raise (OtherError text)
  | FailedHTTP text status body => Raise (HTTPStatusError text status body)
  end.

Definition raise_agent {A} (c : exn_class) (msg : string) (code : string) : result A :=
  Raise (Agent {| exn_class_of := c; message := msg; error_code := Some code |}).

Definition is_ok {A} (r : result A) : bool :=
  match r with Ok _ => true | Raise _ => false end.

(** The [error_code] a raised result carries, if it is an application
    exception with one. *)
Definition code_of {A} (r : result A) : option string :=
  match r with
  | Raise (Agent v) => error_code v
  | _ => None
  end.

End Exceptions.

(* ===================================================================== *)
(** * core/config.py *)
(* ===================================================================== *)

Module Config.

Record OpenAISettings := {
  model : string;
  whisper_model : string;
  tts_model : string;
  tts_voice : string
}.

Record AudioSettings := {
  max_size_mb : Z;
  supported_formats : list string;
  sample_rate : Z
}.

Record SessionSettings := {
  timeout_minutes : Z;
  max_conversation_history : Z
}.

Record Settings := {
  openai_settings : OpenAISettings;
  audio_settings : AudioSettings;
  session_settings : SessionSettings
}.

(** The values [Settings()] has when the environment overrides nothing. *)
Definition default_settings : Settings := {|
  openai_settings := {|
    model := "gpt-oss:20b";
    whisper_model := "whisper-1";
    tts_model := "tts-1";
    tts_voice := "alloy" |};
  audio_settings := {|
    max_size_mb := 25;
    supported_formats := ["wav"; "mp3"; "m4a"; "webm"; "mp4"];
    sample_rate := 16000 |};
  session_settings := {|
    timeout_minutes := 30;
    max_conversation_history := 10 |}
|}.

End Config.

(* ===================================================================== *)
(** * services/audio_processor.py *)
(* ===================================================================== *)

Module AudioProcessor.
Import Py Exceptions Config.

(** What the service takes from outside the repository: the [pydub]
    decoder and Python's rendering of floats in the two messages that
    print one.
    - [from_file data fmt] is [AudioSegment.from_file(io.BytesIO(data),
      format=fmt)]; on success it yields [len(audio_segment)], the
      duration in milliseconds.
    - [preprocess] and [features] are the bodies of
      [preprocess_for_speech_recognition] and [extract_audio_features]
      up to their own [except] clause. *)
Record Backend := {
  from_file : bytes -> string -> outcome Z;
  render_size_mb : Z -> string;      (* f"{n / (1024 * 1024):.2f}" for n bytes *)
  render_seconds : Z -> string;      (* f"{ms / 1000:.1f}" for ms milliseconds *)
  preprocess : bytes -> string -> outcome bytes;
  features : bytes -> string -> outcome (gmap string float)
}.

(** [len(audio_data) / (1024 * 1024) > max_size_mb].  The quotient by a
    power of two is exact, so the test compares byte counts. *)
Definition too_large (cfg : AudioSettings) (audio_data : bytes) : bool :=
  max_size_mb cfg * (1024 * 1024) <? Z.of_nat (length audio_data).

(** [len(audio_segment) / 1000 > 300] on a length in milliseconds. *)
Definition too_long (ms : Z) : bool := 300 * 1000 <? ms.

(** The body of the [try] block of [validate_audio]. *)
Definition validate_audio_checks (B : Backend) (cfg : AudioSettings)
    (audio_data : bytes) (format : string) : result bool :=
  if negb (in_list (lower format) (supported_formats cfg)) then
    raise_agent AudioProcessingError
      ("Unsupported audio format: " +:+ format) "UNSUPPORTED_FORMAT"
  else if too_large cfg audio_data then
    raise_agent AudioProcessingError
      ("Audio file too large: " +:+ render_size_mb B (Z.of_nat (length audio_data))
         +:+ "MB (max: " +:+ pretty (max_size_mb cfg) +:+ "MB)")
      "FILE_TOO_LARGE"
  else
    match call (from_file B audio_data (lower format)) with
    | Raise e => Raise e
    | Ok ms =>
        if too_long ms then
          raise_agent AudioProcessingError
            ("Audio too long: " +:+ render_seconds B ms +:+ "s (max: 300s)")
            "AUDIO_TOO_LONG"
        else Ok true
    end.

(** [except AudioProcessingError: raise] and [except Exception as e]. *)
Definition validate_audio (B : Backend) (cfg : AudioSettings)
    (audio_data : bytes) (format : string) : result bool :=
  match validate_audio_checks B cfg audio_data format with
  | Ok b => Ok b
  | Raise (Agent {| exn_class_of := AudioProcessingError; message := m; error_code := c |}) =>
      Raise (Agent {| exn_class_of := AudioProcessingError; message := m; error_code := c |})
  | Raise e =>
      raise_agent AudioProcessingError
        ("Audio validation failed: " +:+ str e) "VALIDATION_ERROR"
  end.

(** [preprocess_for_speech_recognition]: every failure becomes a
    [PREPROCESSING_ERROR]. *)
Definition preprocess_for_speech_recognition (B : Backend)
    (audio_data : bytes) (format : string) : result bytes :=
  match call (preprocess B audio_data (lower format)) with
  | Ok out => Ok out
  | Raise e =>
      raise_agent AudioProcessingError
        ("Audio preprocessing failed: " +:+ str e) "PREPROCESSING_ERROR"
  end.

(** [extract_audio_features]: every failure becomes a
    [FEATURE_EXTRACTION_ERROR]. *)
Definition extract_audio_features (B : Backend)
    (audio_data : bytes) (format : string) : result (gmap string float) :=
  match call (features B audio_data (lower format)) with
  | Ok f => Ok f
  | Raise e =>
      raise_agent AudioProcessingError
        ("Feature extraction failed: " +:+ str e) "FEATURE_EXTRACTION_ERROR"
  end.

End AudioProcessor.

(* ===================================================================== *)
(** * services/speech_to_text.py *)
(* ===================================================================== *)

Module SpeechToText.
Import Py Exceptions Config.

(** [max(a, b)] and [min(a, b)] of two floats, as the interpreter
    evaluates them: the first argument stays unless the second is strictly
    greater (smaller). *)
Definition py_max (a b : float) : float := if PrimFloat.ltb a b then b else a.
Definition py_min (a b : float) : float := if PrimFloat.ltb b a then b else a.

(** [d.get(key, default)] on the feature dictionary. *)
Definition get (d : gmap string float) (key : string) (dflt : float) : float :=
  default dflt (d !! key).

Definition low_confidence_markers : list string :=
  ["[inaudible]"; "[unclear]"; "..."].

(** [len(text.strip()) > 0] *)
Definition has_text (text : string) : bool :=
  (0 <? len (strip text))%nat.

(** [not any(phrase in text.lower() for phrase in [...])] *)
Definition no_marker (text : string) : bool :=
  negb (existsb (fun phrase => contains phrase (lower text)) low_confidence_markers).

(** [audio_features.get("rms_energy", 0) > 0.01] *)
Definition good_signal (audio_features : gmap string float) : bool :=
  PrimFloat.ltb 0.01 (get audio_features "rms_energy" 0).

(** [audio_features.get("silence_ratio", 1.0) < 0.5] *)
Definition little_silence (audio_features : gmap string float) : bool :=
  PrimFloat.ltb (get audio_features "silence_ratio" 1.0) 0.5.

Definition _estimate_confidence (text : string)
    (audio_features : gmap string float) : float :=
  let confidence := 0.5%float in
  let confidence :=
    if has_text text then (confidence + 0.2)%float else confidence in
  let confidence :=
    if no_marker text then (confidence + 0.1)%float else confidence in
  let confidence :=
    if good_signal audio_features then (confidence + 0.1)%float else confidence in
  let confidence :=
    if little_silence audio_features then (confidence + 0.1)%float else confidence in
  py_min 1.0 (py_max 0.0 confidence).

(** The object [client.audio.transcriptions.create] returns.  [None]
    stands for an attribute the object does not have. *)
Record transcript := {
  t_text : string;
  t_language : option string;
  t_duration : option float
}.

(** The transcription engine: model name, audio, language hint. *)
Record Backend := {
  transcriptions_create : string -> bytes -> option string -> outcome transcript
}.

(** The dictionary [transcribe_audio] returns ([segments] left out). *)
Record transcription := {
  text : string;
  language : option string;
  duration : option float;
  confidence : float;
  audio_features_of : gmap string float
}.

(** The body of the [try] block of [transcribe_audio]. *)
Definition transcribe_audio_body (A : AudioProcessor.Backend) (B : Backend)
    (cfg : OpenAISettings) (audio_data : bytes) (lang : option string)
    : result transcription :=
  match AudioProcessor.preprocess_for_speech_recognition A audio_data "wav" with
  | Raise e => Raise e
  | Ok processed_audio =>
      match call (transcriptions_create B (whisper_model cfg) processed_audio lang) with
      | Raise e => Raise e
      | Ok tr =>
          match AudioProcessor.extract_audio_features A processed_audio "wav" with
          | Raise e => Raise e
          | Ok audio_features =>
              Ok {| text := t_text tr;
                    language :=
                      match t_language tr with Some l => Some l | None => lang end;
                    duration :=
                      match t_duration tr with
                      | Some d => Some d
                      | None => audio_features !! "duration_seconds"
                      end;
                    confidence := _estimate_confidence (t_text tr) audio_features;
                    audio_features_of := audio_features |}
          end
      end
  end.

(** [except httpx.HTTPStatusError] and [except Exception]. *)
Definition transcribe_audio (A : AudioProcessor.Backend) (B : Backend)
    (cfg : OpenAISettings) (audio_data : bytes) (lang : option string)
    : result transcription :=
  match transcribe_audio_body A B cfg audio_data lang with
  | Ok r => Ok r
  | Raise (HTTPStatusError _ status body) =>
      if status =? 429 then
        raise_agent RateLimitError "OpenAI API rate limit exceeded" "RATE_LIMIT_EXCEEDED"
      else
        raise_agent SpeechToTextError
          ("OpenAI API error: " +:+ pretty status +:+ " - " +:+ body) "API_ERROR"
  | Raise e =>
      raise_agent SpeechToTextError
        ("Transcription failed: " +:+ str e) "TRANSCRIPTION_ERROR"
  end.

End SpeechToText.

(* ===================================================================== *)
(** * services/text_to_speech.py *)
(* ===================================================================== *)

Module TextToSpeech.
Import Py Exceptions Config.

(** The value a caller passes as [text].  The REST endpoints pass a
    string; the streaming handlers pass what [generate_response] returns,
    the pair of the reply and the message identifier. *)
Inductive text_value :=
| Text (s : string)
| Pair (reply message_id : string).

(** [len(text)] *)
Definition len (t : text_value) : Z :=
  match t with
  | Text s => Z.of_nat (Py.len s)
  | Pair _ _ => 2
  end.

(** [text.strip()]: a tuple has no such method. *)
Definition strip_value (t : text_value) : result string :=
  match t with
  | Text s => Ok (strip s)
  | Pair _ _ => Raise (OtherError "'tuple' object has no attribute 'strip'")
  end.

Definition available_voices : list string :=
  ["alloy"; "echo"; "fable"; "onyx"; "nova"; "shimmer"].

Definition abbreviations : list (string * string) :=
  [("AI", "A.I."); ("API", "A.P.I."); ("URL", "U.R.L."); ("HTTP", "H.T.T.P.");
   ("JSON", "J.S.O.N."); ("XML", "X.M.L."); ("SQL", "S.Q.L."); ("CPU", "C.P.U.");
   ("GPU", "G.P.U."); ("RAM", "R.A.M.")].

Definition _preprocess_text (text : string) : string :=
  let processed := normalize_spaces text in
  let processed :=
    fold_left (fun acc p => replace p (p +:+ " ") acc)
      ["."; "!"; "?"; ","; ";"; ":"] processed in
  let processed :=
    fold_left
      (fun acc '(abbr, pronunciation) =>
         let acc := replace (" " +:+ abbr +:+ " ") (" " +:+ pronunciation +:+ " ") acc in
         let acc := replace (" " +:+ abbr +:+ ".") (" " +:+ pronunciation +:+ ".") acc in
         replace (" " +:+ abbr +:+ ",") (" " +:+ pronunciation +:+ ",") acc)
      abbreviations processed in
  normalize_spaces processed.

(** The speech engine: model name, voice, input text. *)
Record Backend := {
  speech_create : string -> string -> string -> outcome bytes
}.

(** "Validate and set voice": [voice or default], then the default again
    for a voice outside [available_voices]. *)
Definition select_voice (cfg : OpenAISettings) (voice : option string) : string :=
  let voice :=
    match voice with
    | Some v => if truthy v then v else tts_voice cfg
    | None => tts_voice cfg
    end in
  if negb (in_list voice available_voices) then tts_voice cfg else voice.

(** What the engine is asked for. *)
Record speech_request := {
  req_model : string;
  req_voice : string;
  req_input : string
}.

(** The [try] block of [synthesize_speech] up to the call of the engine. *)
Definition prepare_request (cfg : OpenAISettings) (text : text_value)
    (voice : option string) : result speech_request :=
  let voice := select_voice cfg voice in
  if 4096 <? len text then
    raise_agent TextToSpeechError
      "Text too long for TTS (max 4096 characters)" "TEXT_TOO_LONG"
  else
    match strip_value text with
    | Raise e => Raise e
    | Ok stripped =>
        if negb (truthy stripped) then
          raise_agent TextToSpeechError "Empty text provided for TTS" "EMPTY_TEXT"
        else
          match text with
          | Text s =>
              Ok {| req_model := tts_model cfg;
                    req_voice := voice;
                    req_input := _preprocess_text s |}
          | Pair _ _ => Raise (OtherError "'tuple' object has no attribute 'split'")
          end
    end.

Definition synthesize_speech_body (B : Backend) (cfg : OpenAISettings)
    (text : text_value) (voice : option string) : result bytes :=
  match prepare_request cfg text voice with
  | Raise e => Raise e
  | Ok rq => call (speech_create B (req_model rq) (req_voice rq) (req_input rq))
  end.

(** [except httpx.HTTPStatusError] and [except Exception]: the second
    clause also catches the [TextToSpeechError]s raised in the block. *)
Definition synthesize_speech (B : Backend) (cfg : OpenAISettings)
    (text : text_value) (voice : option string) : result bytes :=
  match synthesize_speech_body B cfg text voice with
  | Ok audio_data => Ok audio_data
  | Raise (HTTPStatusError _ status body) =>
      if status =? 429 then
        raise_agent RateLimitError "OpenAI API rate limit exceeded" "RATE_LIMIT_EXCEEDED"
      else
        raise_agent TextToSpeechError
          ("OpenAI API error: " +:+ pretty status +:+ " - " +:+ body) "API_ERROR"
  | Raise e =>
      raise_agent TextToSpeechError
        ("Speech synthesis failed: " +:+ str e) "SYNTHESIS_ERROR"
  end.

End TextToSpeech.

(* ===================================================================== *)
(** * models/schemas.py, models/database.py, services/session_manager.py *)
(* ===================================================================== *)

Module SessionManager.
Import Py Exceptions Config.

Inductive MessageType := USER | ASSISTANT | SYSTEM.
Inductive ConversationStatus := ACTIVE | COMPLETED | EXPIRED.

(** The JSON object stored in the [extra_data] column: keys with a null,
    a string, an integer or a flat dictionary of strings. *)
Inductive jvalue :=
| JNull
| JStr (s : string)
| JInt (z : Z)
| JDict (entries : list (string * string)).

Abbreviation json := (list (string * jvalue)).

(** A row of [conversations], keyed by its [id] in the store. *)
Record Conversation := {
  status : ConversationStatus;
  created_at : Z;
  updated_at : Z
}.

(** A row of [messages].  [content] is [nullable=False].  Time stamps are
    [datetime] values, counted in microseconds. *)
Record Message := {
  id : string;
  session_id : string;
  type : MessageType;
  content : string;
  timestamp : Z;
  extra_data : json
}.

(** The schema [MessageResponse] a history read returns. *)
Record MessageResponse := {
  r_id : string;
  r_type : MessageType;
  r_content : string;
  r_timestamp : Z;
  r_extra_data : json
}.

(** [MessageResponse.model_validate(message)] *)
Definition model_validate (m : Message) : MessageResponse := {|
  r_id := id m;
  r_type := type m;
  r_content := content m;
  r_timestamp := timestamp m;
  r_extra_data := extra_data m
|}.

(** The database: conversations by primary key, messages in the order
    they were inserted. *)
Record store := {
  conversations : gmap string Conversation;
  messages : list Message
}.

Definition empty_store : store :=
  {| conversations := ∅; messages := [] |}.

(** What one transaction takes from outside: the identifier
    [str(uuid.uuid4())], the two readings of [datetime.utcnow()], and
    whether the database engine refuses the transaction ([Some text],
    [text] being [str] of its exception). *)
Record draw := {
  uuid4 : string;
  utcnow : Z;
  utcnow_again : Z;
  db_error : option string
}.

Definition create_session (d : draw) (st : store) : result string * store :=
  let fail (text : string) : result string * store :=
    (raise_agent SessionError
       ("Failed to create session: " +:+ text) "SESSION_CREATION_ERROR", st) in
  match db_error d with
  | Some text => fail text
  | None =>
      match conversations st !! uuid4 d with
      | Some _ => fail "UNIQUE constraint failed: conversations.id"
      | None =>
          (Ok (uuid4 d),
           {| conversations :=
                <[uuid4 d := {| status := ACTIVE;
                                created_at := utcnow d;
                                updated_at := utcnow_again d |}]>
                  (conversations st);
              messages := messages st |})
      end
  end.

(** [add_message].  The value passed as [content] may be [None]; the
    column refuses it.  Nothing is written unless the transaction
    commits. *)
Definition add_message (d : draw) (st : store) (sid : string)
    (message_type : MessageType) (text : option string) (extra : json)
    : result string * store :=
  let fail (text : string) : result string * store :=
    (raise_agent SessionError
       ("Failed to add message: " +:+ text) "MESSAGE_ADDITION_ERROR", st) in
  match db_error d with
  | Some text => fail text
  | None =>
      match conversations st !! sid with
      | None =>
          (raise_agent SessionError
             ("Session " +:+ sid +:+ " not found") "SESSION_NOT_FOUND", st)
      | Some conversation =>
          match text with
          | None => fail "NOT NULL constraint failed: messages.content"
          | Some c =>
              if existsb (fun m => String.eqb (id m) (uuid4 d)) (messages st)
              then fail "UNIQUE constraint failed: messages.id"
              else
                (Ok (uuid4 d),
                 {| conversations :=
                      <[sid := {| status := status conversation;
                                  created_at := created_at conversation;
                                  updated_at := utcnow_again d |}]>
                        (conversations st);
                    messages :=
                      messages st ++
                      [ {| id := uuid4 d;
                           session_id := sid;
                           type := message_type;
                           content := c;
                           timestamp := utcnow d;
                           extra_data := extra |} ] |})
          end
      end
  end.

(** [ORDER BY timestamp DESC]: the rows sorted by decreasing time stamp,
    rows with equal time stamps staying in the order of insertion. *)
Fixpoint insert_desc (m : Message) (rows : list Message) : list Message :=
  match rows with
  | [] => [m]
  | x :: rest =>
      if timestamp m <? timestamp x then x :: insert_desc m rest
      else m :: rows
  end.

Definition order_by_timestamp_desc (rows : list Message) : list Message :=
  foldr insert_desc [] rows.

(** [LIMIT n]: at most [n] rows; SQLite reads a negative [n] as no
    limit. *)
Definition sql_limit (n : Z) (rows : list Message) : list Message :=
  if n <? 0 then rows else take (Z.to_nat n) rows.

(** [WHERE session_id = sid] *)
Definition where_session (sid : string) (rows : list Message) : list Message :=
  List.filter (fun m => String.eqb (session_id m) sid) rows.

(** [limit or self.session_settings.max_conversation_history] *)
Definition effective_limit (cfg : SessionSettings) (limit : option Z) : Z :=
  match limit with
  | Some n => if n =? 0 then max_conversation_history cfg else n
  | None => max_conversation_history cfg
  end.

(** The rows the query of [get_conversation_history] selects. *)
Definition select_recent (st : store) (sid : string) (n : Z) : list Message :=
  sql_limit n (order_by_timestamp_desc (where_session sid (messages st))).

(** [get_conversation_history]; [fault] is the engine refusing the
    query. *)
Definition get_conversation_history (cfg : SessionSettings) (fault : option string)
    (st : store) (sid : string) (limit : option Z) : result (list MessageResponse) :=
  let limit := effective_limit cfg limit in
  match fault with
  | Some text =>
      raise_agent SessionError
        ("Failed to get conversation history: " +:+ text) "HISTORY_RETRIEVAL_ERROR"
  | None => Ok (map model_validate (rev (select_recent st sid limit)))
  end.

End SessionManager.

(* ===================================================================== *)
(** * services/chat_service.py *)
(* ===================================================================== *)

Module ChatService.
Import Py Exceptions Config SessionManager.

(** One entry of the prompt: role and content. *)
Record chat_message := { role : string; text_of : string }.

(** What [client.chat.completions.create] returns, as far as it is read:
    [response.choices[0].message.content] and
    [response.usage.total_tokens]. *)
Record completion := {
  reply_content : option string;
  total_tokens : option Z
}.

(** The text-generation engine: model name and prompt. *)
Record Backend := {
  chat_completions_create : string -> list chat_message -> outcome completion
}.

(** What one call of [generate_response] takes from outside besides the
    engine: the outcome of the history query and the draws of the two
    inserts. *)
Record draws := {
  history_fault : option string;
  user_draw : draw;
  assistant_draw : draw
}.

(** [_get_system_prompt()] *)
Definition system_prompt : string :=
  "You are a helpful and friendly AI voice assistant. You excel at natural conversation and providing useful information.

Key characteristics:
- Speak naturally and conversationally, as if talking to a friend
- Keep responses concise but informative (aim for 1-3 sentences for voice)
- Be helpful, empathetic, and engaging
- When appropriate, ask follow-up questions to continue the conversation
- If you need clarification, ask for it clearly
- Avoid overly technical jargon unless specifically requested
- Remember the conversation context to provide relevant responses

You are communicating through voice, so:
- Avoid using markdown, special formatting, or symbols
- Spell out numbers and abbreviations when they would be unclear spoken
- Use natural speech patterns and contractions
- Structure your responses for easy listening

Current conversation context will be provided with each message.".

Definition _format_context (context : gmap string string) : string :=
  let part (key label : string) : list string :=
    match context !! key with
    | Some v => [label +:+ v]
    | None => []
    end in
  let context_parts :=
    (part "user_location" "User location: " ++
     part "time_of_day" "Time: " ++
     part "user_preference" "User preferences: " ++
     part "conversation_topic" "Topic: ")%list in
  match context_parts with
  | [] => ""
  | p :: ps => fold_left (fun acc q => acc +:+ "; " +:+ q) ps p
  end.

(** The [messages] list built for the engine. *)
Definition build_messages (cfg : Settings) (history : list MessageResponse)
    (message : string) (context : option (gmap string string)) : list chat_message :=
  ([ {| role := "system"; text_of := system_prompt |} ] ++
   map (fun msg =>
          {| role := match r_type msg with USER => "user" | _ => "assistant" end;
             text_of := r_content msg |})
       (slice_last (max_conversation_history (session_settings cfg)) history) ++
   [ {| role := "user"; text_of := message |} ] ++
   match context with
  | Some c =>
      if bool_decide (c = ∅) then []
      else
        let context_info := _format_context c in
        if truthy context_info
        then [ {| role := "system"; text_of := "Additional context: " +:+ context_info |} ]
        else []
   | None => []
   end)%list.

Definition context_json (context : option (gmap string string)) : jvalue :=
  match context with
  | Some c => JDict (map_to_list c)
  | None => JNull
  end.

(** The body of the [try] block of [generate_response]: history read,
    engine call, then the two inserts, each its own transaction. *)
Definition generate_response_body (B : Backend) (cfg : Settings) (dr : draws)
    (st : store) (message : string) (sid : string)
    (context : option (gmap string string)) : result (string * string) * store :=
  match get_conversation_history (session_settings cfg) (history_fault dr) st sid None with
  | Raise e => (Raise e, st)
  | Ok conversation_history =>
      let messages := build_messages cfg conversation_history message context in
      match call (chat_completions_create B (model (openai_settings cfg)) messages) with
      | Raise e => (Raise e, st)
      | Ok response =>
          let assistant_response := reply_content response in
          match add_message (user_draw dr) st sid USER (Some message)
                  [("context", context_json context)] with
          | (Raise e, st1) => (Raise e, st1)
          | (Ok user_message_id, st1) =>
              match add_message (assistant_draw dr) st1 sid ASSISTANT assistant_response
                      [("model", JStr (model (openai_settings cfg)));
                       ("tokens_used",
                        match total_tokens response with
                        | Some n => JInt n
                        | None => JNull
                        end)] with
              | (Raise e, st2) => (Raise e, st2)
              | (Ok assistant_message_id, st2) =>
                  match assistant_response with
                  | Some reply => (Ok (reply, assistant_message_id), st2)
                  | None =>
                      (Raise (OtherError "object of type 'NoneType' has no len()"), st2)
                  end
              end
          end
      end
  end.

(** [except Exception as e]: a message that mentions [rate_limit] becomes
    a [RateLimitError], every other failure a [GPTServiceError]. *)
Definition generate_response (B : Backend) (cfg : Settings) (dr : draws)
    (st : store) (message : string) (sid : string)
    (context : option (gmap string string)) : result (string * string) * store :=
  match generate_response_body B cfg dr st message sid context with
  | (Ok r, st') => (Ok r, st')
  | (Raise e, st') =>
      if contains "rate_limit" (lower (str e)) then
        (raise_agent RateLimitError
           "OpenAI API rate limit exceeded" "RATE_LIMIT_EXCEEDED", st')
      else
        (raise_agent GPTServiceError
           ("Failed to generate response: " +:+ str e) "RESPONSE_GENERATION_ERROR", st')
  end.

End ChatService.

(* ===================================================================== *)
(** * api/websocket.py *)
(* ===================================================================== *)

Module WebSocket.
Import Py Exceptions Config.

(** ** The connection registry *)

(** A [WebSocket] object, known by a handle. *)
Abbreviation websocket := nat.

Record WebSocketManager := {
  active_connections : gmap string websocket;
  session_connections : gmap string string      (* session_id -> connection_id *)
}.

(** [WebSocketManager()] *)
Definition new_manager : WebSocketManager :=
  {| active_connections := ∅; session_connections := ∅ |}.

(** [connect]: [self.active_connections[connection_id] = websocket] *)
Definition connect (ws : websocket) (connection_id : string)
    (M : WebSocketManager) : WebSocketManager :=
  {| active_connections := <[connection_id := ws]> (active_connections M);
     session_connections := session_connections M |}.

(** The loop of [disconnect] over [list(self.session_connections.items())]:
    every entry whose value is [connection_id] is deleted. *)
Definition drop_sessions_of (connection_id : string)
    (sessions : gmap string string) : gmap string string :=
  foldl (fun acc '(session_id, conn_id) =>
           if decide (conn_id = connection_id) then delete session_id acc else acc)
        sessions (map_to_list sessions).

Definition disconnect (connection_id : string)
    (M : WebSocketManager) : WebSocketManager :=
  {| active_connections := delete connection_id (active_connections M);
     session_connections := drop_sessions_of connection_id (session_connections M) |}.

(** [associate_session]: [self.session_connections[session_id] = connection_id] *)
Definition associate_session (session_id connection_id : string)
    (M : WebSocketManager) : WebSocketManager :=
  {| active_connections := active_connections M;
     session_connections := <[session_id := connection_id]> (session_connections M) |}.

(** [get_connection_by_session] *)
Definition get_connection_by_session (session_id : string)
    (M : WebSocketManager) : option string :=
  session_connections M !! session_id.

(** ** Messages on the wire *)

(** An inbound message after [json.loads], with the fields the handlers
    read.  [None] is what [.get] returns for a missing key or a null; for
    [voice], whose [.get] has a default, the outer [None] is the missing
    key. *)
Record message_data := {
  msg_type : option string;
  audio_data : option string;
  is_final : bool;
  text : option string;
  include_audio : bool;
  voice : option (option string)
}.

(** An outbound message, by its ["type"].  [text_response] carries the
    value handed to [json.dumps]; [error_code] is [None] when the key is
    missing or null. *)
Inductive event :=
| session_initialized (session_id : string)
| audio_chunk_received (chunk_number : nat) (final : bool)
| transcription_started
| transcription_completed (transcript : string) (confidence : float)
    (language : option string)
| response_generation_started
| text_response (reply : TextToSpeech.text_value)
| audio_generation_started
| audio_response (audio_b64 : string) (format : string)
| interaction_completed
| pong
| error (message : string) (error_code : option string).

(** The three capabilities a turn calls. *)
Inductive port := TranscriptionPort | ResponsePort | SynthesisPort.

(** What the handlers do to the outside, in order. *)
Inductive action :=
| Sent (ws : websocket) (e : event)
| Invoked (p : port).

(** ** State and environment *)

(** The state one endpoint coroutine works on: the process-wide manager,
    the database, the list object [audio_chunks] it allocated, and the
    trace of what has been sent and invoked. *)
Record state := {
  manager : WebSocketManager;
  db : SessionManager.store;
  audio_chunks : list bytes;
  trace : list action
}.

(** Everything outside the repository that the handling of one message
    may consult. *)
Record env := {
  settings : Settings;
  audio_backend : AudioProcessor.Backend;
  stt_backend : SpeechToText.Backend;
  chat_backend : ChatService.Backend;
  tts_backend : TextToSpeech.Backend;
  b64decode : string -> outcome bytes;
  b64encode : bytes -> string;
  session_draw : SessionManager.draw;
  chat_draws : ChatService.draws;
  peer_gone : websocket -> bool      (* [send_text] raises [ConnectionClosed] *)
}.

(** Computations that read and write the state and may raise. *)
Definition io (A : Type) : Type := state -> result A * state.

Definition ret {A} (a : A) : io A := fun s => (Ok a, s).

Definition bind {A B} (c : io A) (k : A -> io B) : io B :=
  fun s =>
    match c s with
    | (Ok a, s') => k a s'
    | (Raise e, s') => (Raise e, s')
    end.

(** [try: c  except Exception as e: h e] *)
Definition try_except {A} (c : io A) (h : exception -> io A) : io A :=
  fun s =>
    match c s with
    | (Ok a, s') => (Ok a, s')
    | (Raise e, s') => h e s'
    end.

(** Awaiting a service method that does not touch the state. *)
Definition await {A} (r : result A) : io A := fun s => (r, s).

Definition modify (f : state -> state) : io unit := fun s => (Ok tt, f s).
Definition gets {A} (f : state -> A) : io A := fun s => (Ok (f s), s).

Notation "x <- c ;; k" := (bind c (fun x => k))
  (at level 100, c at next level, right associativity).
Notation "c ;; k" := (bind c (fun _ => k))
  (at level 100, right associativity).

Definition set_manager (M : WebSocketManager) (s : state) : state :=
  {| manager := M; db := db s; audio_chunks := audio_chunks s; trace := trace s |}.
Definition set_db (d : SessionManager.store) (s : state) : state :=
  {| manager := manager s; db := d; audio_chunks := audio_chunks s; trace := trace s |}.
Definition set_audio_chunks (c : list bytes) (s : state) : state :=
  {| manager := manager s; db := db s; audio_chunks := c; trace := trace s |}.
Definition record (a : action) (s : state) : state :=
  {| manager := manager s; db := db s; audio_chunks := audio_chunks s;
     trace := (trace s ++ [a])%list |}.

(** [send_message]: one attempt on the registered socket; a peer that has
    gone makes the manager run [disconnect]; an unknown connection drops
    the message. *)
Definition send_message (E : env) (connection_id : string) (message : event) : io unit :=
  fun s =>
    match active_connections (manager s) !! connection_id with
    | Some ws =>
        if peer_gone E ws
        then (Ok tt, set_manager (disconnect connection_id (manager s)) s)
        else (Ok tt, record (Sent ws message) s)
    | None => (Ok tt, s)
    end.

(** A call of one of the three capabilities, noted in the trace. *)
Definition invoke {A} (p : port) (r : result A) : io A :=
  modify (record (Invoked p)) ;; await r.

(** [session_manager.create_session()] *)
Definition create_session (E : env) : io string :=
  fun s =>
    let '(r, d) := SessionManager.create_session (session_draw E) (db s) in
    (r, set_db d s).

(** [chat_service.generate_response(text, session_id)] *)
Definition generate_response (E : env) (message session_id : string)
    : io (string * string) :=
  modify (record (Invoked ResponsePort)) ;;
  fun s =>
    let '(r, d) :=
      ChatService.generate_response (chat_backend E) (settings E) (chat_draws E)
        (db s) message session_id None in
    (r, set_db d s).

(** ** The handlers *)

(** The [try] block of [process_complete_audio] after the test for empty
    audio. *)
Definition process_complete_audio_body (E : env) (combined_audio : bytes)
    (connection_id session_id : string) : io unit :=
  _ <- await (AudioProcessor.validate_audio (audio_backend E)
                (audio_settings (settings E)) combined_audio "wav") ;;
  send_message E connection_id transcription_started ;;
  transcription_result <-
    invoke TranscriptionPort
      (SpeechToText.transcribe_audio (audio_backend E) (stt_backend E)
         (openai_settings (settings E)) combined_audio None) ;;
  send_message E connection_id
    (transcription_completed (SpeechToText.text transcription_result)
       (SpeechToText.confidence transcription_result)
       (SpeechToText.language transcription_result)) ;;
  send_message E connection_id response_generation_started ;;
  response <- generate_response E (SpeechToText.text transcription_result) session_id ;;
  let response_text := TextToSpeech.Pair (fst response) (snd response) in
  send_message E connection_id (text_response response_text) ;;
  send_message E connection_id audio_generation_started ;;
  audio <-
    invoke SynthesisPort
      (TextToSpeech.synthesize_speech (tts_backend E)
         (openai_settings (settings E)) response_text None) ;;
  send_message E connection_id (audio_response (b64encode E audio) "mp3") ;;
  send_message E connection_id interaction_completed.

(** [except VoiceAgentException] and [except Exception] of
    [process_complete_audio]. *)
Definition report_turn_error (E : env) (connection_id : string) (e : exception) : io unit :=
  match e with
  | Agent v => send_message E connection_id (error (message v) (error_code v))
  | _ => send_message E connection_id (error ("Processing error: " +:+ str e) None)
  end.

Definition process_complete_audio (E : env) (chunks : list bytes)
    (connection_id session_id : string) : io unit :=
  let combined_audio := join chunks in
  match combined_audio with
  | [] => ret tt
  | _ :: _ =>
      try_except
        (process_complete_audio_body E combined_audio connection_id session_id)
        (report_turn_error E connection_id)
  end.

Definition handle_audio_chunk (E : env) (message_data : message_data)
    (connection_id : string) (session_id : option string) : io unit :=
  try_except
    (let audio_data_b64 := audio_data message_data in
     let final := is_final message_data in
     if negb (truthy_opt audio_data_b64) then
       send_message E connection_id (error "No audio data provided" None)
     else
       data <- await (call (b64decode E (default "" audio_data_b64))) ;;
       modify (fun s => set_audio_chunks (audio_chunks s ++ [data])%list s) ;;
       (if final && truthy_opt session_id then
          chunks <- gets audio_chunks ;;
          process_complete_audio E chunks connection_id (default "" session_id) ;;
          modify (set_audio_chunks [])
        else ret tt) ;;
       chunks <- gets audio_chunks ;;
       send_message E connection_id (audio_chunk_received (length chunks) final))
    (fun e =>
       send_message E connection_id
         (error ("Audio processing error: " +:+ str e) None)).

Definition handle_text_message (E : env) (message_data : message_data)
    (connection_id : string) (session_id : option string) : io unit :=
  try_except
    (let text := text message_data in
     if negb (truthy_opt text) || negb (truthy_opt session_id) then
       send_message E connection_id
         (error "No text provided or session not initialized" None)
     else
       response <- generate_response E (default "" text) (default "" session_id) ;;
       let response_text := TextToSpeech.Pair (fst response) (snd response) in
       send_message E connection_id (text_response response_text) ;;
       if include_audio message_data then
         let voice := default (Some "alloy") (voice message_data) in
         audio <-
           invoke SynthesisPort
             (TextToSpeech.synthesize_speech (tts_backend E)
                (openai_settings (settings E)) response_text voice) ;;
         send_message E connection_id (audio_response (b64encode E audio) "mp3")
       else ret tt)
    (fun e =>
       send_message E connection_id
         (error ("Text processing error: " +:+ str e) None)).

(** One round of the [while True] loop of [websocket_endpoint] after
    [json.loads]: the dispatch on [message_data.get("type")].  The result
    is the endpoint's variable [session_id] after the round. *)
Definition dispatch (E : env) (message_data : message_data)
    (connection_id : string) (session_id : option string) : io (option string) :=
  let message_type := msg_type message_data in
  if bool_decide (message_type = Some "initialize_session") then
    new_id <- create_session E ;;
    modify (fun s => set_manager (associate_session new_id connection_id (manager s)) s) ;;
    send_message E connection_id (session_initialized new_id) ;;
    ret (Some new_id)
  else if bool_decide (message_type = Some "audio_chunk") then
    handle_audio_chunk E message_data connection_id session_id ;;
    ret session_id
  else if bool_decide (message_type = Some "text_message") then
    handle_text_message E message_data connection_id session_id ;;
    ret session_id
  else if bool_decide (message_type = Some "end_audio") then
    chunks <- gets audio_chunks ;;
    (if negb (bool_decide (chunks = [])) && truthy_opt session_id then
       process_complete_audio E chunks connection_id (default "" session_id)
     else ret tt) ;;
    modify (set_audio_chunks []) ;;
    ret session_id
  else if bool_decide (message_type = Some "ping") then
    send_message E connection_id pong ;;
    ret session_id
  else
    send_message E connection_id
      (error ("Unknown message type: " +:+ default "None" message_type) None) ;;
    ret session_id.

(** What [websocket.receive_text()] and [json.loads] deliver in one round:
    a message, text that is not JSON, or the disconnect. *)
Inductive frame :=
| Message (E : env) (m : message_data)
| Malformed (E : env) (reason : string)
| Disconnect.

(** The two [except] clauses of [websocket_endpoint]. *)
Definition close_on_error (E : env) (connection_id : string) (e : exception) : io unit :=
  send_message E connection_id (error (str e) None) ;;
  modify (fun s => set_manager (disconnect connection_id (manager s)) s).

(** One round of the loop on a received message: the dispatch, and the
    [except Exception] clause of the endpoint if the dispatch raises.  The
    result is [Some session_id] while the endpoint keeps receiving and
    [None] once it has returned. *)
Definition round (E : env) (m : message_data) (connection_id : string)
    (session_id : option string) (s : state) : option (option string) * state :=
  match dispatch E m connection_id session_id s with
  | (Ok session_id', s') => (Some session_id', s')
  | (Raise e, s') => (None, snd (close_on_error E connection_id e s'))
  end.

(** The receive loop over the frames that arrive.  These are the steps of
    one endpoint.  The program suspends at every [await], where other
    endpoints and requests run on the same manager and database; what they
    do shows here in the state a round starts from, and nowhere else. *)
Fixpoint receive_loop (frames : list frame) (connection_id : string)
    (session_id : option string) (s : state) : option (option string) * state :=
  match frames with
  | [] => (Some session_id, s)
  | Disconnect :: _ =>
      (None, set_manager (disconnect connection_id (manager s)) s)
  | Malformed E reason :: _ =>
      (None, snd (close_on_error E connection_id (OtherError reason) s))
  | Message E m :: rest =>
      match round E m connection_id session_id s with
      | (Some session_id', s') => receive_loop rest connection_id session_id' s'
      | (None, s') => (None, s')
      end
  end.

(** [websocket_endpoint]: accept, register, receive; an endpoint whose
    run no other endpoint interleaves. *)
Definition websocket_endpoint (ws : websocket) (connection_id : string)
    (frames : list frame) (s : state) : option (option string) * state :=
  receive_loop frames connection_id None
    (set_audio_chunks [] (set_manager (connect ws connection_id (manager s)) s)).

(** ** Reading a trace *)

(** The events sent on one socket, in order. *)
Definition events_on (ws : websocket) (t : list action) : list event :=
  omap (fun a => match a with
                 | Sent w e => if decide (w = ws) then Some e else None
                 | Invoked _ => None
                 end) t.

(** What a computation adds to the trace of the state it starts in. *)
Definition added {A} (k : io A) (s : state) : list action :=
  drop (length (trace s)) (trace (snd (k s))).

(** The capabilities invoked, in order. *)
Definition ports_invoked (t : list action) : list port :=
  omap (fun a => match a with Invoked p => Some p | Sent _ _ => None end) t.

End WebSocket.

(* ===================================================================== *)
(** * Vocabulary of the specification *)
(* ===================================================================== *)

(** Operations on the registry, as the endpoints of several connections
  apply them to the one process-wide manager. *)
Module Registry.
Import WebSocket.

Inductive operation :=
| Connect (ws : websocket) (connection_id : string)
| InitializeSession (connection_id session_id : string)
| Disconnected (connection_id : string).

Definition apply (M : WebSocketManager) (o : operation) : WebSocketManager :=
  match o with
  | Connect ws c => connect ws c M
  | InitializeSession c sid => associate_session sid c M
  | Disconnected c => disconnect c M
  end.

Definition run (ops : list operation) : WebSocketManager :=
  foldl apply new_manager ops.

(** How many [initialize_session] messages connection [c] has sent. *)
Definition initializations (c : string) (ops : list operation) : nat :=
  length (List.filter
            (fun o => match o with
                      | InitializeSession c' _ => String.eqb c' c
                      | _ => false
                      end) ops).

(** Operations of connection [c] on an open socket: session
    initialisations and the disconnect. *)
Definition own (c : string) (ops : list operation) : Prop :=
  Forall (fun o => match o with
                   | InitializeSession c' _ | Disconnected c' => c' = c
                   | Connect _ _ => False
                   end) ops.

(** A computation of the endpoint of connection [c] that changes the
    registry only through operations of [c]. *)
Definition registry_steps {A} (c : string) (k : io A) : Prop :=
  forall s, exists ops, own c ops /\ manager (snd (k s)) = foldl apply (manager s) ops.

(** An operation that leaves the entry of session [s] alone where it
    names connection [c]: not a disconnect of [c], and not an
    initialisation of [s]. *)
Definition leaves (c s : string) (o : operation) : Prop :=
  match o with
  | Connect _ _ => True
  | InitializeSession _ s' => s' <> s
  | Disconnected c' => c' <> c
  end.

(** The sessions that reference connection [c]. *)
Definition sessions_of (c : string) (M : WebSocketManager) : list string :=
  map fst (List.filter (fun '(_, c') => String.eqb c' c)
             (map_to_list (session_connections M))).

End Registry.

(** The outbound events by type, and the shapes a reply can take. *)
Module Protocol.
Import WebSocket.

Inductive kind :=
| SessionInitialized | AudioChunkReceived | TranscriptionStarted
| TranscriptionCompleted | ResponseGenerationStarted | TextResponse
| AudioGenerationStarted | AudioResponse | InteractionCompleted
| Pong | Error.

Definition kind_of (e : event) : kind :=
  match e with
  | session_initialized _ => SessionInitialized
  | audio_chunk_received _ _ => AudioChunkReceived
  | transcription_started => TranscriptionStarted
  | transcription_completed _ _ _ => TranscriptionCompleted
  | response_generation_started => ResponseGenerationStarted
  | text_response _ => TextResponse
  | audio_generation_started => AudioGenerationStarted
  | audio_response _ _ => AudioResponse
  | interaction_completed => InteractionCompleted
  | pong => Pong
  | error _ _ => Error
  end.

(** The staged events of a streaming audio turn, in their fixed order. *)
Definition staged_order : list kind :=
  [TranscriptionStarted; TranscriptionCompleted; ResponseGenerationStarted;
   TextResponse; AudioGenerationStarted; AudioResponse; InteractionCompleted].

Definition is_ack (e : event) : bool :=
  match e with
  | session_initialized _ | audio_chunk_received _ _ | pong => true
  | _ => false
  end.

Definition is_error (e : event) : bool :=
  match e with error _ _ => true | _ => false end.

(** An error event that carries an [error_code]. *)
Definition is_typed_error (e : event) : bool :=
  match e with error _ (Some _) => true | _ => false end.

(** Progress and result events: everything that is neither an
    acknowledgement nor an error. *)
Definition is_staged (e : event) : bool := negb (is_ack e) && negb (is_error e).

#[global] Instance kind_eq_dec : EqDecision kind.
Proof. solve_decision. Defined.

(** The three logical outcomes of one inbound message, as shapes of the
    events sent back for it.  An acknowledgement is one event, an ack.  A
    result is the text response alone, or the staged events of an audio
    turn, all seven in their order.  An error is one error event, after
    those staged events of an audio turn that were sent before it failed,
    if any. *)
Definition ack_reply (evs : list event) : bool :=
  match evs with
  | [e] => is_ack e
  | _ => false
  end.

Definition result_reply (evs : list event) : bool :=
  bool_decide (map kind_of evs = [TextResponse]) ||
  bool_decide (map kind_of evs = staged_order).

Definition error_reply (evs : list event) : bool :=
  match rev evs with
  | e :: before =>
      is_error e &&
      existsb (fun k => bool_decide (map kind_of (rev before) = take k staged_order))
        (seq 0 (length staged_order))
  | [] => false
  end.

Definition one_outcome (evs : list event) : bool :=
  ack_reply evs || result_reply evs || error_reply evs.

(** The kinds of event that answer a message, by its type, when the
    message does not flush a turn: the acknowledgement or the result the
    dispatch table names for the type, or an error. *)
Definition answers (message_type : option string) : list kind :=
  if bool_decide (message_type = Some "initialize_session") then [SessionInitialized; Error]
  else if bool_decide (message_type = Some "audio_chunk") then [AudioChunkReceived; Error]
  else if bool_decide (message_type = Some "text_message") then [TextResponse; Error]
  else if bool_decide (message_type = Some "ping") then [Pong]
  else [Error].

(** An [audio_chunk] message that flushes a turn: a final chunk with a
    payload that decodes, for an endpoint whose session variable is
    [session_id], set. *)
Definition flushes (E : env) (m : message_data) (session_id : option string) : bool :=
  bool_decide (msg_type m = Some "audio_chunk")
  && Py.truthy_opt (audio_data m)
  && Exceptions.is_ok (Exceptions.call (b64decode E (default "" (audio_data m))))
  && is_final m && Py.truthy_opt session_id.

(** Actions of the endpoint of socket [ws]: whatever is sent is sent on
    [ws]. *)
Definition on_socket (ws : websocket) (acts : list action) : Prop :=
  Forall (fun a => match a with Sent w _ => w = ws | Invoked _ => True end) acts.

(** An application exception that carries an error code. *)
Definition coded (e : Exceptions.exception) : Prop :=
  exists v c, e = Exceptions.Agent v /\ Exceptions.error_code v = Some c.

(** The connection is registered with socket [ws] and its peer is there:
    what the handlers send arrives. *)
Definition live (E : env) (connection_id : string) (ws : websocket) (s : state) : Prop :=
  active_connections (manager s) !! connection_id = Some ws /\ peer_gone E ws = false.

(** How far a streaming audio turn got on socket [ws] before it stopped:
    the events sent and the capabilities invoked so far. *)
Inductive turn_progress (ws : websocket) : list action -> Prop :=
| progress_none :
    turn_progress ws []
| progress_started :
    turn_progress ws [Sent ws transcription_started; Invoked TranscriptionPort]
| progress_transcribed transcript confidence language :
    turn_progress ws
      [Sent ws transcription_started; Invoked TranscriptionPort;
       Sent ws (transcription_completed transcript confidence language);
       Sent ws response_generation_started; Invoked ResponsePort]
| progress_answered transcript confidence language reply mid :
    turn_progress ws
      [Sent ws transcription_started; Invoked TranscriptionPort;
       Sent ws (transcription_completed transcript confidence language);
       Sent ws response_generation_started; Invoked ResponsePort;
       Sent ws (text_response (TextToSpeech.Pair reply mid));
       Sent ws audio_generation_started; Invoked SynthesisPort].

(** What a streaming audio turn adds to the trace: nothing, or some
    progress and then one error event with an error code. *)
Definition turn_trace (ws : websocket) (acts : list action) : Prop :=
  acts = [] \/
  exists progress m c,
    turn_progress ws progress /\ acts = progress ++ [Sent ws (error m (Some c))].


(** [c + x] when [b] holds, else [c]: one bonus of the confidence
    estimate. *)
Definition plus_if (b : bool) (x c : float) : float :=
  if b then (c + x)%float else c.

(** The chunk numbers acknowledged, in order. *)
Definition chunk_numbers (evs : list event) : list nat :=
  omap (fun e => match e with
                 | audio_chunk_received n _ => Some n
                 | _ => None
                 end) evs.

(** A frame that is an [audio_chunk] message. *)
Definition is_audio_chunk (f : frame) : bool :=
  match f with
  | Message _ m => bool_decide (msg_type m = Some "audio_chunk")
  | _ => false
  end.

End Protocol.

(** Orderings of stored messages and of histories. *)
Module Chronology.
Import SessionManager.

(** The messages of session [sid] among [rows], in the order of [rows]. *)
Definition of_session (sid : string) (rows : list Message) : list Message :=
  filter (fun m => session_id m = sid) rows.

(** Rows from the newest to the oldest time stamp. *)
Definition newest_first (rows : list Message) : Prop :=
  StronglySorted (fun a b => timestamp b <= timestamp a) rows.

(** [history[i].timestamp <= history[i+1].timestamp] for all [i]. *)
Definition chronological (history : list MessageResponse) : Prop :=
  forall i a b,
    history !! i = Some a -> history !! S i = Some b ->
    r_timestamp a <= r_timestamp b.


(** The number of messages a read with limit [n] returns when the session
    holds [total] messages. *)
Definition bounded (n : Z) (total : nat) : nat :=
  if n <? 0 then total else Nat.min (Z.to_nat n) total.

End Chronology.

(* ===================================================================== *)
(** * Sample inputs *)
(* ===================================================================== *)

(** Concrete inputs on which the definitions are evaluated below. *)
Module Sample.
Import Py Exceptions Config WebSocket.

(** Features of a clear recording: strong signal, little silence. *)
Definition clear_features : gmap string float :=
  <["rms_energy" := 0.5%float]> (<["silence_ratio" := 0.1%float]> ∅).

(** A decoder that accepts everything as one second of audio, with
    Python's renderings left symbolic. *)
Definition audio_ok : AudioProcessor.Backend := {|
  AudioProcessor.from_file := fun _ _ => Returned 1000;
  AudioProcessor.render_size_mb := fun n => pretty n +:+ "/1048576";
  AudioProcessor.render_seconds := fun ms => pretty ms +:+ "/1000";
  AudioProcessor.preprocess := fun data _ => Returned data;
  AudioProcessor.features := fun _ _ => Returned clear_features
|}.


Definition three_bytes : bytes := [Byte.x00; Byte.x00; Byte.x00].

(** A transaction that succeeds, with its identifier and clock reading. *)
Definition at_time (identifier : string) (t : Z) : SessionManager.draw := {|
  SessionManager.uuid4 := identifier;
  SessionManager.utcnow := t;
  SessionManager.utcnow_again := t;
  SessionManager.db_error := None
|}.

(** A transaction the database engine refuses. *)
Definition locked (identifier : string) (t : Z) : SessionManager.draw := {|
  SessionManager.uuid4 := identifier;
  SessionManager.utcnow := t;
  SessionManager.utcnow_again := t;
  SessionManager.db_error := Some "database is locked"
|}.

(** A store with the session [s1] and no message. *)
Definition one_session : SessionManager.store :=
  snd (SessionManager.create_session (at_time "s1" 100) SessionManager.empty_store).

(** The session [s1] after three messages. *)
Definition three_messages : SessionManager.store :=
  let st := one_session in
  let st := snd (SessionManager.add_message (at_time "m1" 110) st "s1"
                   SessionManager.USER (Some "one") []) in
  let st := snd (SessionManager.add_message (at_time "m2" 120) st "s1"
                   SessionManager.ASSISTANT (Some "two") []) in
  snd (SessionManager.add_message (at_time "m3" 130) st "s1"
         SessionManager.USER (Some "three") []).

(** A text-generation engine that always answers [hello]. *)
Definition chat_hello : ChatService.Backend := {|
  ChatService.chat_completions_create := fun _ _ =>
    Returned {| ChatService.reply_content := Some "hello";
          ChatService.total_tokens := Some 7 |}
|}.

(** The draws of a call whose second insert is refused. *)
Definition second_insert_refused : ChatService.draws := {|
  ChatService.history_fault := None;
  ChatService.user_draw := at_time "m1" 110;
  ChatService.assistant_draw := locked "m2" 120
|}.

(** Base64 on the payloads the samples use. *)
Definition b64decode_sample (text : string) : outcome bytes :=
  if String.eqb text "AAAA" then Returned three_bytes
  else Failed "Incorrect padding".

Definition b64encode_sample (data : bytes) : string :=
  match data with
  | [] => ""
  | _ => "AAAA"
  end.

(** A transcription engine that always hears [hi]. *)
Definition whisper_hi : SpeechToText.Backend := {|
  SpeechToText.transcriptions_create := fun _ _ _ =>
    Returned {| SpeechToText.t_text := "hi";
                SpeechToText.t_language := Some "en";
                SpeechToText.t_duration := None |}
|}.

(** A speech engine that returns three bytes of audio. *)
Definition tts_three_bytes : TextToSpeech.Backend := {|
  TextToSpeech.speech_create := fun _ _ _ => Returned three_bytes
|}.

(** An environment in which every engine answers, the database accepts
    every transaction and the peer listens.  The session drawn is [sid], the
    messages drawn are [uid] and [aid], the clock reads [t] and later. *)
Definition healthy (sid uid aid : string) (t : Z) : env := {|
  settings := default_settings;
  audio_backend := audio_ok;
  stt_backend := whisper_hi;
  chat_backend := chat_hello;
  tts_backend := tts_three_bytes;
  b64decode := b64decode_sample;
  b64encode := b64encode_sample;
  session_draw := at_time sid t;
  chat_draws := {| ChatService.history_fault := None;
                   ChatService.user_draw := at_time uid (t + 1);
                   ChatService.assistant_draw := at_time aid (t + 2) |};
  peer_gone := fun _ => false
|}.

(** Inbound messages. *)
Definition bare (message_type : string) : message_data := {|
  msg_type := Some message_type;
  audio_data := None;
  is_final := false;
  text := None;
  include_audio := false;
  voice := None
|}.

Definition initialize_session : message_data := bare "initialize_session".
Definition end_audio : message_data := bare "end_audio".

Definition audio_chunk (final : bool) : message_data := {|
  msg_type := Some "audio_chunk";
  audio_data := Some "AAAA";
  is_final := final;
  text := None;
  include_audio := false;
  voice := None
|}.

(** A text message that asks for the reply to be spoken. *)
Definition spoken_hello : message_data := {|
  msg_type := Some "text_message";
  audio_data := None;
  is_final := false;
  text := Some "Hello";
  include_audio := true;
  voice := Some (Some "nova")
|}.

(** The state once socket 7 has connected as [c]: nothing stored, nothing
    sent. *)
Definition connected : state := {|
  manager := connect 7 "c" new_manager;
  db := SessionManager.empty_store;
  audio_chunks := [];
  trace := []
|}.

(** The state before any connection. *)
Definition fresh : state := {|
  manager := new_manager;
  db := SessionManager.empty_store;
  audio_chunks := [];
  trace := []
|}.

(** The state once [c] has initialised the session [s1]. *)
Definition bound : state :=
  snd (round (healthy "s1" "m1" "m2" 100) initialize_session "c" None connected).

(** A speech engine whose audio is the name of the voice it was asked
    for. *)
Definition tts_names_voice : TextToSpeech.Backend := {|
  TextToSpeech.speech_create := fun _ voice _ => Returned (list_byte_of_string voice)
|}.

End Sample.

(* ===================================================================== *)
(** * Further methods of the services, and the REST endpoints *)
(* ===================================================================== *)

(** [services/session_manager.py]: reading a session and the sweep of the
    idle ones. *)
Module SessionAdmin.
Import Py Exceptions Config SessionManager.

(** [get_session]: the row as a dictionary with its [id], [None] for an
    unknown session; [fault] is the engine refusing the query. *)
Definition get_session (fault : option string) (st : store) (sid : string)
    : result (option (string * Conversation)) :=
  match fault with
  | Some text =>
      raise_agent SessionError
        ("Failed to get session: " +:+ text) "SESSION_RETRIEVAL_ERROR"
  | None =>
      match conversations st !! sid with
      | Some conversation => Ok (Some (sid, conversation))
      | None => Ok None
      end
  end.

(** What one call of [cleanup_expired_sessions] takes from outside: the
    reading of [datetime.utcnow()] the expiry time is computed from, the
    reading the column [updated_at] takes, by its [onupdate], for each row
    updated, and whether the database engine refuses the transaction. *)
Record sweep := {
  sweep_now : Z;
  onupdate_now : string -> Z;
  sweep_error : option string
}.

(** [datetime.utcnow() - timedelta(minutes=timeout_minutes)], in
    microseconds. *)
Definition expiry_time (cfg : SessionSettings) (w : sweep) : Z :=
  sweep_now w - timeout_minutes cfg * 60 * 1000000.

(** [Conversation.updated_at < expiry_time] and
    [Conversation.status == ConversationStatus.ACTIVE] *)
Definition idle (expiry : Z) (conversation : Conversation) : bool :=
  (updated_at conversation <? expiry) &&
  match status conversation with ACTIVE => true | _ => false end.

(** The row of session [sid] after
    [update(Conversation).where(Conversation.id == sid)
       .values(status=ConversationStatus.EXPIRED)]. *)
Definition expired (w : sweep) (sid : string) (conversation : Conversation)
    : Conversation :=
  {| status := EXPIRED;
     created_at := created_at conversation;
     updated_at := onupdate_now w sid |}.

(** One round of the loop over [expired_sessions]. *)
Definition expire (w : sweep) (acc : Z * gmap string Conversation)
    (row : string * Conversation) : Z * gmap string Conversation :=
  (fst acc + 1, alter (expired w (fst row)) (fst row) (snd acc)).

Definition cleanup_expired_sessions (cfg : SessionSettings) (w : sweep) (st : store)
    : result Z * store :=
  match sweep_error w with
  | Some text =>
      (raise_agent SessionError
         ("Failed to cleanup sessions: " +:+ text) "CLEANUP_ERROR", st)
  | None =>
      let expired_sessions :=
        List.filter (fun row => idle (expiry_time cfg w) (snd row))
          (map_to_list (conversations st)) in
      let swept := foldl (expire w) (0, conversations st) expired_sessions in
      (Ok (fst swept), {| conversations := snd swept; messages := messages st |})
  end.

End SessionAdmin.

(** Further methods of the speech and chat services. *)
Module Variants.
Import Py Exceptions Config SessionManager.

(** ** [services/speech_to_text.py] *)

(** [transcribe_streaming]: the chunks joined and transcribed in one go;
    every failure, those of [transcribe_audio] included, becomes a
    [STREAMING_ERROR]. *)
Definition transcribe_streaming (A : AudioProcessor.Backend) (B : SpeechToText.Backend)
    (cfg : OpenAISettings) (audio_chunks : list bytes) (lang : option string)
    : result SpeechToText.transcription :=
  match SpeechToText.transcribe_audio A B cfg (join audio_chunks) lang with
  | Ok r => Ok r
  | Raise e =>
      raise_agent SpeechToTextError
        ("Streaming transcription failed: " +:+ str e) "STREAMING_ERROR"
  end.

(** ** [services/text_to_speech.py] *)

(** What [synthesize_with_options] asks the engine for. *)
Record options_request := {
  opt_model : string;
  opt_voice : string;
  opt_input : string;
  opt_response_format : string;
  opt_speed : float
}.

(** The speech engine as [synthesize_with_options] calls it,
    [client.audio.speech.create]. *)
Record OptionsBackend := {
  speech_create_with : options_request -> outcome bytes
}.

Definition supported_formats : list string := ["mp3"; "opus"; "aac"; "flac"].

(** The [try] block of [synthesize_with_options] up to the call of the
    engine: the speed is clamped, an unsupported format becomes [mp3], a
    missing voice becomes the default; the voice is not compared with
    [available_voices] and the text is not measured. *)
Definition prepare_options (cfg : OpenAISettings) (text : string)
    (voice : option string) (speed : float) (format : string) : options_request :=
  let speed := SpeechToText.py_max 0.25 (SpeechToText.py_min 4.0 speed) in
  let format := if negb (in_list format supported_formats) then "mp3" else format in
  let voice :=
    match voice with
    | Some v => if truthy v then v else tts_voice cfg
    | None => tts_voice cfg
    end in
  {| opt_model := tts_model cfg;
     opt_voice := voice;
     opt_input := TextToSpeech._preprocess_text text;
     opt_response_format := format;
     opt_speed := speed |}.

Definition synthesize_with_options (B : OptionsBackend) (cfg : OpenAISettings)
    (text : string) (voice : option string) (speed : float) (format : string)
    : result bytes :=
  match call (speech_create_with B (prepare_options cfg text voice speed format)) with
  | Ok audio_data => Ok audio_data
  | Raise e =>
      raise_agent TextToSpeechError
        ("Advanced synthesis failed: " +:+ str e) "ADVANCED_SYNTHESIS_ERROR"
  end.

(** ** [services/chat_service.py] *)

(** [msg.type.value] *)
Definition type_value (t : MessageType) : string :=
  match t with
  | USER => "user"
  | ASSISTANT => "assistant"
  | SYSTEM => "system"
  end.

(** [sep.join(parts)] *)
Definition str_join (sep : string) (parts : list string) : string :=
  match parts with
  | [] => ""
  | p :: ps => fold_left (fun acc q => acc +:+ sep +:+ q) ps p
  end.

Definition newline : string := String (ascii_of_nat 10) EmptyString.

(** The prompt of [summarize_conversation]. *)
Definition summary_messages (history : list MessageResponse)
    : list ChatService.chat_message :=
  let conversation_text :=
    str_join newline
      (map (fun msg => type_value (r_type msg) +:+ ": " +:+ r_content msg) history) in
  [ {| ChatService.role := "system";
       ChatService.text_of :=
         "Summarize the following conversation concisely, highlighting key topics and outcomes:" |};
    {| ChatService.role := "user"; ChatService.text_of := conversation_text |} ].

(** The body of the [try] block of [summarize_conversation].  [B] is the
    engine called with [max_tokens=200] and [temperature=0.3]. *)
Definition summarize_conversation_body (B : ChatService.Backend) (cfg : Settings)
    (fault : option string) (st : store) (sid : string) : result string :=
  match get_conversation_history (session_settings cfg) fault st sid None with
  | Raise e => Raise e
  | Ok [] => Ok "No conversation to summarize."
  | Ok conversation_history =>
      match call (ChatService.chat_completions_create B (model (openai_settings cfg))
                    (summary_messages conversation_history)) with
      | Raise e => Raise e
      | Ok response =>
          match ChatService.reply_content response with
          | Some summary => Ok summary
          | None => Raise (OtherError "object of type 'NoneType' has no len()")
          end
      end
  end.

Definition summarize_conversation (B : ChatService.Backend) (cfg : Settings)
    (fault : option string) (st : store) (sid : string) : result string :=
  match summarize_conversation_body B cfg fault st sid with
  | Ok summary => Ok summary
  | Raise e =>
      raise_agent GPTServiceError
        ("Failed to summarize conversation: " +:+ str e) "SUMMARIZATION_ERROR"
  end.

(** ** The shape of a preprocessed text *)

(** A text in words, by its code points: no white space but single
    blanks, each between two code points that are not white space.
    [after_blank] tells that the code point before was a blank. *)
Fixpoint spaced (after_blank : bool) (s : list (list ascii)) : bool :=
  match s with
  | [] => negb after_blank
  | c :: r =>
      if encoded_by c [32%nat] then negb after_blank && spaced true r
      else negb (isspace c) && spaced false r
  end.

(** Empty, or words separated by single blanks, without white space at
    either end. *)
Definition in_words (s : string) : bool :=
  match code_points (list_ascii_of_string s) with
  | [] => true
  | l => spaced true l
  end.

(** The role a stored message is given in the prompt. *)
Definition prompt_entry (msg : MessageResponse) : ChatService.chat_message :=
  {| ChatService.role := match r_type msg with USER => "user" | _ => "assistant" end;
     ChatService.text_of := r_content msg |}.

End Variants.

(** [api/endpoints.py]: the REST endpoints that call the services. *)
Module Endpoints.
Import Py Exceptions Config SessionManager.

(** What an endpoint comes back with: the response model, or the
    [HTTPException] it raises. *)
Inductive http (A : Type) :=
| Response (a : A)
| HTTPException (status_code : Z) (detail : string).
Arguments Response {A} a.
Arguments HTTPException {A} status_code detail.

(** The application exceptions an [except] clause names. *)
Definition caught (classes : list exn_class) (v : VoiceAgentException) : bool :=
  existsb (fun c => match c, exn_class_of v with
                    | AudioProcessingError, AudioProcessingError
                    | SpeechToTextError, SpeechToTextError
                    | TextToSpeechError, TextToSpeechError
                    | GPTServiceError, GPTServiceError
                    | SessionError, SessionError
                    | RateLimitError, RateLimitError => true
                    | _, _ => false
                    end) classes.

(** [except (C1, ...) as e: raise HTTPException(500, str(e))] followed by
    [except Exception: raise HTTPException(500, "Internal server error")]. *)
Definition server_error {A} (classes : list exn_class) (e : exception) : http A :=
  match e with
  | Agent v =>
      if caught classes v then HTTPException 500 (message v)
      else HTTPException 500 "Internal server error"
  | _ => HTTPException 500 "Internal server error"
  end.

(** [msg[key]] on a [MessageResponse]: the class, a pydantic model,
    defines no [__getitem__], so the subscript raises [TypeError] whatever
    the key. *)
Definition subscript {A} (msg : MessageResponse) (key : string) : result A :=
  Raise (OtherError "'MessageResponse' object is not subscriptable").

(** ** [POST /chat] *)

Record ChatRequest := {
  request_message : string;
  request_session_id : option string
}.

Record ChatResponse := {
  response_message : string;
  response_session_id : string;
  response_message_id : string
}.

(** [ChatResponse(message=..., session_id=..., message_id=...)]: the field
    [message] is declared [str], and the model refuses a tuple for it. *)
Definition ChatResponse_of (message : TextToSpeech.text_value)
    (session_id message_id : string) : result ChatResponse :=
  match message with
  | TextToSpeech.Text s =>
      Ok {| response_message := s;
            response_session_id := session_id;
            response_message_id := message_id |}
  | TextToSpeech.Pair _ _ => Raise (OtherError "1 validation error for ChatResponse")
  end.

(** [session_id = request.session_id; if not session_id: session_id =
    await session_manager.create_session()] *)
Definition session_or_new (sd : draw) (session_id : option string) (st : store)
    : result string * store :=
  if truthy_opt session_id then (Ok (default "" session_id), st)
  else create_session sd st.

(** The [try] block of [chat], which unpacks the pair that
    [generate_response] returns. *)
Definition chat_body (B : ChatService.Backend) (cfg : Settings) (sd : draw)
    (dr : ChatService.draws) (request : ChatRequest) (st : store)
    : result ChatResponse * store :=
  match session_or_new sd (request_session_id request) st with
  | (Raise e, st1) => (Raise e, st1)
  | (Ok session_id, st1) =>
      match ChatService.generate_response B cfg dr st1
              (request_message request) session_id None with
      | (Raise e, st2) => (Raise e, st2)
      | (Ok (response_text, message_id), st2) =>
          (ChatResponse_of (TextToSpeech.Text response_text) session_id message_id, st2)
      end
  end.

Definition chat (B : ChatService.Backend) (cfg : Settings) (sd : draw)
    (dr : ChatService.draws) (request : ChatRequest) (st : store)
    : http ChatResponse * store :=
  match chat_body B cfg sd dr request st with
  | (Ok r, st') => (Response r, st')
  | (Raise e, st') => (server_error [GPTServiceError; SessionError] e, st')
  end.

(** ** The uploads *)

(** An uploaded file: [Path(audio_file.filename).suffix] and the bytes
    [await audio_file.read()] returns. *)
Record upload := {
  suffix : string;
  file_bytes : bytes
}.

(** [s.lstrip('.')] *)
Fixpoint lstrip_dots (s : string) : string :=
  match s with
  | String c r => if Ascii.eqb c "."%char then lstrip_dots r else s
  | EmptyString => EmptyString
  end.

(** [Path(audio_file.filename).suffix.lower().lstrip('.')], and [wav] when
    that is empty. *)
Definition file_format (u : upload) : string :=
  let file_format := lstrip_dots (lower (suffix u)) in
  if truthy file_format then file_format else "wav".


(** ** [POST /speech-to-text] *)

Record SpeechToTextResponse := {
  stt_text : string;
  stt_confidence : option float;
  stt_language : option string;
  stt_duration : option float
}.

Definition speech_to_text_response (r : SpeechToText.transcription)
    : SpeechToTextResponse :=
  {| stt_text := SpeechToText.text r;
     stt_confidence := Some (SpeechToText.confidence r);
     stt_language := SpeechToText.language r;
     stt_duration := SpeechToText.duration r |}.

(** The [try] block of the endpoint [transcribe_audio]. *)
Definition transcribe_audio_body (A : AudioProcessor.Backend) (B : SpeechToText.Backend)
    (cfg : Settings) (u : upload) (language : option string)
    : result SpeechToTextResponse :=
  match AudioProcessor.validate_audio A (audio_settings cfg) (file_bytes u) (file_format u) with
  | Raise e => Raise e
  | Ok _ =>
      match SpeechToText.transcribe_audio A B (openai_settings cfg) (file_bytes u) language with
      | Raise e => Raise e
      | Ok result => Ok (speech_to_text_response result)
      end
  end.

(** [except AudioProcessingError] answers 400, [except SpeechToTextError]
    and [except Exception] answer 500. *)
Definition transcribe_audio (A : AudioProcessor.Backend) (B : SpeechToText.Backend)
    (cfg : Settings) (u : upload) (language : option string)
    : http SpeechToTextResponse :=
  match transcribe_audio_body A B cfg u language with
  | Ok r => Response r
  | Raise (Agent v) =>
      if caught [AudioProcessingError] v then HTTPException 400 (message v)
      else server_error [SpeechToTextError] (Agent v)
  | Raise e => server_error [SpeechToTextError] e
  end.

(** ** [POST /voice-interaction] *)

Record TextToSpeechResponse := {
  audio_url : string;
  audio_duration : float;
  audio_format : string
}.

Record VoiceInteractionResponse := {
  transcription : SpeechToTextResponse;
  chat_response : ChatResponse;
  audio_response : TextToSpeechResponse
}.

(** What one call of [voice_interaction] takes from outside besides the
    engines: the draws of the session it may create and of the inserts,
    the outcome of the history query it makes after the reply has been
    generated, and the temporary file: [named_temporary_file data] is
    [Path(temp_file.name).name] once [data] has been written. *)
Record voice_draws := {
  voice_session_draw : draw;
  voice_chat_draws : ChatService.draws;
  voice_history_fault : option string;
  named_temporary_file : bytes -> outcome string
}.

(** [len(audio_response_data) / 1000] *)
Definition rough_duration (audio_response_data : bytes) : float :=
  (PrimFloat.of_uint63 (Uint63.of_Z (Z.of_nat (length audio_response_data))) / 1000)%float.

(** [history[-1]["id"] if history else "unknown"] *)
Definition last_message_id (history : list MessageResponse) : result string :=
  match last history with
  | Some msg => subscript msg "id"
  | None => Ok "unknown"
  end.

(** The [try] block of [voice_interaction].  The value the endpoint calls
    [response_text] is what [generate_response] returns, the pair of the
    reply and the message identifier. *)
Definition voice_interaction_body (P : AudioProcessor.Backend)
    (S : SpeechToText.Backend) (B : ChatService.Backend) (T : TextToSpeech.Backend)
    (cfg : Settings) (dr : voice_draws) (u : upload)
    (language session_id voice : option string) (st : store)
    : result VoiceInteractionResponse * store :=
  match session_or_new (voice_session_draw dr) session_id st with
  | (Raise e, st1) => (Raise e, st1)
  | (Ok session_id, st1) =>
      match AudioProcessor.validate_audio P (audio_settings cfg)
              (file_bytes u) (file_format u) with
      | Raise e => (Raise e, st1)
      | Ok _ =>
          match SpeechToText.transcribe_audio P S (openai_settings cfg)
                  (file_bytes u) language with
          | Raise e => (Raise e, st1)
          | Ok transcription_result =>
              let transcription_response := speech_to_text_response transcription_result in
              match ChatService.generate_response B cfg (voice_chat_draws dr) st1
                      (SpeechToText.text transcription_result) session_id None with
              | (Raise e, st2) => (Raise e, st2)
              | (Ok response, st2) =>
                  let response_text := TextToSpeech.Pair (fst response) (snd response) in
                  (match get_conversation_history (session_settings cfg)
                           (voice_history_fault dr) st2 session_id (Some 1) with
                   | Raise e => Raise e
                   | Ok history =>
                       match last_message_id history with
                       | Raise e => Raise e
                       | Ok message_id =>
                           match ChatResponse_of response_text session_id message_id with
                           | Raise e => Raise e
                           | Ok chat_response =>
                               match TextToSpeech.synthesize_speech T (openai_settings cfg)
                                       response_text voice with
                               | Raise e => Raise e
                               | Ok audio_response_data =>
                                   match call (named_temporary_file dr audio_response_data) with
                                   | Raise e => Raise e
                                   | Ok name =>
                                       Ok {| transcription := transcription_response;
                                             chat_response := chat_response;
                                             audio_response :=
                                               {| audio_url := "/download/" +:+ name;
                                                  audio_duration :=
                                                    rough_duration audio_response_data;
                                                  audio_format := "mp3" |} |}
                                   end
                               end
                           end
                       end
                   end, st2)
              end
          end
      end
  end.

Definition voice_interaction (P : AudioProcessor.Backend)
    (S : SpeechToText.Backend) (B : ChatService.Backend) (T : TextToSpeech.Backend)
    (cfg : Settings) (dr : voice_draws) (u : upload)
    (language session_id voice : option string) (st : store)
    : http VoiceInteractionResponse * store :=
  match voice_interaction_body P S B T cfg dr u language session_id voice st with
  | (Ok r, st') => (Response r, st')
  | (Raise e, st') =>
      (server_error [AudioProcessingError; SpeechToTextError; GPTServiceError;
                     TextToSpeechError; SessionError] e, st')
  end.

(** ** [GET /sessions/{session_id}] *)

Record ConversationSchema := {
  schema_id : string;
  schema_status : ConversationStatus;
  schema_created_at : Z;
  schema_updated_at : Z
}.

(** What the application answers when an endpoint lets an exception
    through: the handler registered for [Exception] in [main.py] turns it
    into a response with status 500. *)
Inductive served (A : Type) :=
| Served (r : http A)
| Unhandled (e : exception).
Arguments Served {A} r.
Arguments Unhandled {A} e.

(** [except SessionError as e: raise HTTPException(500, str(e))]; any other
    exception passes. *)
Definition session_error {A} (e : exception) : served A :=
  match e with
  | Agent v =>
      if caught [SessionError] v then Served (HTTPException 500 (message v))
      else Unhandled e
  | _ => Unhandled e
  end.

(** The list the endpoint builds for [messages=]: one dictionary for each
    message of the history, its values read by subscript. *)
Fixpoint message_dicts (session_id : string) (history : list MessageResponse)
    : result (list Message) :=
  match history with
  | [] => Ok []
  | msg :: rest =>
      match subscript msg "id" with
      | Raise e => Raise e
      | Ok msg_id =>
          match subscript msg "type" with
          | Raise e => Raise e
          | Ok msg_type =>
              match subscript msg "content" with
              | Raise e => Raise e
              | Ok msg_content =>
                  match subscript msg "timestamp" with
                  | Raise e => Raise e
                  | Ok msg_timestamp =>
                      match subscript msg "extra_data" with
                      | Raise e => Raise e
                      | Ok msg_extra_data =>
                          match message_dicts session_id rest with
                          | Raise e => Raise e
                          | Ok dicts =>
                              Ok ({| id := msg_id; session_id := session_id;
                                     type := msg_type; content := msg_content;
                                     timestamp := msg_timestamp;
                                     extra_data := msg_extra_data |} :: dicts)
                          end
                      end
                  end
              end
          end
      end
  end.

(** The endpoint [get_session].  [ConversationSchema] has no field
    [messages], so the list built for it is dropped. *)
Definition get_session (cfg : Settings) (session_fault history_fault : option string)
    (st : store) (session_id : string) : served ConversationSchema :=
  match SessionAdmin.get_session session_fault st session_id with
  | Raise e => session_error e
  | Ok None => Served (HTTPException 404 "Session not found")
  | Ok (Some (sid, conversation)) =>
      match get_conversation_history (session_settings cfg) history_fault st
              session_id None with
      | Raise e => session_error e
      | Ok history =>
          match message_dicts session_id history with
          | Raise e => session_error e
          | Ok _ =>
              Served (Response {| schema_id := sid;
                                  schema_status := status conversation;
                                  schema_created_at := created_at conversation;
                                  schema_updated_at := updated_at conversation |})
          end
      end
  end.

End Endpoints.

(* ===================================================================== *)
(** * Vocabulary of the further properties *)
(* ===================================================================== *)

(** The transactions by which the endpoints and the sweep write to the
    store, and the stores they lead to.  [delete_session] and
    [update_session] are not among them. *)
Module Journal.
Import Config SessionManager.

Inductive transaction :=
| CreateSession (d : draw)
| AddMessage (d : draw) (sid : string) (message_type : MessageType)
    (text : option string) (extra : json)
| GenerateResponse (B : ChatService.Backend) (cfg : Settings) (dr : ChatService.draws)
    (message sid : string) (context : option (gmap string string))
| CleanupExpiredSessions (cfg : SessionSettings) (w : SessionAdmin.sweep).

(** The store a transaction leaves, whether it succeeds or fails. *)
Definition commit (st : store) (t : transaction) : store :=
  match t with
  | CreateSession d => snd (create_session d st)
  | AddMessage d sid message_type text extra =>
      snd (add_message d st sid message_type text extra)
  | GenerateResponse B cfg dr message sid context =>
      snd (ChatService.generate_response B cfg dr st message sid context)
  | CleanupExpiredSessions cfg w => snd (SessionAdmin.cleanup_expired_sessions cfg w st)
  end.

(** The store after a history of transactions on the empty database. *)
Definition replay (ts : list transaction) : store := foldl commit empty_store ts.

(** Every message belongs to a stored session, and no two messages share
    an identifier. *)
Definition consistent (st : store) : Prop :=
  Forall (fun m => is_Some (conversations st !! session_id m)) (messages st) /\
  NoDup (map id (messages st)).

End Journal.

(** What a computation of the handlers does and does not do to the state. *)
Module Effects.
Import WebSocket.

(** A computation that leaves a component of the state as it found it. *)
Definition keeps {A X} (component : state -> X) (k : io A) : Prop :=
  forall s, component (snd (k s)) = component s.

(** A computation that never raises. *)
Definition total {A} (k : io A) : Prop :=
  forall s, Exceptions.is_ok (fst (k s)) = true.

(** The work done so far: the store and the capabilities invoked. *)
Definition work (s : state) : SessionManager.store * list port :=
  (db s, ports_invoked (trace s)).

(** Everything sent, on whatever socket, in order. *)
Definition sent (t : list action) : list (websocket * event) :=
  omap (fun a => match a with Sent w e => Some (w, e) | Invoked _ => None end) t.

(** A connection nothing can be delivered to: it is not registered, or the
    peer of its socket has gone. *)
Definition unreachable (E : env) (connection_id : string) (s : state) : Prop :=
  match active_connections (manager s) !! connection_id with
  | Some ws => peer_gone E ws = true
  | None => True
  end.

(** A computation that sends nothing as long as the connection is
    unreachable, and leaves it unreachable. *)
Definition mute {A} (E : env) (connection_id : string) (k : io A) : Prop :=
  forall s, unreachable E connection_id s ->
            unreachable E connection_id (snd (k s)) /\
            sent (trace (snd (k s))) = sent (trace s).

(** The connection is registered with socket [ws], or not registered. *)
Definition own_socket (connection_id : string) (ws : websocket) (s : state) : Prop :=
  match active_connections (manager s) !! connection_id with
  | Some w => w = ws
  | None => True
  end.

(** A computation of the endpoint of a connection with socket [ws] that
    sends on [ws] only. *)
Definition addressed {A} (connection_id : string) (ws : websocket) (k : io A) : Prop :=
  forall s, own_socket connection_id ws s ->
            own_socket connection_id ws (snd (k s)) /\
            exists evs, sent (trace (snd (k s))) = sent (trace s) ++ map (pair ws) evs.

(** The store [after] holds, at its end, the two messages of a turn of
    session [sid] that [before] did not hold: the user's [message] and the
    assistant's [reply], the latter under the identifier [mid]. *)
Definition turn_stored (before after : SessionManager.store)
    (sid message reply mid : string) : Prop :=
  exists um am,
    SessionManager.messages after = SessionManager.messages before ++ [um; am] /\
    SessionManager.session_id um = sid /\
    SessionManager.type um = SessionManager.USER /\
    SessionManager.content um = message /\
    SessionManager.session_id am = sid /\
    SessionManager.type am = SessionManager.ASSISTANT /\
    SessionManager.content am = reply /\
    SessionManager.id am = mid.


(** A [ping] frame from a peer that listens on socket [ws]. *)
Definition pinging (ws : websocket) (f : frame) : Prop :=
  match f with
  | Message E m => msg_type m = Some "ping" /\ peer_gone E ws = false
  | _ => False
  end.

End Effects.

(** Further inputs on which the definitions are evaluated. *)
Module Fixtures.
Import Py Exceptions Config WebSocket.

(** A sweep one day after the epoch of the samples, accepted by the
    database. *)
Definition sweep_next_day : SessionAdmin.sweep := {|
  SessionAdmin.sweep_now := 86400000000;
  SessionAdmin.onupdate_now := fun _ => 86400000000;
  SessionAdmin.sweep_error := None
|}.

(** An environment like [E] whose peer has gone. *)
Definition hung_up (E : env) : env := {|
  settings := settings E;
  audio_backend := audio_backend E;
  stt_backend := stt_backend E;
  chat_backend := chat_backend E;
  tts_backend := tts_backend E;
  b64decode := b64decode E;
  b64encode := b64encode E;
  session_draw := session_draw E;
  chat_draws := chat_draws E;
  peer_gone := fun _ => true
|}.

(** An environment like [E] whose database refuses to create a
    session. *)
Definition no_database (E : env) : env := {|
  settings := settings E;
  audio_backend := audio_backend E;
  stt_backend := stt_backend E;
  chat_backend := chat_backend E;
  tts_backend := tts_backend E;
  b64decode := b64decode E;
  b64encode := b64encode E;
  session_draw :=
    {| SessionManager.uuid4 := SessionManager.uuid4 (session_draw E);
       SessionManager.utcnow := SessionManager.utcnow (session_draw E);
       SessionManager.utcnow_again := SessionManager.utcnow_again (session_draw E);
       SessionManager.db_error := Some "database is locked" |};
  chat_draws := chat_draws E;
  peer_gone := peer_gone E
|}.

(** The draws of a call of [generate_response] whose two inserts are
    accepted. *)
Definition two_inserts : ChatService.draws := {|
  ChatService.history_fault := None;
  ChatService.user_draw := Sample.at_time "m1" 110;
  ChatService.assistant_draw := Sample.at_time "m2" 120
|}.

(** The draws of a call of [voice_interaction] in which the database and
    the file system accept everything. *)
Definition voice_draws_accepted : Endpoints.voice_draws := {|
  Endpoints.voice_session_draw := Sample.at_time "s1" 100;
  Endpoints.voice_chat_draws := two_inserts;
  Endpoints.voice_history_fault := None;
  Endpoints.named_temporary_file := fun _ => Returned "tmp0.mp3"
|}.


(** An upload named [*.wav] of three bytes. *)
Definition short_wav : Endpoints.upload := {|
  Endpoints.suffix := ".wav";
  Endpoints.file_bytes := Sample.three_bytes
|}.

End Fixtures.

(* ===================================================================== *)
(** * Properties *)
(* ===================================================================== *)

(** ** Confidence estimate *)

Section Confidence.
Import Py SpeechToText Protocol.

Lemma estimate_confidence_unfold (text : string) (f : gmap string float) :
  _estimate_confidence text f =
  py_min 1.0 (py_max 0.0
    (plus_if (little_silence f) 0.1
      (plus_if (good_signal f) 0.1
        (plus_if (no_marker text) 0.1
          (plus_if (has_text text) 0.2 0.5))))).
Proof. reflexivity. Qed.

(** C5, as amended: the estimate lies in [0.0, 1.0]; it is the sum, in
    double precision and in this order, of 0.5, of 0.2 for a transcript
    with a character that is not white space, of 0.1 for a transcript
    without marker phrase, of 0.1 for a signal energy above 0.01 and of
    0.1 for a silence ratio below 0.5, and the clamp never changes that
    sum; with all four bonuses the estimate is 0.99999999999999989, the
    double below 1.0. *)
Theorem estimate_confidence_range_and_value (text : string) (f : gmap string float) :
  let c := _estimate_confidence text f in
  PrimFloat.leb 0.0 c = true /\
  PrimFloat.leb c 1.0 = true /\
  c = plus_if (little_silence f) 0.1
        (plus_if (good_signal f) 0.1
          (plus_if (no_marker text) 0.1
            (plus_if (has_text text) 0.2 0.5))) /\
  (has_text text && no_marker text && good_signal f && little_silence f = true ->
   c = 0.99999999999999989%float /\ PrimFloat.ltb c 1.0 = true).
Proof.
  cbv zeta. rewrite estimate_confidence_unfold.
  destruct (has_text text), (no_marker text), (good_signal f), (little_silence f);
    vm_compute; repeat split; intros; try reflexivity; discriminate.
Qed.

Lemma estimate_confidence_range_and_value_witness :
  _estimate_confidence "hello" Sample.clear_features = 0.99999999999999989%float /\
  PrimFloat.ltb (_estimate_confidence "hello" Sample.clear_features) 1.0 = true.
Proof.
  apply (estimate_confidence_range_and_value "hello" Sample.clear_features).
  vm_compute. reflexivity.
Defined.

(** C5 as stated fails: a clean, non-empty transcript with strong signal
    and little silence does not score 1.0. *)
Lemma estimate_confidence_clean_not_one :
  has_text "hello" = true /\ no_marker "hello" = true /\
  good_signal Sample.clear_features = true /\
  little_silence Sample.clear_features = true /\
  PrimFloat.eqb (_estimate_confidence "hello" Sample.clear_features) 1.0 = false.
Proof. vm_compute. repeat split; reflexivity. Qed.

End Confidence.

(** ** Audio validation *)

Section Validation.
Import Py Exceptions Config AudioProcessor.

Variable B : Backend.
Variable cfg : AudioSettings.






End Validation.



(** ** Speech synthesis: the voice *)

Section Voice.
Import Py Exceptions Config TextToSpeech.

Variable B : Backend.
Variable cfg : OpenAISettings.

Lemma known_voice_truthy (v : string) :
  in_list v available_voices = true -> truthy v = true.
Proof.
  unfold in_list, available_voices. simpl. intros H.
  repeat (apply orb_prop in H as [H|H]; [apply String.eqb_eq in H; subst; reflexivity|]).
  discriminate.
Qed.

Lemma select_voice_known (v : string) :
  in_list v available_voices = true -> select_voice cfg (Some v) = v.
Proof.
  intros H. unfold select_voice. rewrite (known_voice_truthy v H), H. reflexivity.
Qed.

Lemma select_voice_unknown (v : string) :
  in_list v available_voices = false -> select_voice cfg (Some v) = tts_voice cfg.
Proof.
  intros H. unfold select_voice. destruct (truthy v).
  - rewrite H. reflexivity.
  - destruct (in_list (tts_voice cfg) available_voices); reflexivity.
Qed.

Lemma select_voice_default : select_voice cfg None = tts_voice cfg.
Proof.
  unfold select_voice. destruct (in_list (tts_voice cfg) available_voices); reflexivity.
Qed.

(** The request for a text that passes the two text checks. *)
Lemma prepare_request_text (s : string) (voice : option string) :
  Z.of_nat (Py.len s) <= 4096 ->
  truthy (strip s) = true ->
  prepare_request cfg (Text s) voice =
  Ok {| req_model := tts_model cfg;
        req_voice := select_voice cfg voice;
        req_input := _preprocess_text s |}.
Proof.
  intros Hlen Hne. unfold prepare_request. simpl.
  replace (4096 <? Z.of_nat (Py.len s)) with false
    by (symmetry; apply Z.ltb_ge; exact Hlen).
  rewrite Hne. reflexivity.
Qed.

(** Synthesis returns audio exactly when the engine returns it on the
    request prepared. *)
Lemma synthesize_speech_returns (s : string) (voice : option string) (audio : bytes) :
  Z.of_nat (Py.len s) <= 4096 ->
  truthy (strip s) = true ->
  synthesize_speech B cfg (Text s) voice = Ok audio <->
  speech_create B (tts_model cfg) (select_voice cfg voice) (_preprocess_text s)
  = Returned audio.
Proof.
  intros Hlen Hne. unfold synthesize_speech, synthesize_speech_body.
  rewrite (prepare_request_text s voice Hlen Hne). simpl.
  destruct (speech_create B _ _ _) as [a|t|t status body]; simpl.
  - split; intros [= ->]; reflexivity.
  - split; discriminate.
  - destruct (status =? 429); split; discriminate.
Qed.

(** C8: for a text that passes the text checks, [synthesize_speech] returns
    audio exactly when the engine returns it for the voice asked: the voice
    given when that is one of the fixed set, the configured default voice
    when it is not.  An unknown voice is never a reason to fail: whatever the
    text, the call with it comes out as the call with no voice given. *)
Theorem synthesize_speech_voice (s v : string) :
  Z.of_nat (Py.len s) <= 4096 ->
  truthy (strip s) = true ->
  (in_list v available_voices = true ->
   forall audio,
     synthesize_speech B cfg (Text s) (Some v) = Ok audio <->
     speech_create B (tts_model cfg) v (_preprocess_text s) = Returned audio) /\
  (in_list v available_voices = false ->
   (forall audio,
      synthesize_speech B cfg (Text s) (Some v) = Ok audio <->
      speech_create B (tts_model cfg) (tts_voice cfg) (_preprocess_text s)
      = Returned audio) /\
   (forall text,
      synthesize_speech B cfg text (Some v) = synthesize_speech B cfg text None)).
Proof.
  intros Hlen Hne. split.
  - intros Hv audio. rewrite (synthesize_speech_returns s (Some v) audio Hlen Hne).
    rewrite (select_voice_known v Hv). reflexivity.
  - intros Hv. split.
    + intros audio. rewrite (synthesize_speech_returns s (Some v) audio Hlen Hne).
      rewrite (select_voice_unknown v Hv). reflexivity.
    + intros text. unfold synthesize_speech, synthesize_speech_body, prepare_request.
      rewrite (select_voice_unknown v Hv), select_voice_default. reflexivity.
Qed.

End Voice.

Lemma synthesize_speech_voice_witness :
  TextToSpeech.synthesize_speech Sample.tts_names_voice
    (Config.openai_settings Config.default_settings)
    (TextToSpeech.Text "Hello") (Some "nonexistent")
  = Exceptions.Ok (list_byte_of_string "alloy") /\
  TextToSpeech.synthesize_speech Sample.tts_names_voice
    (Config.openai_settings Config.default_settings)
    (TextToSpeech.Text "Hello") (Some "nova")
  = Exceptions.Ok (list_byte_of_string "nova").
Proof.
  split.
  - apply (proj1 (proj2 (synthesize_speech_voice Sample.tts_names_voice
                           (Config.openai_settings Config.default_settings)
                           "Hello" "nonexistent" ltac:(vm_compute; discriminate) eq_refl)
                   eq_refl)).
    reflexivity.
  - apply (proj1 (synthesize_speech_voice Sample.tts_names_voice
                    (Config.openai_settings Config.default_settings)
                    "Hello" "nova" ltac:(vm_compute; discriminate) eq_refl)).
    + reflexivity.
    + reflexivity.
Defined.

(** ** The conversation store: bounded history *)

Section History.
Import Py Exceptions Config SessionManager Chronology.

Implicit Types (m x : Message) (rows : list Message).

Lemma insert_desc_perm m rows : insert_desc m rows ≡ₚ m :: rows.
Proof.
  induction rows as [|x rows IH]; simpl; [reflexivity|].
  destruct (timestamp m <? timestamp x); [|reflexivity].
  rewrite IH. apply Permutation_swap.
Qed.

Lemma order_by_perm rows : order_by_timestamp_desc rows ≡ₚ rows.
Proof.
  induction rows as [|x rows IH]; simpl; [reflexivity|].
  rewrite insert_desc_perm, IH. reflexivity.
Qed.

Lemma insert_desc_sorted m rows :
  newest_first rows -> newest_first (insert_desc m rows).
Proof.
  unfold newest_first. induction 1 as [|x rows Hs IH Hx]; simpl.
  - repeat constructor.
  - destruct (timestamp m <? timestamp x) eqn:Hlt.
    + constructor; [exact IH|].
      rewrite insert_desc_perm. constructor; [|exact Hx].
      apply Z.ltb_lt in Hlt. lia.
    + apply Z.ltb_ge in Hlt. constructor; [constructor; assumption|].
      constructor; [exact Hlt|].
      eapply Forall_impl; [exact Hx|]. simpl. intros; lia.
Qed.

Lemma order_by_sorted rows : newest_first (order_by_timestamp_desc rows).
Proof.
  induction rows as [|x rows IH]; simpl.
  - constructor.
  - apply insert_desc_sorted, IH.
Qed.

(** Insertion walks past the rows that are strictly newer. *)
Lemma insert_desc_pass m front back :
  Forall (fun x => timestamp m < timestamp x) front ->
  insert_desc m (front ++ back) = front ++ insert_desc m back.
Proof.
  induction 1 as [|x front Hx _ IH]; simpl; [reflexivity|].
  replace (timestamp m <? timestamp x) with true by (symmetry; apply Z.ltb_lt; exact Hx).
  rewrite IH. reflexivity.
Qed.

(** Insertion stops at the latest before a row that is not newer. *)
Lemma insert_desc_stop m front y back :
  timestamp y <= timestamp m ->
  insert_desc m (front ++ y :: back) = insert_desc m front ++ y :: back.
Proof.
  intros Hy. induction front as [|x front IH]; simpl.
  - replace (timestamp m <? timestamp y) with false by (symmetry; apply Z.ltb_ge; exact Hy).
    reflexivity.
  - destruct (timestamp m <? timestamp x); [|reflexivity].
    rewrite IH. reflexivity.
Qed.

(** Where the row inserted last lands: after every row that is at least as
    new, before every older one; the other rows keep their order. *)
Lemma order_by_snoc rows m :
  exists front back,
    order_by_timestamp_desc rows = front ++ back /\
    order_by_timestamp_desc (rows ++ [m]) = front ++ m :: back /\
    Forall (fun x => timestamp m <= timestamp x) front /\
    Forall (fun x => timestamp x < timestamp m) back.
Proof.
  induction rows as [|x rows (front & back & Hold & Hnew & Hf & Hb)]; simpl.
  - exists [], []. repeat split; constructor.
  - rewrite Hold, Hnew. destruct (Z.lt_ge_cases (timestamp x) (timestamp m)) as [Hlt|Hge].
    + exists front, (insert_desc x back).
      assert (Forall (fun y => timestamp x < timestamp y) front) as Hpass.
      { eapply Forall_impl; [exact Hf|]. simpl. intros; lia. }
      rewrite !insert_desc_pass by exact Hpass. simpl.
      replace (timestamp x <? timestamp m) with true by (symmetry; apply Z.ltb_lt; exact Hlt).
      repeat split; try assumption.
      rewrite insert_desc_perm. constructor; assumption.
    + exists (insert_desc x front), back.
      rewrite insert_desc_stop by exact Hge.
      repeat split; try assumption.
      * destruct back as [|y back]; [rewrite !app_nil_r; reflexivity|].
        apply insert_desc_stop. inversion Hb; subst. lia.
      * rewrite insert_desc_perm. constructor; assumption.
Qed.

Lemma where_session_snoc sid rows m :
  where_session sid (rows ++ [m]) =
  where_session sid rows ++ (if String.eqb (session_id m) sid then [m] else []).
Proof.
  unfold where_session. rewrite List.filter_app. simpl.
  destruct (String.eqb (session_id m) sid); reflexivity.
Qed.



Lemma newest_first_rev_oldest_first rows :
  newest_first rows ->
  StronglySorted (fun a b => timestamp a <= timestamp b) (rev rows).
Proof.
  unfold newest_first. induction 1 as [|x rows Hs IH Hx]; simpl; [constructor|].
  apply StronglySorted_app. split; [|split; [exact IH|repeat constructor]].
  intros a b Ha Hb. apply list_elem_of_singleton in Hb as ->.
  apply list_elem_of_In, in_rev, list_elem_of_In in Ha.
  rewrite Forall_forall in Hx. apply Hx. exact Ha.
Qed.

Lemma oldest_first_chronological rows :
  StronglySorted (fun a b => timestamp a <= timestamp b) rows ->
  chronological (map model_validate rows).
Proof.
  intros Hs i a b Ha Hb.
  change (map model_validate rows) with (model_validate <$> rows) in Ha, Hb.
  rewrite list_lookup_fmap in Ha, Hb.
  destruct (rows !! i) as [x|] eqn:Hx; [|discriminate].
  destruct (rows !! S i) as [y|] eqn:Hy; [|discriminate].
  injection Ha as <-. injection Hb as <-. simpl.
  rewrite <- (take_drop_middle rows i x Hx) in Hs, Hy.
  apply StronglySorted_app_1_r, StronglySorted_inv in Hs as [_ Hall].
  rewrite lookup_app_r in Hy by (rewrite length_take; lia).
  rewrite length_take in Hy.
  apply lookup_lt_Some in Hx as Hlt.
  replace (S i - Nat.min i (length rows))%nat with 1%nat in Hy by lia.
  simpl in Hy. rewrite Forall_forall in Hall. apply Hall.
  eapply list_elem_of_lookup_2. exact Hy.
Qed.

Lemma sql_limit_sorted n rows : newest_first rows -> newest_first (sql_limit n rows).
Proof.
  unfold sql_limit, newest_first. intros Hs. destruct (n <? 0); [exact Hs|].
  rewrite <- (take_drop (Z.to_nat n) rows) in Hs.
  eapply StronglySorted_app_1_l. exact Hs.
Qed.

Lemma sql_limit_length n rows :
  length (sql_limit n rows) = bounded n (length rows).
Proof.
  unfold sql_limit, bounded. destruct (n <? 0); [reflexivity|]. apply length_take.
Qed.


Lemma history_value (cfg : SessionSettings) (st : store) (sid : string) (limit : option Z) :
  get_conversation_history cfg None st sid limit =
  Ok (map model_validate (rev (select_recent st sid (effective_limit cfg limit)))).
Proof. reflexivity. Qed.

Lemma add_message_ok_inv d st sid ty text extra mid st' :
  add_message d st sid ty text extra = (Ok mid, st') ->
  exists m, messages st' = messages st ++ [m] /\
            id m = mid /\ session_id m = sid /\ type m = ty /\
            text = Some (content m) /\ timestamp m = utcnow d /\
            Forall (fun x => id x <> mid) (messages st).
Proof.
  unfold add_message, raise_agent.
  destruct (db_error d); [discriminate|].
  destruct (conversations st !! sid); [|discriminate].
  destruct text as [body|]; [|discriminate].
  destruct (existsb _ _) eqn:Hfresh; [discriminate|].
  intros [= <- <-]. eexists. simpl. repeat split.
  apply Forall_forall. intros x Hx Heq.
  apply not_true_iff_false in Hfresh. apply Hfresh.
  apply existsb_exists. exists x. split; [apply list_elem_of_In; exact Hx|].
  apply String.eqb_eq. exact Heq.
Qed.

Lemma add_message_raise_inv d st sid ty text extra e st' :
  add_message d st sid ty text extra = (Raise e, st') -> st' = st.
Proof.
  unfold add_message, raise_agent.
  destruct (db_error d); [intros [= _ <-]; reflexivity|].
  destruct (conversations st !! sid); [|intros [= _ <-]; reflexivity].
  destruct text as [body|]; [|intros [= _ <-]; reflexivity].
  destruct (existsb _ _); [intros [= _ <-]; reflexivity|discriminate].
Qed.





Lemma where_session_of_session (sid : string) (rows : list Message) :
  where_session sid rows = of_session sid rows.
Proof.
  unfold where_session, of_session. induction rows as [|m rows IH]; [reflexivity|].
  simpl. rewrite IH. destruct (String.eqb_spec (session_id m) sid) as [Heq|Hne].
  - rewrite filter_cons_True by exact Heq. reflexivity.
  - rewrite filter_cons_False by exact Hne. reflexivity.
Qed.


End History.


(** ** Response generation and persistence *)

Section Persistence.
Import Py Exceptions Config SessionManager ChatService.

Variable B : Backend.
Variable cfg : Settings.

(** The row an accepted insert appends, and the store it leaves. *)
Lemma add_message_ok_row d st sid ty text extra mid st' :
  add_message d st sid ty text extra = (Ok mid, st') ->
  exists body,
    text = Some body /\ mid = uuid4 d /\
    messages st' = messages st ++
      [ {| id := uuid4 d; session_id := sid; type := ty; content := body;
           timestamp := utcnow d; extra_data := extra |} ].
Proof.
  unfold add_message, raise_agent.
  destruct (db_error d); [discriminate|].
  destruct (conversations st !! sid); [|discriminate].
  destruct text as [body|]; [|discriminate].
  destruct (existsb _ _); [discriminate|].
  intros [= <- <-]. exists body. repeat split.
Qed.

(** C3, as amended.  A call of [generate_response] reads the history, asks
    the engine, inserts the user message and inserts the assistant message,
    in this order.  When the history read fails, when the engine fails on
    the prompt built from the history, and when the insert of the user
    message is refused, the call fails and the store is as before.  When
    these three succeed and the insert of the assistant message is refused,
    the call fails and the store is the one the first insert left: it holds
    the user message as its one new message.  When all four succeed, the
    call returns the reply and the identifier of the assistant message, and
    the store holds the user message and then the assistant message as its
    two new messages. *)
Theorem generate_response_persistence (dr : draws) (st : store)
    (message sid : string) (context : option (gmap string string)) :
  let run := generate_response B cfg dr st message sid context in
  let read := get_conversation_history (session_settings cfg) (history_fault dr) st sid None in
  let asked history :=
    chat_completions_create B (model (openai_settings cfg))
      (build_messages cfg history message context) in
  let user_insert :=
    add_message (user_draw dr) st sid USER (Some message)
      [("context", context_json context)] in
  let assistant_insert response st1 :=
    add_message (assistant_draw dr) st1 sid ASSISTANT (reply_content response)
      [("model", JStr (model (openai_settings cfg)));
       ("tokens_used", match total_tokens response with
                       | Some n => JInt n
                       | None => JNull
                       end)] in
  (is_ok read = false -> is_ok (fst run) = false /\ snd run = st) /\
  (forall history,
     read = Ok history -> is_ok (call (asked history)) = false ->
     is_ok (fst run) = false /\ snd run = st) /\
  (forall history response,
     read = Ok history -> asked history = Returned response ->
     is_ok (fst user_insert) = false ->
     is_ok (fst run) = false /\ snd run = st) /\
  (forall history response umid st1,
     read = Ok history -> asked history = Returned response ->
     user_insert = (Ok umid, st1) ->
     is_ok (fst (assistant_insert response st1)) = false ->
     is_ok (fst run) = false /\ snd run = st1 /\
     messages st1 = messages st ++
       [ {| id := umid; session_id := sid; type := USER; content := message;
            timestamp := utcnow (user_draw dr);
            extra_data := [("context", context_json context)] |} ]) /\
  (forall history response umid st1 amid st2,
     read = Ok history -> asked history = Returned response ->
     user_insert = (Ok umid, st1) ->
     assistant_insert response st1 = (Ok amid, st2) ->
     exists reply um am,
       run = (Ok (reply, amid), st2) /\
       reply_content response = Some reply /\
       messages st2 = messages st ++ [um; am] /\
       id um = umid /\ session_id um = sid /\ type um = USER /\ content um = message /\
       id am = amid /\ session_id am = sid /\ type am = ASSISTANT /\ content am = reply).
Proof.
  cbv zeta. unfold generate_response, generate_response_body.
  split; [|split; [|split; [|split]]].
  - destruct (get_conversation_history _ _ _ _ _) as [history|e]; [discriminate|].
    intros _. destruct (contains _ _); split; reflexivity.
  - intros history -> Hengine. simpl.
    destruct (call _) as [response|e]; [discriminate|].
    destruct (contains _ _); split; reflexivity.
  - intros history response -> Hengine. rewrite Hengine. simpl.
    destruct (add_message (user_draw dr) st sid USER _ _) as [[umid|e] st1] eqn:Huser;
      [discriminate|].
    intros _. apply add_message_raise_inv in Huser as ->.
    destruct (contains _ _); split; reflexivity.
  - intros history response umid st1 -> Hengine Huser. rewrite Hengine. simpl.
    rewrite Huser.
    destruct (add_message (assistant_draw dr) st1 sid ASSISTANT _ _) as [[amid|e] st2]
      eqn:Hasst; [discriminate|].
    intros _. apply add_message_raise_inv in Hasst as ->.
    apply add_message_ok_row in Huser as (body & [= <-] & -> & Hrow).
    destruct (contains _ _); repeat split; exact Hrow.
  - intros history response umid st1 amid st2 -> Hengine Huser Hasst.
    rewrite Hengine. simpl. rewrite Huser, Hasst.
    apply add_message_ok_row in Huser as (ubody & [= <-] & -> & Hurow).
    apply add_message_ok_row in Hasst as (reply & Hreply & -> & Harow).
    rewrite Hreply. eexists reply, _, _. split; [reflexivity|]. split; [reflexivity|].
    rewrite Harow, Hurow, <- app_assoc. simpl. repeat split.
Qed.

End Persistence.

Lemma generate_response_persistence_witness :
  Exceptions.is_ok
    (fst (ChatService.generate_response Sample.chat_hello Config.default_settings
            Sample.second_insert_refused Sample.one_session "Hello" "s1" None)) = false /\
  snd (ChatService.generate_response Sample.chat_hello Config.default_settings
         Sample.second_insert_refused Sample.one_session "Hello" "s1" None)
  = snd (SessionManager.add_message (Sample.at_time "m1" 110) Sample.one_session "s1"
           SessionManager.USER (Some "Hello") [("context", SessionManager.JNull)]) /\
  SessionManager.messages
    (snd (SessionManager.add_message (Sample.at_time "m1" 110) Sample.one_session "s1"
            SessionManager.USER (Some "Hello") [("context", SessionManager.JNull)]))
  = SessionManager.messages Sample.one_session ++
    [ {| SessionManager.id := "m1"; SessionManager.session_id := "s1";
         SessionManager.type := SessionManager.USER; SessionManager.content := "Hello";
         SessionManager.timestamp := 110;
         SessionManager.extra_data := [("context", SessionManager.JNull)] |} ].
Proof.
  apply (proj1 (proj2 (proj2 (proj2
           (generate_response_persistence Sample.chat_hello Config.default_settings
              Sample.second_insert_refused Sample.one_session "Hello" "s1" None))))
           [] {| ChatService.reply_content := Some "hello";
                 ChatService.total_tokens := Some 7 |} "m1").
  - reflexivity.
  - reflexivity.
  - reflexivity.
  - reflexivity.
Defined.

(** C3 as stated fails: when the database refuses the second insert the call
    fails, yet the user message of the turn is in the store. *)
Lemma generate_response_failure_keeps_user_message :
  Exceptions.code_of
    (fst (ChatService.generate_response Sample.chat_hello Config.default_settings
            Sample.second_insert_refused Sample.one_session "Hello" "s1" None))
  = Some "RESPONSE_GENERATION_ERROR" /\
  SessionManager.messages Sample.one_session = [] /\
  map (fun m => (SessionManager.type m, SessionManager.content m))
    (SessionManager.messages
       (snd (ChatService.generate_response Sample.chat_hello Config.default_settings
               Sample.second_insert_refused Sample.one_session "Hello" "s1" None)))
  = [(SessionManager.USER, "Hello")].
Proof. vm_compute. repeat split; reflexivity. Qed.

(** ** The services raise application exceptions with an error code *)

Section TypedErrors.
Import Py Exceptions Config Protocol.

Lemma raise_agent_coded {A} (cls : exn_class) (m c : string) (e : exception) :
  @raise_agent A cls m c = Raise e -> coded e.
Proof. intros [= <-]. eexists _, c. split; reflexivity. Qed.

Lemma validate_audio_coded B cfg data format e :
  AudioProcessor.validate_audio B cfg data format = Raise e -> coded e.
Proof.
  unfold AudioProcessor.validate_audio, AudioProcessor.validate_audio_checks.
  destruct (negb _); [apply raise_agent_coded|].
  destruct (AudioProcessor.too_large _ _); [apply raise_agent_coded|].
  destruct (AudioProcessor.from_file _ _ _) as [ms| |]; simpl;
    try apply raise_agent_coded.
  destruct (AudioProcessor.too_long ms); [apply raise_agent_coded|discriminate].
Qed.

Lemma transcribe_audio_coded A B cfg data lang e :
  SpeechToText.transcribe_audio A B cfg data lang = Raise e -> coded e.
Proof.
  unfold SpeechToText.transcribe_audio.
  destruct (SpeechToText.transcribe_audio_body A B cfg data lang) as [r|[v|t status body|t]];
    [discriminate| | |]; try apply raise_agent_coded.
  destruct (status =? 429); apply raise_agent_coded.
Qed.

Lemma generate_response_coded B cfg dr st message sid context e st' :
  ChatService.generate_response B cfg dr st message sid context = (Raise e, st') -> coded e.
Proof.
  unfold ChatService.generate_response.
  destruct (ChatService.generate_response_body _ _ _ _ _ _ _) as [[r|e'] st1];
    [discriminate|].
  destruct (contains _ _); intros [= <- _]; eexists _, _; split; reflexivity.
Qed.

Lemma synthesize_speech_coded B cfg text voice e :
  TextToSpeech.synthesize_speech B cfg text voice = Raise e -> coded e.
Proof.
  unfold TextToSpeech.synthesize_speech.
  destruct (TextToSpeech.synthesize_speech_body B cfg text voice) as [r|[v|t status body|t]];
    [discriminate| | |]; try apply raise_agent_coded.
  destruct (status =? 429); apply raise_agent_coded.
Qed.

(** Handed the pair that [generate_response] returns instead of its first
    component, synthesis fails on [text.strip()] before the engine is
    asked. *)
Lemma synthesize_speech_pair B cfg reply mid voice :
  TextToSpeech.synthesize_speech B cfg (TextToSpeech.Pair reply mid) voice =
  raise_agent TextToSpeechError
    "Speech synthesis failed: 'tuple' object has no attribute 'strip'" "SYNTHESIS_ERROR".
Proof. reflexivity. Qed.

End TypedErrors.

(** ** The streaming handlers *)

Section Streaming.
Import Py Exceptions Config WebSocket Protocol.

Variable E : env.
Variable connection_id : string.
Variable ws : websocket.

Lemma send_message_live (ev : event) (s : state) :
  live E connection_id ws s ->
  send_message E connection_id ev s = (Ok tt, record (Sent ws ev) s).
Proof. intros [Hreg Hpeer]. unfold send_message. rewrite Hreg, Hpeer. reflexivity. Qed.

(** A streaming audio turn on non-empty audio always stops in an exception
    with an error code, after one of four stretches of progress. *)
Lemma turn_body_raises (audio : bytes) (session_id : string) (s : state) :
  live E connection_id ws s ->
  exists e acts d,
    process_complete_audio_body E audio connection_id session_id s =
    (Raise e, {| manager := manager s; db := d; audio_chunks := audio_chunks s;
                 trace := trace s ++ acts |}) /\
    coded e /\ turn_progress ws acts.
Proof.
  intros [Hreg Hpeer]. destruct s as [M D C T]. simpl in Hreg.
  unfold process_complete_audio_body, bind, await, invoke, generate_response,
    modify, bind, await, send_message.
  simpl.
  destruct (AudioProcessor.validate_audio _ _ _ _) as [ok|e] eqn:Hvalid.
  2:{ exists e, [], D. rewrite app_nil_r. split; [reflexivity|].
      split; [eapply validate_audio_coded; exact Hvalid|constructor]. }
  rewrite Hreg, Hpeer. simpl.
  destruct (SpeechToText.transcribe_audio _ _ _ _ _) as [tr|e] eqn:Htr.
  2:{ exists e. eexists. exists D. unfold record. simpl. rewrite <- !app_assoc.
      split; [reflexivity|].
      split; [eapply transcribe_audio_coded; exact Htr|constructor]. }
  rewrite Hreg, Hpeer. simpl. rewrite Hreg, Hpeer. simpl.
  destruct (ChatService.generate_response _ _ _ _ _ _ _) as [[[reply mid]|e] D'] eqn:Hgen.
  2:{ exists e. eexists. exists D'. unfold record, set_db. simpl. rewrite <- !app_assoc.
      split; [reflexivity|].
      split; [eapply generate_response_coded; exact Hgen|constructor]. }
  simpl. rewrite Hreg, Hpeer. simpl. rewrite Hreg, Hpeer. simpl.
  eexists. eexists. exists D'. unfold record, set_db. simpl. rewrite <- !app_assoc.
  split; [reflexivity|].
  split; [eexists _, _; split; reflexivity|constructor].
Qed.

Lemma events_on_sent (e : event) (t : list action) :
  events_on ws (Sent ws e :: t) = e :: events_on ws t.
Proof. unfold events_on. simpl. rewrite decide_True by reflexivity. reflexivity. Qed.

Lemma events_on_invoked (p : port) (t : list action) :
  events_on ws (Invoked p :: t) = events_on ws t.
Proof. reflexivity. Qed.

Lemma events_on_app (t1 t2 : list action) :
  events_on ws (t1 ++ t2) = events_on ws t1 ++ events_on ws t2.
Proof. unfold events_on. apply omap_app. Qed.

Lemma events_on_nil : events_on ws [] = [].
Proof. reflexivity. Qed.


(** The events of a stretch of progress are an initial segment of the
    staged order, of length 0, 1, 3 or 5. *)
Lemma turn_progress_events (acts : list action) :
  turn_progress ws acts ->
  exists k, (k <= 5)%nat /\
            map kind_of (events_on ws acts) = take k staged_order /\
            forallb is_staged (events_on ws acts) = true.
Proof.
  intros []; repeat (rewrite events_on_sent || rewrite events_on_invoked);
    rewrite events_on_nil.
  - exists 0%nat. repeat split. lia.
  - exists 1%nat. repeat split. lia.
  - exists 3%nat. repeat split. lia.
  - exists 5%nat. repeat split. lia.
Qed.

(** What a streaming audio turn does: nothing on empty audio; otherwise
    some progress and then one error event with an error code. *)
Lemma process_complete_audio_run (chunks : list bytes) (session_id : string) (s : state) :
  live E connection_id ws s ->
  exists acts d,
    process_complete_audio E chunks connection_id session_id s =
    (Ok tt, {| manager := manager s; db := d; audio_chunks := audio_chunks s;
               trace := trace s ++ acts |}) /\
    ((join chunks = [] /\ acts = [] /\ d = db s) \/
     (join chunks <> [] /\
      is_ok (fst (process_complete_audio_body E (join chunks) connection_id session_id s))
        = false /\
      exists progress m c,
        turn_progress ws progress /\
        acts = progress ++ [Sent ws (error m (Some c))])).
Proof.
  intros Hlive. unfold process_complete_audio.
  destruct (join chunks) as [|b rest] eqn:Hjoin.
  - exists [], (db s). rewrite app_nil_r. destruct s. split; [reflexivity|]. left. auto.
  - destruct (turn_body_raises (b :: rest) session_id s Hlive)
      as (e & progress & d & Hbody & (v & c & -> & Hcode) & Hprogress).
    unfold try_except. rewrite Hbody. simpl. rewrite Hcode.
    rewrite send_message_live by (destruct Hlive; split; assumption).
    exists (progress ++ [Sent ws (error (message v) (Some c))]), d.
    unfold record. simpl. rewrite app_assoc. split; [reflexivity|].
    right. split; [discriminate|]. split; [reflexivity|]. eauto.
Qed.

End Streaming.

Lemma bound_is_live :
  Protocol.live (Sample.healthy "s2" "m3" "m4" 200) "c" 7%nat Sample.bound.
Proof. split; reflexivity. Qed.

(** C1 fails on the code.  On a bound session, with audio that validates
    and with every engine answering and every insert accepted, a streaming
    audio turn sends the first five staged events and then an error event:
    [process_complete_audio] hands the pair that [generate_response] returns
    to [synthesize_speech], which fails on it where it would have succeeded
    on the reply, so [audio_response] and [interaction_completed] are not
    sent. *)
Lemma streaming_turn_stops_at_synthesis :
  map Protocol.kind_of
    (WebSocket.events_on 7%nat
       (drop (length (WebSocket.trace Sample.bound))
          (WebSocket.trace
             (snd (WebSocket.process_complete_audio (Sample.healthy "s2" "m3" "m4" 200)
                     [Sample.three_bytes] "c" "s1" Sample.bound)))))
  = [Protocol.TranscriptionStarted; Protocol.TranscriptionCompleted;
     Protocol.ResponseGenerationStarted; Protocol.TextResponse;
     Protocol.AudioGenerationStarted; Protocol.Error] /\
  last (WebSocket.events_on 7%nat
          (WebSocket.trace
             (snd (WebSocket.process_complete_audio (Sample.healthy "s2" "m3" "m4" 200)
                     [Sample.three_bytes] "c" "s1" Sample.bound))))
  = Some (WebSocket.error
            "Speech synthesis failed: 'tuple' object has no attribute 'strip'"
            (Some "SYNTHESIS_ERROR")) /\
  map (fun m => (SessionManager.type m, SessionManager.content m))
    (SessionManager.messages
       (WebSocket.db
          (snd (WebSocket.process_complete_audio (Sample.healthy "s2" "m3" "m4" 200)
                  [Sample.three_bytes] "c" "s1" Sample.bound))))
  = [(SessionManager.USER, "hi"); (SessionManager.ASSISTANT, "hello")] /\
  TextToSpeech.synthesize_speech Sample.tts_three_bytes
    (Config.openai_settings Config.default_settings) (TextToSpeech.Text "hello") None
  = Exceptions.Ok Sample.three_bytes.
Proof. vm_compute. repeat split; reflexivity. Qed.

(** ** Oversized audio *)

Section Oversized.
Import Py Exceptions Config WebSocket Protocol Endpoints.

Variable A : AudioProcessor.Backend.
Variable cfg : Settings.




End Oversized.




(** ** One round of the receive loop *)

Section Rounds.
Import Py Exceptions Config WebSocket Protocol Effects.

Variable E : env.
Variable connection_id : string.
Variable ws : websocket.

Lemma on_socket_sent (acts : list action) :
  on_socket ws acts -> sent acts = map (pair ws) (events_on ws acts).
Proof.
  induction 1 as [|[w e|p] acts Ha _ IH]; [reflexivity| |exact IH].
  subst w. unfold sent, events_on in *. simpl.
  rewrite decide_True by reflexivity. simpl. f_equal. exact IH.
Qed.

Lemma turn_progress_on_socket (acts : list action) :
  turn_progress ws acts -> on_socket ws acts.
Proof. intros []; repeat constructor. Qed.

Lemma turn_trace_on_socket (acts : list action) :
  turn_trace ws acts -> on_socket ws acts.
Proof.
  intros [->|(progress & m & c & Hp & ->)]; [constructor|].
  apply Forall_app. split; [apply turn_progress_on_socket, Hp|repeat constructor].
Qed.

(** The events of a streaming audio turn are none, or one outcome. *)
Lemma turn_trace_events (acts : list action) :
  turn_trace ws acts ->
  events_on ws acts = [] \/ one_outcome (events_on ws acts) = true.
Proof.
  intros [->|(progress & m & c & Hp & ->)]; [left; reflexivity|right].
  rewrite events_on_app, events_on_sent, events_on_nil.
  destruct Hp; repeat (rewrite events_on_sent || rewrite events_on_invoked);
    rewrite ?events_on_nil; reflexivity.
Qed.

Lemma process_complete_audio_turn (chunks : list bytes) (session_id : string) (s : state) :
  live E connection_id ws s ->
  exists acts d,
    process_complete_audio E chunks connection_id session_id s =
    (Ok tt, {| manager := manager s; db := d; audio_chunks := audio_chunks s;
               trace := trace s ++ acts |}) /\
    acts = added (process_complete_audio E chunks connection_id session_id) s /\
    turn_trace ws acts /\ (join chunks = [] <-> acts = []).
Proof.
  intros Hlive.
  destruct (process_complete_audio_run E connection_id ws chunks session_id s Hlive)
    as (acts & d & Hrun & Hcases).
  exists acts, d. split; [exact Hrun|].
  split; [unfold added; rewrite Hrun; simpl; rewrite drop_app_length; reflexivity|].
  destruct Hcases as [(Hjoin & Hacts & _)|(Hjoin & _ & progress & m & c & Hp & Hacts)].
  - split; [left; exact Hacts|]. split; auto.
  - split; [right; eauto|]. split; [contradiction|].
    rewrite Hacts. intros H. apply app_eq_nil in H as [_ H]. discriminate.
Qed.

(** What [handle_audio_chunk] does on a live connection. *)
Lemma handle_audio_chunk_run (m : message_data) (session_id : option string) (s : state) :
  live E connection_id ws s ->
  exists acts d chunks',
    handle_audio_chunk E m connection_id session_id s =
    (Ok tt, {| manager := manager s; db := d; audio_chunks := chunks';
               trace := trace s ++ acts |}) /\
    ((truthy_opt (audio_data m) = false /\ chunks' = audio_chunks s /\ d = db s /\
      acts = [Sent ws (error "No audio data provided" None)]) \/
     (truthy_opt (audio_data m) = true /\ chunks' = audio_chunks s /\ d = db s /\
      exists e, call (b64decode E (default "" (audio_data m))) = Raise e /\
                acts = [Sent ws (error ("Audio processing error: " +:+ str e) None)]) \/
     (truthy_opt (audio_data m) = true /\
      exists data, b64decode E (default "" (audio_data m)) = Returned data /\
        if is_final m && truthy_opt session_id
        then chunks' = [] /\
             exists turn,
               turn = added (process_complete_audio E (audio_chunks s ++ [data])
                               connection_id (default "" session_id))
                        (set_audio_chunks (audio_chunks s ++ [data]) s) /\
               turn_trace ws turn /\
               acts = turn ++ [Sent ws (audio_chunk_received 0 (is_final m))]
        else chunks' = audio_chunks s ++ [data] /\ d = db s /\
             acts = [Sent ws (audio_chunk_received (length chunks') (is_final m))])).
Proof.
  intros Hlive. unfold handle_audio_chunk, try_except.
  destruct (truthy_opt (audio_data m)) eqn:Hdata; simpl.
  2:{ rewrite (send_message_live E connection_id ws) by exact Hlive.
      exists [Sent ws (error "No audio data provided" None)], (db s), (audio_chunks s).
      destruct s. split; [reflexivity|]. left. auto. }
  unfold bind at 1, await.
  destruct (b64decode E (default "" (audio_data m))) as [data|t|t status body] eqn:Hdecode;
    simpl.
  2,3: rewrite (send_message_live E connection_id ws) by exact Hlive;
       eexists _, (db s), (audio_chunks s); destruct s;
       (split; [reflexivity|]); right; left; repeat split; eexists; split; reflexivity.
  unfold bind at 1, modify.
  set (s1 := set_audio_chunks (audio_chunks s ++ [data]) s).
  assert (live E connection_id ws s1) as Hlive1 by exact Hlive.
  destruct (is_final m && truthy_opt session_id) eqn:Hflush.
  - destruct (process_complete_audio_turn (audio_chunks s1) (default "" session_id) s1 Hlive1)
      as (turn & d & Hrun & Hadded & Hturn & _).
    unfold bind, gets, modify. rewrite Hrun. simpl.
    rewrite (send_message_live E connection_id ws) by exact Hlive.
    exists (turn ++ [Sent ws (audio_chunk_received 0 (is_final m))]), d, [].
    unfold record. simpl. rewrite app_assoc. split; [reflexivity|].
    right; right. split; [reflexivity|]. exists data. split; [reflexivity|].
    split; [reflexivity|]. exists turn. auto.
  - unfold bind, gets, ret. simpl.
    rewrite (send_message_live E connection_id ws) by exact Hlive1.
    exists [Sent ws (audio_chunk_received (length (audio_chunks s ++ [data])) (is_final m))],
      (db s), (audio_chunks s ++ [data]).
    destruct s. unfold record. simpl. split; [reflexivity|].
    right; right. split; [reflexivity|]. exists data. split; [reflexivity|]. auto.
Qed.

(** What [handle_text_message] does on a live connection. *)
Lemma handle_text_message_run (m : message_data) (session_id : option string) (s : state) :
  live E connection_id ws s ->
  exists acts d,
    handle_text_message E m connection_id session_id s =
    (Ok tt, {| manager := manager s; db := d; audio_chunks := audio_chunks s;
               trace := trace s ++ acts |}) /\
    ((exists t, acts = [Sent ws (error t None)]) \/
     (exists t, acts = [Invoked ResponsePort; Sent ws (error t None)]) \/
     (exists reply, include_audio m = false /\
                    acts = [Invoked ResponsePort; Sent ws (text_response reply)]) \/
     (exists reply t, include_audio m = true /\
                      acts = [Invoked ResponsePort; Sent ws (text_response reply);
                              Invoked SynthesisPort; Sent ws (error t None)])).
Proof.
  intros Hlive. unfold handle_text_message, try_except.
  destruct (negb (truthy_opt (text m)) || negb (truthy_opt session_id)).
  { rewrite (send_message_live E connection_id ws) by exact Hlive.
    exists [Sent ws (error "No text provided or session not initialized" None)], (db s).
    destruct s. split; [reflexivity|]. left. eauto. }
  unfold bind at 1, generate_response, bind at 1, modify.
  set (s1 := record (Invoked ResponsePort) s).
  assert (live E connection_id ws s1) as Hlive1 by exact Hlive.
  destruct (ChatService.generate_response _ _ _ (db s1) _ _ _) as [[[reply mid]|e] d]
    eqn:Hgen; simpl.
  2:{ rewrite (send_message_live E connection_id ws) by exact Hlive.
      exists [Invoked ResponsePort; Sent ws (error ("Text processing error: " +:+ str e) None)], d.
      destruct s. unfold record. simpl. rewrite <- app_assoc. split; [reflexivity|].
      right; left. eauto. }
  unfold bind at 1. rewrite (send_message_live E connection_id ws) by exact Hlive.
  destruct (include_audio m) eqn:Haudio.
  - unfold bind, invoke, bind, modify, await. simpl.
    rewrite (send_message_live E connection_id ws) by exact Hlive.
    eexists [Invoked ResponsePort; Sent ws (text_response (TextToSpeech.Pair reply mid));
             Invoked SynthesisPort; Sent ws (error _ None)], d.
    destruct s. unfold record. simpl. rewrite <- !app_assoc. split; [reflexivity|].
    right; right; right. eauto.
  - exists [Invoked ResponsePort; Sent ws (text_response (TextToSpeech.Pair reply mid))], d.
    destruct s. unfold ret, record. simpl. rewrite <- !app_assoc. split; [reflexivity|].
    right; right; left. eauto.
Qed.

Ltac one_event :=
  split; [apply on_socket_sent; repeat constructor|];
  repeat (rewrite events_on_sent || rewrite events_on_invoked); rewrite ?events_on_nil.

(** C2, as amended.  On a live connection, what a round sends it sends on
    the connection's socket, and: an [end_audio] message gets the events of
    the turn it flushes, none or one outcome, and no event when no session is
    bound or nothing has accumulated; a final [audio_chunk] that flushes a
    turn gets the events of that turn and then the acknowledgement; a
    [text_message] that asks for audio gets one error event or events that
    begin with the text response; every other message gets exactly one
    event, of a kind that answers its type. *)
Theorem round_outcome (m : message_data) (session_id : option string) (s : state) :
  live E connection_id ws s ->
  exists acts,
    trace (snd (round E m connection_id session_id s)) = trace s ++ acts /\
    sent acts = map (pair ws) (events_on ws acts) /\
    if bool_decide (msg_type m = Some "end_audio") then
      if negb (bool_decide (audio_chunks s = [])) && truthy_opt session_id then
        acts = added (process_complete_audio E (audio_chunks s) connection_id
                        (default "" session_id)) s /\
        (events_on ws acts = [] <-> join (audio_chunks s) = []) /\
        (events_on ws acts = [] \/ one_outcome (events_on ws acts) = true)
      else acts = []
    else if flushes E m session_id then
      exists data turn n,
        b64decode E (default "" (audio_data m)) = Returned data /\
        turn = added (process_complete_audio E (audio_chunks s ++ [data]) connection_id
                        (default "" session_id))
                 (set_audio_chunks (audio_chunks s ++ [data]) s) /\
        acts = turn ++ [Sent ws (audio_chunk_received n true)] /\
        (events_on ws turn = [] \/ one_outcome (events_on ws turn) = true)
    else if bool_decide (msg_type m = Some "text_message") && include_audio m then
      (exists t, events_on ws acts = [error t None]) \/
      (exists reply rest, events_on ws acts = text_response reply :: rest)
    else
      exists e, events_on ws acts = [e] /\ kind_of e ∈ answers (msg_type m).
Proof.
  intros Hlive. unfold round, dispatch, flushes, answers.
  destruct (bool_decide (msg_type m = Some "initialize_session")) eqn:Hinit.
  { apply bool_decide_eq_true in Hinit. rewrite Hinit. simpl.
    unfold bind at 1, create_session.
    destruct (SessionManager.create_session (session_draw E) (db s)) as [[new_id|e] d].
    - unfold bind, modify. simpl.
      rewrite (send_message_live E connection_id ws) by exact Hlive. simpl.
      exists [Sent ws (session_initialized new_id)]. split; [reflexivity|].
      one_event. eexists. split; [reflexivity|]. left.
    - simpl. unfold close_on_error, bind, modify.
      rewrite (send_message_live E connection_id ws) by exact Hlive. simpl.
      exists [Sent ws (error (str e) None)]. split; [reflexivity|].
      one_event. eexists. split; [reflexivity|]. right; left. }
  destruct (bool_decide (msg_type m = Some "audio_chunk")) eqn:Hchunk.
  { apply bool_decide_eq_true in Hchunk.
    replace (bool_decide (msg_type m = Some "end_audio")) with false
      by (rewrite Hchunk; reflexivity).
    replace (bool_decide (msg_type m = Some "text_message")) with false
      by (rewrite Hchunk; reflexivity).
    destruct (handle_audio_chunk_run m session_id s Hlive)
      as (acts & d & chunks' & Hrun & Hcases).
    unfold bind. rewrite Hrun. simpl. exists acts. split; [reflexivity|].
    destruct Hcases
      as [(Hdata & _ & _ & ->)|[(Hdata & _ & _ & e & He & ->)|(Hdata & data & Hd & H)]].
    - rewrite Hdata. one_event. eexists. split; [reflexivity|]. right; left.
    - rewrite Hdata, He. one_event. eexists. split; [reflexivity|]. right; left.
    - rewrite Hdata, Hd. simpl.
      destruct (is_final m) eqn:Hfinal, (truthy_opt session_id) eqn:Hbound; simpl in *.
      + destruct H as (_ & turn & Hadded & Hturn & ->).
        split.
        { apply on_socket_sent, Forall_app.
          split; [apply turn_trace_on_socket, Hturn|repeat constructor]. }
        exists data, turn, 0%nat. repeat split; try assumption.
        apply turn_trace_events, Hturn.
      + destruct H as (_ & _ & ->). one_event. eexists. split; [reflexivity|]. left.
      + destruct H as (_ & _ & ->). one_event. eexists. split; [reflexivity|]. left.
      + destruct H as (_ & _ & ->). one_event. eexists. split; [reflexivity|]. left. }
  rewrite !andb_false_l.
  destruct (bool_decide (msg_type m = Some "text_message")) eqn:Htext.
  { apply bool_decide_eq_true in Htext.
    replace (bool_decide (msg_type m = Some "end_audio")) with false
      by (rewrite Htext; reflexivity).
    destruct (handle_text_message_run m session_id s Hlive) as (acts & d & Hrun & Hcases).
    unfold bind. rewrite Hrun. simpl. exists acts. split; [reflexivity|].
    destruct Hcases as [(t & ->)|[(t & ->)|[(reply & Hno & ->)|(reply & t & Hyes & ->)]]];
      one_event.
    - destruct (include_audio m); [left; eauto|].
      eexists. split; [reflexivity|]. right; left.
    - destruct (include_audio m); [left; eauto|].
      eexists. split; [reflexivity|]. right; left.
    - rewrite Hno. eexists. split; [reflexivity|]. left.
    - rewrite Hyes. right. eauto. }
  simpl.
  destruct (bool_decide (msg_type m = Some "end_audio")) eqn:Hend.
  { unfold bind at 1, gets.
    destruct (negb (bool_decide (audio_chunks s = [])) && truthy_opt session_id) eqn:Hflush.
    - destruct (process_complete_audio_turn (audio_chunks s) (default "" session_id) s Hlive)
        as (acts & d & Hrun & Hadded & Hturn & Hjoin).
      unfold bind, modify. rewrite Hrun. simpl. exists acts. split; [reflexivity|].
      split; [apply on_socket_sent, turn_trace_on_socket, Hturn|].
      split; [exact Hadded|]. split; [|apply turn_trace_events, Hturn].
      split.
      + intros Hnil. apply Hjoin.
        destruct Hturn as [->|(progress & t & c & Hp & ->)]; [reflexivity|].
        rewrite events_on_app, events_on_sent in Hnil.
        apply app_eq_nil in Hnil as [_ Hnil]. discriminate.
      + intros H. apply Hjoin in H as ->. reflexivity.
    - unfold bind, ret, modify. simpl. exists []. rewrite app_nil_r.
      split; [reflexivity|]. split; reflexivity. }
  destruct (bool_decide (msg_type m = Some "ping")).
  { unfold bind. rewrite (send_message_live E connection_id ws) by exact Hlive. simpl.
    exists [Sent ws pong]. split; [reflexivity|]. one_event.
    eexists. split; [reflexivity|]. left. }
  unfold bind. rewrite (send_message_live E connection_id ws) by exact Hlive. simpl.
  eexists [Sent ws (error _ None)]. split; [reflexivity|]. one_event.
  eexists. split; [reflexivity|]. left.
Qed.

End Rounds.

Lemma connected_is_live :
  Protocol.live (Sample.healthy "s1" "m1" "m2" 100) "c" 7%nat Sample.connected.
Proof. split; reflexivity. Qed.

Lemma round_outcome_witness :
  exists acts,
    WebSocket.trace
      (snd (WebSocket.round (Sample.healthy "s1" "m1" "m2" 100) (Sample.bare "ping")
              "c" None Sample.connected))
    = WebSocket.trace Sample.connected ++ acts /\
    Effects.sent acts = map (pair 7%nat) (WebSocket.events_on 7%nat acts) /\
    exists e, WebSocket.events_on 7%nat acts = [e] /\
              Protocol.kind_of e ∈ Protocol.answers (Some "ping").
Proof.
  exact (round_outcome (Sample.healthy "s1" "m1" "m2" 100) "c" 7%nat
           (Sample.bare "ping") None Sample.connected connected_is_live).
Defined.

(** C2 as stated fails.  [end_audio] on a connection without session is
    answered by no event at all.  A final audio chunk on a bound session is
    answered by two outcomes, that of the turn and an acknowledgement.  And
    once a second socket has connected under the connection id of a first,
    the answer to a message of the first goes to the second. *)
Lemma end_audio_silent_and_final_chunk_double :
  WebSocket.events_on 7%nat
    (WebSocket.trace
       (snd (WebSocket.round (Sample.healthy "s1" "m1" "m2" 100) Sample.end_audio
               "c" None Sample.connected)))
  = [] /\
  Protocol.one_outcome [] = false /\
  map Protocol.kind_of
    (WebSocket.events_on 7%nat
       (drop (length (WebSocket.trace Sample.bound))
          (WebSocket.trace
             (snd (WebSocket.round (Sample.healthy "s2" "m3" "m4" 200)
                     (Sample.audio_chunk true) "c" (Some "s1") Sample.bound)))))
  = [Protocol.TranscriptionStarted; Protocol.TranscriptionCompleted;
     Protocol.ResponseGenerationStarted; Protocol.TextResponse;
     Protocol.AudioGenerationStarted; Protocol.Error; Protocol.AudioChunkReceived] /\
  Protocol.one_outcome
    (take 6
       (WebSocket.events_on 7%nat
          (drop (length (WebSocket.trace Sample.bound))
             (WebSocket.trace
                (snd (WebSocket.round (Sample.healthy "s2" "m3" "m4" 200)
                        (Sample.audio_chunk true) "c" (Some "s1") Sample.bound))))))
  = true /\
  Protocol.ack_reply
    (drop 6
       (WebSocket.events_on 7%nat
          (drop (length (WebSocket.trace Sample.bound))
             (WebSocket.trace
                (snd (WebSocket.round (Sample.healthy "s2" "m3" "m4" 200)
                        (Sample.audio_chunk true) "c" (Some "s1") Sample.bound))))))
  = true /\
  Effects.sent
    (WebSocket.trace
       (snd (WebSocket.round (Sample.healthy "s1" "m1" "m2" 100) (Sample.bare "ping")
               "c" None
               (WebSocket.set_manager
                  (WebSocket.connect 8%nat "c" (WebSocket.manager Sample.connected))
                  Sample.connected))))
  = [(8%nat, WebSocket.pong)].
Proof. vm_compute. repeat split; reflexivity. Qed.

(** ** Acknowledgement of audio chunks *)

Section Acknowledgements.
Import Py Exceptions Config WebSocket Protocol.

Variable connection_id : string.
Variable ws : websocket.

Lemma chunk_numbers_app (a b : list event) :
  chunk_numbers (a ++ b) = chunk_numbers a ++ chunk_numbers b.
Proof. unfold chunk_numbers. apply omap_app. Qed.


(** A streaming audio turn acknowledges nothing. *)
Lemma turn_trace_no_ack (turn : list action) :
  turn_trace ws turn -> chunk_numbers (events_on ws turn) = [].
Proof.
  intros [->|(progress & t & c & Hp & ->)]; [reflexivity|].
  rewrite (events_on_app ws), chunk_numbers_app, (events_on_sent ws).
  destruct Hp; repeat (rewrite (events_on_sent ws) || rewrite (events_on_invoked ws));
    reflexivity.
Qed.



(** The acknowledgement of a final chunk on a bound session carries the
    chunk number 0, however many chunks were accumulated and flushed:
    [handle_audio_chunk] takes [len(audio_chunks)] after
    [audio_chunks.clear()]. *)
Theorem final_chunk_acknowledged_with_zero (E : env) (m : message_data)
    (session_id : option string) (s : state) :
  live E connection_id ws s ->
  msg_type m = Some "audio_chunk" ->
  flushes E m session_id = true ->
  exists acts,
    trace (snd (round E m connection_id session_id s)) = trace s ++ acts /\
    chunk_numbers (events_on ws acts) = [0%nat] /\
    last (events_on ws acts) = Some (audio_chunk_received 0 true).
Proof.
  intros Hlive Htype Hflushes. unfold flushes in Hflushes.
  apply andb_prop in Hflushes as [Hflushes Hbound].
  apply andb_prop in Hflushes as [Hflushes Hfinal].
  apply andb_prop in Hflushes as [Hflushes Hdecode].
  apply andb_prop in Hflushes as [_ Hdata].
  unfold round, dispatch. rewrite Htype. simpl.
  destruct (handle_audio_chunk_run E connection_id ws m session_id s Hlive)
    as (acts & d & chunks' & Hrun & Hcases).
  unfold bind. rewrite Hrun. simpl. exists acts. split; [reflexivity|].
  destruct Hcases as [(H & _)|[(_ & _ & _ & e & He & _)|(_ & data & Hd & H)]].
  - congruence.
  - rewrite He in Hdecode. discriminate.
  - rewrite Hfinal, Hbound in H. destruct H as (_ & turn & _ & Hturn & ->).
    rewrite (events_on_app ws), chunk_numbers_app, (events_on_sent ws),
      (events_on_nil ws),
          (turn_trace_no_ack turn Hturn), last_snoc.
    split; reflexivity.
Qed.

End Acknowledgements.



Lemma accumulated_is_live :
  Protocol.live (Sample.healthy "s2" "m3" "m4" 200) "c" 7%nat
    (snd (WebSocket.round (Sample.healthy "s2" "m3" "m4" 200) (Sample.audio_chunk false)
            "c" (Some "s1") Sample.bound)).
Proof. split; reflexivity. Qed.

Lemma final_chunk_acknowledged_with_zero_witness :
  WebSocket.audio_chunks
    (snd (WebSocket.round (Sample.healthy "s2" "m3" "m4" 200) (Sample.audio_chunk false)
            "c" (Some "s1") Sample.bound))
  = [Sample.three_bytes] /\
  exists acts,
    WebSocket.trace
      (snd (WebSocket.round (Sample.healthy "s2" "m3" "m4" 200) (Sample.audio_chunk true)
              "c" (Some "s1")
              (snd (WebSocket.round (Sample.healthy "s2" "m3" "m4" 200)
                      (Sample.audio_chunk false) "c" (Some "s1") Sample.bound))))
    = WebSocket.trace
        (snd (WebSocket.round (Sample.healthy "s2" "m3" "m4" 200)
                (Sample.audio_chunk false) "c" (Some "s1") Sample.bound)) ++ acts /\
    Protocol.chunk_numbers (WebSocket.events_on 7%nat acts) = [0%nat] /\
    last (WebSocket.events_on 7%nat acts) = Some (WebSocket.audio_chunk_received 0 true).
Proof.
  split; [reflexivity|].
  apply (final_chunk_acknowledged_with_zero "c" 7%nat (Sample.healthy "s2" "m3" "m4" 200)
           (Sample.audio_chunk true) (Some "s1")).
  - exact accumulated_is_live.
  - reflexivity.
  - reflexivity.
Defined.

(** ** The connection registry: sessions and connections *)

Section RegistryFacts.
Import WebSocket Registry.

Lemma drop_step_lookup (c : string) (l : list (string * string))
    (acc : gmap string string) (s : string) :
  foldl (fun acc '(session_id, conn_id) =>
           if decide (conn_id = c) then delete session_id acc else acc) acc l !! s
  = if decide ((s, c) ∈ l) then None else acc !! s.
Proof.
  revert acc. induction l as [|[k v] l IH]; intros acc.
  - destruct (decide ((s, c) ∈ [])) as [H|_]; [inversion H|reflexivity].
  - change (foldl _ acc ((k, v) :: l))
      with (foldl (fun acc '(session_id, conn_id) =>
                     if decide (conn_id = c) then delete session_id acc else acc)
                  (if decide (v = c) then delete k acc else acc) l).
    rewrite IH.
    destruct (decide ((s, c) ∈ l)) as [Hin|Hout].
    + rewrite decide_True by (right; exact Hin). reflexivity.
    + destruct (decide (v = c)) as [->|Hv].
      * destruct (decide (k = s)) as [->|Hk].
        -- rewrite lookup_delete_eq, decide_True by left. reflexivity.
        -- rewrite lookup_delete_ne by exact Hk.
           rewrite decide_False; [reflexivity|].
           intros [H|H]%elem_of_cons; [congruence|contradiction].
      * rewrite decide_False; [reflexivity|].
        intros [H|H]%elem_of_cons; [congruence|contradiction].
Qed.

(** [disconnect] removes exactly the sessions mapped to the connection. *)
Lemma drop_sessions_of_lookup (c : string) (m : gmap string string) (s : string) :
  drop_sessions_of c m !! s =
  match m !! s with
  | Some c' => if decide (c' = c) then None else Some c'
  | None => None
  end.
Proof.
  unfold drop_sessions_of. rewrite drop_step_lookup.
  destruct (decide ((s, c) ∈ map_to_list m)) as [Hin|Hout].
  - apply elem_of_map_to_list in Hin. rewrite Hin, decide_True by reflexivity. reflexivity.
  - destruct (m !! s) as [c'|] eqn:Hs; [|reflexivity].
    destruct (decide (c' = c)) as [->|]; [|reflexivity].
    exfalso. apply Hout, elem_of_map_to_list, Hs.
Qed.

Lemma run_snoc (ops : list operation) (o : operation) :
  run (ops ++ [o]) = apply (run ops) o.
Proof. unfold run. apply foldl_snoc. Qed.

(** A list that ends in [o] and holds [x] ends in [x], or holds [x] before
    its last element. *)
Lemma snoc_split {A} (l before after : list A) (o x : A) :
  l ++ [o] = before ++ x :: after ->
  (after = [] /\ x = o /\ before = l) \/
  (exists after', after = after' ++ [o] /\ l = before ++ x :: after').
Proof.
  destruct after as [|y after _] using rev_ind.
  - intros H. apply app_inj_tail in H as [-> ->]. left. auto.
  - intros H. right. exists after.
    rewrite app_comm_cons, app_assoc in H.
    apply app_inj_tail in H as [-> ->]. auto.
Qed.

(** The sessions that reference a connection are the entries of the table
    that name it. *)
Lemma elem_of_sessions_of (c s : string) (M : WebSocketManager) :
  s ∈ sessions_of c M <-> get_connection_by_session s M = Some c.
Proof.
  unfold sessions_of, get_connection_by_session.
  rewrite list_elem_of_In, in_map_iff. split.
  - intros ([s' c'] & <- & Hin). apply List.filter_In in Hin as [Hin Hc].
    apply String.eqb_eq in Hc as ->. apply list_elem_of_In, elem_of_map_to_list in Hin.
    exact Hin.
  - intros Hs. exists (s, c). split; [reflexivity|]. apply List.filter_In.
    split; [apply list_elem_of_In, elem_of_map_to_list, Hs|apply String.eqb_refl].
Qed.

(** The table entry of a session: the connection that initialised it last,
    unless that connection has disconnected since. *)
Lemma session_entry (ops : list operation) (s c : string) :
  get_connection_by_session s (run ops) = Some c <->
  exists before after,
    ops = before ++ InitializeSession c s :: after /\ Forall (leaves c s) after.
Proof.
  unfold get_connection_by_session.
  induction ops as [|o ops IH] using rev_ind.
  { split; [discriminate|]. intros (before & after & H & _).
    destruct before; discriminate. }
  rewrite run_snoc.
  assert ((exists before after,
             ops ++ [o] = before ++ InitializeSession c s :: after /\
             Forall (leaves c s) after) <->
          (o = InitializeSession c s \/
           (leaves c s o /\ session_connections (run ops) !! s = Some c))) as ->.
  { rewrite IH. split.
    - intros (before & after & Hsplit & Hafter).
      apply snoc_split in Hsplit as [(-> & <- & ->)|(after' & -> & ->)]; [left; reflexivity|].
      apply Forall_app in Hafter as [Hafter Ho]. apply Forall_cons in Ho as [Ho _].
      right. split; [exact Ho|]. eauto.
    - intros [->|(Ho & before & after & -> & Hafter)].
      + exists ops, []. split; [reflexivity|constructor].
      + exists before, (after ++ [o]). split; [rewrite <- app_assoc; reflexivity|].
        apply Forall_app. split; [exact Hafter|repeat constructor; exact Ho]. }
  destruct o as [w c'|c' s'|c']; simpl.
  - split; [intros H; right; split; [exact I|exact H]|].
    intros [H|[_ H]]; [discriminate|exact H].
  - destruct (decide (s' = s)) as [->|Hne].
    + rewrite lookup_insert_eq. split; [intros [= ->]; left; reflexivity|].
      intros [[= ->]|[H _]]; [reflexivity|contradiction].
    + rewrite lookup_insert_ne by exact Hne. split; [intros H; right; split; assumption|].
      intros [[= _ H]|[_ H]]; [congruence|exact H].
  - rewrite drop_sessions_of_lookup.
    destruct (session_connections (run ops) !! s) as [c0|].
    + destruct (decide (c0 = c')) as [->|Hne].
      * split; [discriminate|]. intros [H|[H [= ->]]]; [discriminate|contradiction].
      * split; [intros [= ->]; right; split; [congruence|reflexivity]|].
        intros [H|[_ H]]; [discriminate|exact H].
    + split; [discriminate|]. intros [H|[_ H]]; discriminate.
Qed.

(** Every entry of the session table was put there by an
    [initialize_session] of the connection it names. *)
Lemma mapped_sessions_were_initialized (ops : list operation) (s c : string) :
  get_connection_by_session s (run ops) = Some c -> InitializeSession c s ∈ ops.
Proof.
  intros (before & after & -> & _)%session_entry.
  apply elem_of_app. right. left.
Qed.

Lemma two_matches {A} (p : A -> bool) (l : list A) (x y : A) :
  x ∈ l -> y ∈ l -> x <> y -> p x = true -> p y = true ->
  (2 <= length (List.filter p l))%nat.
Proof.
  intros Hx Hy Hne Hpx Hpy. induction l as [|a l IH]; [inversion Hx|].
  assert (forall z, z ∈ l -> p z = true -> (1 <= length (List.filter p l))%nat) as Hone.
  { intros z Hz Hpz. apply list_elem_of_In in Hz.
    assert (In z (List.filter p l)) as Hin by (apply List.filter_In; auto).
    destruct (List.filter p l); [contradiction|simpl; lia]. }
  simpl. apply elem_of_cons in Hx as [->|Hx], Hy as [->|Hy].
  - contradiction.
  - rewrite Hpx. simpl. specialize (Hone y Hy Hpy). lia.
  - rewrite Hpy. simpl. specialize (Hone x Hx Hpx). lia.
  - specialize (IH Hx Hy). destruct (p a); simpl; lia.
Qed.

Lemma filter_permutation {A} (p : A -> bool) (l l' : list A) :
  l ≡ₚ l' -> List.filter p l ≡ₚ List.filter p l'.
Proof.
  induction 1 as [|x l l' _ IH|x y l|l l' l'' _ IH1 _ IH2]; simpl.
  - reflexivity.
  - destruct (p x); [constructor|]; exact IH.
  - destruct (p x), (p y); try reflexivity. apply Permutation_swap.
  - etransitivity; eassumption.
Qed.

Lemma sessions_of_insert (c s : string) (M : WebSocketManager) :
  session_connections M !! s = None ->
  sessions_of c (associate_session s c M) ≡ₚ s :: sessions_of c M.
Proof.
  intros Hnew. unfold sessions_of, associate_session. simpl.
  etransitivity.
  - apply Permutation_map, filter_permutation, (map_to_list_insert _ _ _ Hnew).
  - simpl. rewrite String.eqb_refl. reflexivity.
Qed.

(** C4, as amended, over every state of the registry that connects,
    session initialisations and disconnects lead to.  A session references
    the connection that initialised it last, and that only until the
    connection disconnects; so it references at most one connection.  A
    connection that has initialised at most one session is referenced by at
    most one; an initialisation of a session not yet in the table adds that
    session to those that reference the connection; and once a connection
    has disconnected no session references it. *)
Theorem registry_session_mapping (ops : list operation) :
  (forall s c,
     s ∈ sessions_of c (run ops) <->
     exists before after,
       ops = before ++ InitializeSession c s :: after /\ Forall (leaves c s) after) /\
  (forall s c1 c2,
     s ∈ sessions_of c1 (run ops) -> s ∈ sessions_of c2 (run ops) -> c1 = c2) /\
  (forall c, (initializations c ops <= 1)%nat ->
     forall s1 s2,
       s1 ∈ sessions_of c (run ops) -> s2 ∈ sessions_of c (run ops) -> s1 = s2) /\
  (forall c s,
     get_connection_by_session s (run ops) = None ->
     sessions_of c (run (ops ++ [InitializeSession c s])) ≡ₚ s :: sessions_of c (run ops)) /\
  (forall c, sessions_of c (run (ops ++ [Disconnected c])) = []).
Proof.
  split; [|split; [|split; [|split]]].
  - intros s c. rewrite elem_of_sessions_of. apply session_entry.
  - intros s c1 c2 H1%elem_of_sessions_of H2%elem_of_sessions_of. congruence.
  - intros c Hcount s1 s2 H1%elem_of_sessions_of H2%elem_of_sessions_of.
    apply mapped_sessions_were_initialized in H1, H2.
    destruct (decide (s1 = s2)) as [|Hne]; [assumption|]. exfalso.
    assert (InitializeSession c s1 <> InitializeSession c s2) as Hdiff by congruence.
    pose proof (two_matches
                  (fun o => match o with
                            | InitializeSession c' _ => String.eqb c' c
                            | _ => false
                            end) ops _ _ H1 H2 Hdiff) as Htwo.
    simpl in Htwo. rewrite String.eqb_refl in Htwo. specialize (Htwo eq_refl eq_refl).
    unfold initializations in Hcount. lia.
  - intros c s Hnew. rewrite run_snoc. apply sessions_of_insert, Hnew.
  - intros c. rewrite run_snoc.
    destruct (sessions_of c (apply (run ops) (Disconnected c))) as [|s l] eqn:Hl;
      [reflexivity|exfalso].
    assert (s ∈ sessions_of c (apply (run ops) (Disconnected c))) as Hs
      by (rewrite Hl; left).
    apply elem_of_sessions_of in Hs. unfold get_connection_by_session in Hs. simpl in Hs.
    rewrite drop_sessions_of_lookup in Hs.
    destruct (session_connections (run ops) !! s) as [c0|]; [|discriminate].
    destruct (decide (c0 = c)); [discriminate|congruence].
Qed.

End RegistryFacts.

Lemma registry_session_mapping_witness :
  Registry.sessions_of "c"
    (Registry.run [Registry.Connect 7%nat "c"; Registry.InitializeSession "c" "s1";
                   Registry.InitializeSession "c" "s2"])
  ≡ₚ "s2" :: Registry.sessions_of "c"
               (Registry.run [Registry.Connect 7%nat "c";
                              Registry.InitializeSession "c" "s1"]) /\
  Registry.sessions_of "c"
    (Registry.run [Registry.Connect 7%nat "c"; Registry.InitializeSession "c" "s1";
                   Registry.Disconnected "c"]) = [].
Proof.
  split.
  - apply (proj1 (proj2 (proj2 (proj2
             (registry_session_mapping
                [Registry.Connect 7%nat "c"; Registry.InitializeSession "c" "s1"]))))
             "c" "s2").
    reflexivity.
  - apply (proj2 (proj2 (proj2 (proj2
             (registry_session_mapping
                [Registry.Connect 7%nat "c"; Registry.InitializeSession "c" "s1"]))))
             "c").
Defined.

(** C4 as stated fails: a connection that sends [initialize_session] twice
    is referenced by both sessions. *)
Lemma connection_mapped_to_two_sessions :
  WebSocket.get_connection_by_session "s1"
    (WebSocket.manager
       (snd (WebSocket.websocket_endpoint 7%nat "c"
               [WebSocket.Message (Sample.healthy "s1" "m1" "m2" 100) Sample.initialize_session;
                WebSocket.Message (Sample.healthy "s2" "m3" "m4" 200) Sample.initialize_session]
               Sample.fresh)))
  = Some "c" /\
  WebSocket.get_connection_by_session "s2"
    (WebSocket.manager
       (snd (WebSocket.websocket_endpoint 7%nat "c"
               [WebSocket.Message (Sample.healthy "s1" "m1" "m2" 100) Sample.initialize_session;
                WebSocket.Message (Sample.healthy "s2" "m3" "m4" 200) Sample.initialize_session]
               Sample.fresh)))
  = Some "c" /\
  WebSocket.manager
    (snd (WebSocket.websocket_endpoint 7%nat "c"
            [WebSocket.Message (Sample.healthy "s1" "m1" "m2" 100) Sample.initialize_session;
             WebSocket.Message (Sample.healthy "s2" "m3" "m4" 200) Sample.initialize_session]
            Sample.fresh))
  = Registry.run [Registry.Connect 7%nat "c"; Registry.InitializeSession "c" "s1";
                  Registry.InitializeSession "c" "s2"].
Proof. vm_compute. repeat split; reflexivity. Qed.

(** ** The reply handed to synthesis *)

Section PairReply.
Import Py Exceptions Config WebSocket Protocol.

Variable E : env.
Variable connection_id : string.
Variable ws : websocket.

(** A streaming audio turn on non-empty audio never reaches
    [audio_response] or [interaction_completed]: the handlers pass the pair
    returned by [generate_response] on to [synthesize_speech], which fails
    on it, so even with every engine answering the turn ends in an error
    event after [audio_generation_started]. *)
Theorem streaming_turn_never_completes
    (chunks : list bytes) (session_id : string) (s : state) :
  live E connection_id ws s ->
  join chunks <> [] ->
  exists progress m c,
    turn_progress ws progress /\
    trace (snd (process_complete_audio E chunks connection_id session_id s))
    = trace s ++ progress ++ [Sent ws (error m (Some c))] /\
    forallb (fun e => match kind_of e with
                      | AudioResponse | InteractionCompleted => false
                      | _ => true
                      end)
      (events_on ws (progress ++ [Sent ws (error m (Some c))])) = true.
Proof.
  intros Hlive Hjoin.
  destruct (process_complete_audio_run E connection_id ws chunks session_id s Hlive)
    as (acts & d & Hrun & [(Hnil & _)|(_ & _ & progress & m & c & Hp & ->)]);
    [contradiction|].
  exists progress, m, c. rewrite Hrun. split; [exact Hp|]. split; [reflexivity|].
  rewrite (events_on_app ws), (events_on_sent ws).
  destruct Hp; repeat (rewrite (events_on_sent ws) || rewrite (events_on_invoked ws));
    reflexivity.
Qed.

(** A text message that asks for audio never gets an [audio_response]: the
    reply is an error event, preceded by the [text_response] when
    generation succeeded. *)
Theorem text_message_audio_never_delivered
    (m : message_data) (session_id : option string) (s : state) :
  live E connection_id ws s ->
  include_audio m = true ->
  exists acts,
    trace (snd (handle_text_message E m connection_id session_id s)) = trace s ++ acts /\
    ((exists t, events_on ws acts = [error t None]) \/
     (exists reply t, events_on ws acts = [text_response reply; error t None])).
Proof.
  intros Hlive Haudio.
  destruct (handle_text_message_run E connection_id ws m session_id s Hlive)
    as (acts & d & Hrun & Hcases).
  exists acts. rewrite Hrun. split; [reflexivity|].
  destruct Hcases as [(t & ->)|[(t & ->)|[(reply & Hno & _)|(reply & t & _ & ->)]]];
    repeat (rewrite (events_on_sent ws) || rewrite (events_on_invoked ws)).
  - left. eauto.
  - left. eauto.
  - congruence.
  - right. eauto.
Qed.

End PairReply.

Lemma streaming_turn_never_completes_witness :
  exists progress m c,
    Protocol.turn_progress 7%nat progress /\
    WebSocket.trace
      (snd (WebSocket.process_complete_audio (Sample.healthy "s2" "m3" "m4" 200)
              [Sample.three_bytes] "c" "s1" Sample.bound))
    = WebSocket.trace Sample.bound
      ++ progress ++ [WebSocket.Sent 7%nat (WebSocket.error m (Some c))] /\
    forallb (fun e => match Protocol.kind_of e with
                      | Protocol.AudioResponse | Protocol.InteractionCompleted => false
                      | _ => true
                      end)
      (WebSocket.events_on 7%nat
         (progress ++ [WebSocket.Sent 7%nat (WebSocket.error m (Some c))])) = true.
Proof.
  apply (streaming_turn_never_completes (Sample.healthy "s2" "m3" "m4" 200) "c" 7%nat
           [Sample.three_bytes] "s1" Sample.bound bound_is_live).
  discriminate.
Defined.

Lemma text_message_audio_never_delivered_witness :
  exists acts,
    WebSocket.trace
      (snd (WebSocket.handle_text_message (Sample.healthy "s2" "m3" "m4" 200)
              Sample.spoken_hello "c" (Some "s1") Sample.bound))
    = WebSocket.trace Sample.bound ++ acts /\
    ((exists t, WebSocket.events_on 7%nat acts = [WebSocket.error t None]) \/
     (exists reply t,
        WebSocket.events_on 7%nat acts
        = [WebSocket.text_response reply; WebSocket.error t None])).
Proof.
  apply (text_message_audio_never_delivered (Sample.healthy "s2" "m3" "m4" 200) "c" 7%nat
           Sample.spoken_hello (Some "s1") Sample.bound bound_is_live).
  reflexivity.
Defined.

(** ** The handlers change the registry only through its operations *)

Section RegistrySteps.
Import Py Exceptions Config WebSocket Registry.

Variable E : env.
Variable c : string.

Lemma steps_unchanged {A} (k : io A) :
  (forall s, manager (snd (k s)) = manager s) -> registry_steps c k.
Proof. intros H s. exists []. split; [constructor|apply H]. Qed.

Lemma steps_bind {A B} (k : io A) (f : A -> io B) :
  registry_steps c k -> (forall a, registry_steps c (f a)) -> registry_steps c (bind k f).
Proof.
  intros Hk Hf s. destruct (Hk s) as (ops1 & Hown1 & H1). unfold bind.
  destruct (k s) as [[a|e] s1]; simpl in *.
  - destruct (Hf a s1) as (ops2 & Hown2 & H2). exists (ops1 ++ ops2).
    split; [apply Forall_app; split; assumption|].
    rewrite H2, H1, foldl_app. reflexivity.
  - exists ops1. split; assumption.
Qed.

Lemma steps_try {A} (k : io A) (h : exception -> io A) :
  registry_steps c k -> (forall e, registry_steps c (h e)) ->
  registry_steps c (try_except k h).
Proof.
  intros Hk Hh s. destruct (Hk s) as (ops1 & Hown1 & H1). unfold try_except.
  destruct (k s) as [[a|e] s1]; simpl in *.
  - exists ops1. split; assumption.
  - destruct (Hh e s1) as (ops2 & Hown2 & H2). exists (ops1 ++ ops2).
    split; [apply Forall_app; split; assumption|].
    rewrite H2, H1, foldl_app. reflexivity.
Qed.

Lemma steps_send (ev : event) : registry_steps c (send_message E c ev).
Proof.
  intros s. unfold send_message.
  destruct (active_connections (manager s) !! c) as [w|]; [|exists []; split; [constructor|reflexivity]].
  destruct (peer_gone E w).
  - exists [Disconnected c]. split; [repeat constructor|reflexivity].
  - exists []. split; [constructor|reflexivity].
Qed.

Lemma steps_ret {A} (a : A) : registry_steps c (ret a).
Proof. apply steps_unchanged. reflexivity. Qed.

Lemma steps_await {A} (r : result A) : registry_steps c (await r).
Proof. apply steps_unchanged. reflexivity. Qed.

Lemma steps_gets {A} (f : state -> A) : registry_steps c (gets f).
Proof. apply steps_unchanged. reflexivity. Qed.

Lemma steps_record (a : action) : registry_steps c (modify (record a)).
Proof. apply steps_unchanged. reflexivity. Qed.

Lemma steps_set_audio_chunks (f : state -> list bytes) :
  registry_steps c (modify (fun s => set_audio_chunks (f s) s)).
Proof. apply steps_unchanged. reflexivity. Qed.

Lemma steps_invoke {A} (p : port) (r : result A) : registry_steps c (invoke p r).
Proof. apply steps_bind; [apply steps_record|intros; apply steps_await]. Qed.

Lemma steps_create_session : registry_steps c (create_session E).
Proof.
  apply steps_unchanged. intros s. unfold create_session.
  destruct (SessionManager.create_session _ _). reflexivity.
Qed.

Lemma steps_generate_response (message sid : string) :
  registry_steps c (generate_response E message sid).
Proof.
  apply steps_bind; [apply steps_record|]. intros _.
  apply steps_unchanged. intros s.
  destruct (ChatService.generate_response _ _ _ _ _ _ _). reflexivity.
Qed.

Lemma steps_disconnect :
  registry_steps c (modify (fun s => set_manager (disconnect c (manager s)) s)).
Proof. intros s. exists [Disconnected c]. split; [repeat constructor|reflexivity]. Qed.

Lemma steps_associate (sid : string) :
  registry_steps c (modify (fun s => set_manager (associate_session sid c (manager s)) s)).
Proof. intros s. exists [InitializeSession c sid]. split; [repeat constructor|reflexivity]. Qed.

Create HintDb steps.
#[local] Hint Resolve steps_send steps_ret steps_await steps_gets steps_record
  steps_set_audio_chunks steps_invoke steps_create_session steps_generate_response
  steps_disconnect steps_associate : steps.

Ltac steps :=
  repeat first
    [ solve [auto with steps]
    | apply steps_bind; [|intros ?]
    | apply steps_try; [|intros ?]
    | match goal with
      | |- registry_steps _ (if ?b then _ else _) => destruct b
      | |- registry_steps _ (match ?e with Agent _ => _ | _ => _ end) => destruct e
      | |- registry_steps _ (match ?l with [] => _ | _ :: _ => _ end) => destruct l
      | |- registry_steps _ (let _ := _ in _) => cbv zeta
      end ].

Lemma steps_process_complete_audio (chunks : list bytes) (sid : string) :
  registry_steps c (process_complete_audio E chunks c sid).
Proof.
  unfold process_complete_audio, process_complete_audio_body, report_turn_error. steps.
Qed.

#[local] Hint Resolve steps_process_complete_audio : steps.

Lemma steps_handle_audio_chunk (m : message_data) (sid : option string) :
  registry_steps c (handle_audio_chunk E m c sid).
Proof.
  unfold handle_audio_chunk. steps.
  all: apply (steps_set_audio_chunks (fun _ => [])).
Qed.

Lemma steps_handle_text_message (m : message_data) (sid : option string) :
  registry_steps c (handle_text_message E m c sid).
Proof. unfold handle_text_message. steps. Qed.

#[local] Hint Resolve steps_handle_audio_chunk steps_handle_text_message : steps.

Lemma steps_dispatch (m : message_data) (sid : option string) :
  registry_steps c (dispatch E m c sid).
Proof.
  unfold dispatch. steps.
  all: apply (steps_set_audio_chunks (fun _ => [])).
Qed.

Lemma steps_close_on_error (e : exception) : registry_steps c (close_on_error E c e).
Proof. unfold close_on_error. steps. Qed.

(** Whatever the message and whatever the peer does, one round of the
    receive loop takes the registry from one state to the next by session
    initialisations and disconnects of its own connection. *)
Lemma round_applies_operations (m : message_data) (sid : option string) (s : state) :
  exists ops,
    own c ops /\ manager (snd (round E m c sid s)) = foldl apply (manager s) ops.
Proof.
  unfold round. destruct (steps_dispatch m sid s) as (ops1 & Hown1 & H1).
  destruct (dispatch E m c sid s) as [[sid'|e] s1]; simpl in *.
  - exists ops1. split; assumption.
  - destruct (steps_close_on_error e s1) as (ops2 & Hown2 & H2). exists (ops1 ++ ops2).
    split; [apply Forall_app; split; assumption|].
    rewrite H2, H1, foldl_app. reflexivity.
Qed.

End RegistrySteps.

Lemma receive_loop_applies_operations (c : string) (frames : list WebSocket.frame)
    (sid : option string) (s : WebSocket.state) :
  exists ops,
    Registry.own c ops /\
    WebSocket.manager (snd (WebSocket.receive_loop frames c sid s))
    = foldl Registry.apply (WebSocket.manager s) ops.
Proof.
  revert sid s. induction frames as [|f frames IH]; intros sid s.
  - exists []. split; [constructor|reflexivity].
  - destruct f as [E m|E reason|]; simpl.
    + destruct (round_applies_operations E c m sid s) as (ops1 & Hown1 & H1).
      destruct (WebSocket.round E m c sid s) as [[sid'|] s1]; simpl in H1.
      * destruct (IH sid' s1) as (ops2 & Hown2 & H2). exists (ops1 ++ ops2).
        split; [apply Forall_app; split; assumption|].
        rewrite H2, H1, foldl_app. reflexivity.
      * exists ops1. split; assumption.
    + apply (steps_close_on_error E c (Exceptions.OtherError reason) s).
    + exists [Registry.Disconnected c]. split; [repeat constructor|reflexivity].
Qed.

(** Whatever frames arrive and whatever the engines, the database and the
    peer do, [websocket_endpoint] changes the registry only by registering
    its own connection and then by session initialisations and disconnects
    of that connection: it never registers, unregisters or rebinds on
    behalf of another connection. *)
Lemma endpoint_applies_operations (ws : WebSocket.websocket) (c : string)
    (frames : list WebSocket.frame) (s : WebSocket.state) :
  exists ops,
    Registry.own c ops /\
    WebSocket.manager (snd (WebSocket.websocket_endpoint ws c frames s))
    = foldl Registry.apply (WebSocket.manager s) (Registry.Connect ws c :: ops).
Proof.
  unfold WebSocket.websocket_endpoint.
  destruct (receive_loop_applies_operations c frames None
              (WebSocket.set_audio_chunks []
                 (WebSocket.set_manager (WebSocket.connect ws c (WebSocket.manager s)) s)))
    as (ops & Hown & H).
  exists ops. split; [exact Hown|]. rewrite H. reflexivity.
Qed.

(** ** What [disconnect] removes *)

Section Disconnection.
Import WebSocket Registry.

(** [disconnect] unregisters the connection, deletes the sessions mapped to
    it and nothing else: every other connection stays registered and every
    session of another connection stays mapped. *)
Theorem disconnect_removes_exactly (c : string) (M : WebSocketManager) :
  active_connections (disconnect c M) !! c = None /\
  (forall c', c' <> c ->
     active_connections (disconnect c M) !! c' = active_connections M !! c') /\
  (forall s,
     get_connection_by_session s (disconnect c M) =
     match get_connection_by_session s M with
     | Some c' => if decide (c' = c) then None else Some c'
     | None => None
     end).
Proof.
  split; [apply lookup_delete_eq|]. split.
  - intros c' Hne. apply lookup_delete_ne. congruence.
  - intros s. apply drop_sessions_of_lookup.
Qed.

Lemma close_on_error_manager (E : env) (c : string) (e : Exceptions.exception) (s : state) :
  exists M, manager (snd (close_on_error E c e s)) = disconnect c M.
Proof.
  unfold close_on_error, bind, modify, send_message.
  destruct (active_connections (manager s) !! c) as [w|]; [destruct (peer_gone E w)|];
    simpl; eexists; reflexivity.
Qed.

Lemma receive_loop_returned (c : string) (frames : list frame) (sid : option string)
    (s : state) :
  fst (receive_loop frames c sid s) = None ->
  exists M, manager (snd (receive_loop frames c sid s)) = disconnect c M.
Proof.
  revert sid s. induction frames as [|f frames IH]; intros sid s; [discriminate|].
  destruct f as [E m|E reason|]; simpl.
  - unfold round. destruct (dispatch E m c sid s) as [[sid'|e] s1]; simpl.
    + apply IH.
    + intros _. apply close_on_error_manager.
  - intros _. apply close_on_error_manager.
  - intros _. eexists. reflexivity.
Qed.

(** Once [websocket_endpoint] has returned, on a disconnect, on text that
    is not JSON or on an exception of a handler, its connection is no
    longer registered and no session is mapped to it. *)
Theorem endpoint_return_unregisters (ws : websocket) (c : string)
    (frames : list frame) (s : state) :
  fst (websocket_endpoint ws c frames s) = None ->
  active_connections (manager (snd (websocket_endpoint ws c frames s))) !! c = None /\
  sessions_of c (manager (snd (websocket_endpoint ws c frames s))) = [].
Proof.
  unfold websocket_endpoint. intros Hret.
  destruct (receive_loop_returned _ _ _ _ Hret) as [M ->].
  split; [apply lookup_delete_eq|].
  unfold sessions_of.
  destruct (List.filter _ _) as [|[sid c'] rest] eqn:Hfilter; [reflexivity|exfalso].
  assert (In (sid, c') (List.filter (fun '(_, c') => String.eqb c' c)
            (map_to_list (session_connections (disconnect c M))))) as Hin
    by (rewrite Hfilter; left; reflexivity).
  apply List.filter_In in Hin as [Hin Hc]. apply String.eqb_eq in Hc as ->.
  apply list_elem_of_In, elem_of_map_to_list in Hin.
  simpl in Hin. rewrite drop_sessions_of_lookup in Hin.
  destruct (session_connections M !! sid) as [c0|]; [|discriminate].
  destruct (decide (c0 = c)); [discriminate|congruence].
Qed.

End Disconnection.

Lemma endpoint_return_unregisters_witness :
  WebSocket.active_connections
    (WebSocket.manager
       (snd (WebSocket.websocket_endpoint 7%nat "c"
               [WebSocket.Message (Sample.healthy "s1" "m1" "m2" 100) Sample.initialize_session;
                WebSocket.Disconnect] Sample.fresh))) !! "c" = None /\
  Registry.sessions_of "c"
    (WebSocket.manager
       (snd (WebSocket.websocket_endpoint 7%nat "c"
               [WebSocket.Message (Sample.healthy "s1" "m1" "m2" 100) Sample.initialize_session;
                WebSocket.Disconnect] Sample.fresh))) = [].
Proof.
  apply (endpoint_return_unregisters 7%nat "c"
           [WebSocket.Message (Sample.healthy "s1" "m1" "m2" 100) Sample.initialize_session;
            WebSocket.Disconnect] Sample.fresh).
  reflexivity.
Defined.

(** ** Effects of the handlers on the parts of the state *)

Section Keeping.
Import Exceptions WebSocket Effects.

Lemma keeps_bind {A B X} (p : state -> X) (k : io A) (f : A -> io B) :
  keeps p k -> (forall a, keeps p (f a)) -> keeps p (bind k f).
Proof.
  intros Hk Hf s. unfold bind. specialize (Hk s).
  destruct (k s) as [[a|e] s1]; simpl in *; [rewrite Hf|]; exact Hk.
Qed.

Lemma keeps_try {A X} (p : state -> X) (k : io A) (h : exception -> io A) :
  keeps p k -> (forall e, keeps p (h e)) -> keeps p (try_except k h).
Proof.
  intros Hk Hh s. unfold try_except. specialize (Hk s).
  destruct (k s) as [[a|e] s1]; simpl in *; [|rewrite Hh]; exact Hk.
Qed.

Lemma keeps_ret {A X} (p : state -> X) (a : A) : keeps p (ret a).
Proof. intros s. reflexivity. Qed.

Lemma keeps_await {A X} (p : state -> X) (r : result A) : keeps p (await r).
Proof. intros s. reflexivity. Qed.

Lemma keeps_gets {A X} (p : state -> X) (f : state -> A) : keeps p (gets f).
Proof. intros s. reflexivity. Qed.

End Keeping.

Ltac keep db :=
  repeat first
    [ solve [auto with db]
    | apply keeps_bind; [|intros ?]
    | apply keeps_try; [|intros ?]
    | match goal with
      | |- Effects.keeps _ (if ?b then _ else _) => destruct b
      | |- Effects.keeps _ (match ?e with Exceptions.Agent _ => _ | _ => _ end) => destruct e
      | |- Effects.keeps _ (match ?l with [] => _ | _ :: _ => _ end) => destruct l
      | |- Effects.keeps _ (let _ := _ in _) => cbv zeta
      end ].

Section Frames.
Import Py Exceptions Config WebSocket Effects.

Variable E : env.
Variable c : string.

(** The accumulator. *)

Lemma chunks_send (ev : event) : keeps audio_chunks (send_message E c ev).
Proof.
  intros s. unfold send_message.
  destruct (active_connections (manager s) !! c) as [w|]; [destruct (peer_gone E w)|];
    reflexivity.
Qed.

Lemma chunks_record (a : action) : keeps audio_chunks (modify (record a)).
Proof. intros s. reflexivity. Qed.

Lemma chunks_invoke {A} (p : port) (r : result A) : keeps audio_chunks (invoke p r).
Proof. apply keeps_bind; [apply chunks_record|intros; apply keeps_await]. Qed.

Lemma chunks_generate_response (message sid : string) :
  keeps audio_chunks (generate_response E message sid).
Proof.
  apply keeps_bind; [apply chunks_record|]. intros _ s.
  destruct (ChatService.generate_response _ _ _ _ _ _ _). reflexivity.
Qed.

Lemma chunks_create_session : keeps audio_chunks (create_session E).
Proof.
  intros s. unfold create_session.
  destruct (SessionManager.create_session _ _). reflexivity.
Qed.

Lemma chunks_set_manager (f : state -> WebSocketManager) :
  keeps audio_chunks (modify (fun s => set_manager (f s) s)).
Proof. intros s. reflexivity. Qed.

Create HintDb chunks.
#[local] Hint Resolve keeps_ret keeps_await keeps_gets chunks_send chunks_record
  chunks_invoke chunks_generate_response chunks_create_session chunks_set_manager : chunks.

Lemma chunks_process_complete_audio (chunks : list bytes) (sid : string) :
  keeps audio_chunks (process_complete_audio E chunks c sid).
Proof.
  unfold process_complete_audio, process_complete_audio_body, report_turn_error.
  keep chunks.
Qed.

Lemma chunks_handle_text_message (m : message_data) (sid : option string) :
  keeps audio_chunks (handle_text_message E m c sid).
Proof. unfold handle_text_message. keep chunks. Qed.

Lemma chunks_close_on_error (e : exception) : keeps audio_chunks (close_on_error E c e).
Proof. unfold close_on_error. keep chunks. Qed.

(** Never raising. *)

Lemma total_send (ev : event) : total (send_message E c ev).
Proof.
  intros s. unfold send_message.
  destruct (active_connections (manager s) !! c) as [w|]; [destruct (peer_gone E w)|];
    reflexivity.
Qed.

Lemma total_try {A} (k : io A) (h : exception -> io A) :
  (forall e, total (h e)) -> total (try_except k h).
Proof.
  intros Hh s. unfold try_except. destruct (k s) as [[a|e] s1]; [reflexivity|apply Hh].
Qed.

Lemma total_process_complete_audio (chunks : list bytes) (sid : string) :
  total (process_complete_audio E chunks c sid).
Proof.
  unfold process_complete_audio. destruct (join chunks); [intros s; reflexivity|].
  apply total_try. intros e. unfold report_turn_error. destruct e; apply total_send.
Qed.

Lemma total_handle_audio_chunk (m : message_data) (sid : option string) :
  total (handle_audio_chunk E m c sid).
Proof. apply total_try. intros e. apply total_send. Qed.

Lemma total_handle_text_message (m : message_data) (sid : option string) :
  total (handle_text_message E m c sid).
Proof. apply total_try. intros e. apply total_send. Qed.

(** A computation that never raises and keeps the accumulator, run to its
    end. *)
Lemma run_total_keeps {A} (k : io A) (s : state) :
  total k -> keeps audio_chunks k ->
  exists a s', k s = (Ok a, s') /\ audio_chunks s' = audio_chunks s.
Proof.
  intros Ht Hk. specialize (Ht s). specialize (Hk s).
  destruct (k s) as [[a|e] s']; [|discriminate]. eauto.
Qed.

Lemma try_handler_keeps {A X} (p : state -> X) (k : io A) (h : exception -> io A)
    (s : state) :
  (forall e, keeps p (h e)) -> p (snd (try_except k h s)) = p (snd (k s)).
Proof.
  intros Hh. unfold try_except. destruct (k s) as [[a|e] s1]; [reflexivity|apply Hh].
Qed.

Lemma handle_audio_chunk_chunks (m : message_data) (sid : option string) (s : state) :
  audio_chunks (snd (handle_audio_chunk E m c sid s)) =
  if truthy_opt (audio_data m) then
    match b64decode E (default "" (audio_data m)) with
    | Returned data =>
        if is_final m && truthy_opt sid then [] else audio_chunks s ++ [data]
    | _ => audio_chunks s
    end
  else audio_chunks s.
Proof.
  unfold handle_audio_chunk. rewrite (try_handler_keeps audio_chunks) by (intros; apply chunks_send).
  destruct (truthy_opt (audio_data m)); simpl; [|apply chunks_send].
  unfold bind at 1, await.
  destruct (b64decode E (default "" (audio_data m))) as [data|t|t status body]; simpl;
    [|reflexivity..].
  unfold bind at 1, modify.
  set (s1 := set_audio_chunks (audio_chunks s ++ [data]) s).
  destruct (is_final m && truthy_opt sid).
  - unfold bind at 1. unfold bind at 1, gets. unfold bind at 1.
    destruct (run_total_keeps (process_complete_audio E (audio_chunks s1) c (default "" sid))
                s1 (total_process_complete_audio _ _) (chunks_process_complete_audio _ _))
      as (u & s2 & -> & _).
    unfold bind, modify, gets. simpl. apply chunks_send.
  - unfold bind, ret, gets. simpl. apply (chunks_send _ s1).
Qed.

(** The accumulator after one round of the receive loop, whatever the
    state, the engines and the peer do: [end_audio] empties it; an
    [audio_chunk] whose payload decodes extends it by that payload, or
    empties it when the chunk is final and a session is bound; an
    [audio_chunk] without payload or with a payload that does not decode,
    and every other message, [initialize_session] included, leave it as it
    is. *)
Theorem accumulator_after_round (m : message_data) (sid : option string) (s : state) :
  audio_chunks (snd (round E m c sid s)) =
  if bool_decide (msg_type m = Some "end_audio") then []
  else if bool_decide (msg_type m = Some "audio_chunk") && truthy_opt (audio_data m) then
    match b64decode E (default "" (audio_data m)) with
    | Returned data =>
        if is_final m && truthy_opt sid then [] else audio_chunks s ++ [data]
    | _ => audio_chunks s
    end
  else audio_chunks s.
Proof.
  unfold round, dispatch.
  destruct (bool_decide (msg_type m = Some "initialize_session")) eqn:Hinit.
  { apply bool_decide_eq_true in Hinit. rewrite Hinit. simpl.
    match goal with
    | |- audio_chunks (snd (match ?k s with _ => _ end)) = _ =>
        assert (keeps audio_chunks k) as Hk by keep chunks;
        specialize (Hk s); destruct (k s) as [[sid'|e] s1]; simpl in *
    end.
    - exact Hk.
    - rewrite chunks_close_on_error. exact Hk. }
  destruct (bool_decide (msg_type m = Some "audio_chunk")) eqn:Hchunk.
  { apply bool_decide_eq_true in Hchunk.
    replace (bool_decide (msg_type m = Some "end_audio")) with false
      by (rewrite Hchunk; reflexivity).
    simpl. pose proof (handle_audio_chunk_chunks m sid s) as Hc.
    pose proof (total_handle_audio_chunk m sid s) as Ht.
    unfold bind, ret. destruct (handle_audio_chunk E m c sid s) as [[u|e] s1];
      [|discriminate].
    exact Hc. }
  destruct (bool_decide (msg_type m = Some "text_message")) eqn:Htext.
  { apply bool_decide_eq_true in Htext.
    replace (bool_decide (msg_type m = Some "end_audio")) with false
      by (rewrite Htext; reflexivity).
    simpl. pose proof (chunks_handle_text_message m sid s) as Hc.
    pose proof (total_handle_text_message m sid s) as Ht.
    unfold bind, ret. destruct (handle_text_message E m c sid s) as [[u|e] s1];
      [|discriminate].
    exact Hc. }
  simpl.
  destruct (bool_decide (msg_type m = Some "end_audio")) eqn:Hend.
  { unfold bind at 1, gets.
    destruct (negb (bool_decide (audio_chunks s = [])) && truthy_opt sid).
    - unfold bind at 1.
      destruct (run_total_keeps (process_complete_audio E (audio_chunks s) c (default "" sid))
                  s (total_process_complete_audio _ _) (chunks_process_complete_audio _ _))
        as (u & s2 & -> & _).
      reflexivity.
    - reflexivity. }
  destruct (bool_decide (msg_type m = Some "ping")).
  - unfold bind, ret.
    destruct (run_total_keeps (send_message E c pong) s (total_send _) (chunks_send _))
      as (u & s2 & -> & H2).
    exact H2.
  - unfold bind, ret.
    match goal with
    | |- context [send_message E c ?ev s] =>
        destruct (run_total_keeps (send_message E c ev) s (total_send _) (chunks_send _))
          as (u & s2 & -> & H2)
    end.
    exact H2.
Qed.

End Frames.

(** ** A connection nothing can be delivered to *)

Section Unreachable.
Import Py Exceptions Config WebSocket Effects.

Variable E : env.
Variable c : string.

Lemma mute_bind {A B} (k : io A) (f : A -> io B) :
  mute E c k -> (forall a, mute E c (f a)) -> mute E c (bind k f).
Proof.
  intros Hk Hf s Hs. unfold bind. destruct (Hk s Hs) as [Hu Ht].
  destruct (k s) as [[a|e] s1]; simpl in *; [|split; assumption].
  destruct (Hf a s1 Hu) as [Hu' Ht']. split; [exact Hu'|]. rewrite Ht'. exact Ht.
Qed.

Lemma mute_try {A} (k : io A) (h : exception -> io A) :
  mute E c k -> (forall e, mute E c (h e)) -> mute E c (try_except k h).
Proof.
  intros Hk Hh s Hs. unfold try_except. destruct (Hk s Hs) as [Hu Ht].
  destruct (k s) as [[a|e] s1]; simpl in *; [split; assumption|].
  destruct (Hh e s1 Hu) as [Hu' Ht']. split; [exact Hu'|]. rewrite Ht'. exact Ht.
Qed.

Lemma mute_quiet {A} (k : io A) :
  (forall s, active_connections (manager (snd (k s))) = active_connections (manager s)) ->
  (forall s, sent (trace (snd (k s))) = sent (trace s)) ->
  mute E c k.
Proof.
  intros Hm Ht s Hs. split; [|apply Ht]. unfold unreachable in *. rewrite Hm. exact Hs.
Qed.

Lemma mute_send (ev : event) : mute E c (send_message E c ev).
Proof.
  intros s Hs. unfold unreachable, send_message in *.
  destruct (active_connections (manager s) !! c) as [w|] eqn:Hreg.
  - rewrite Hs. simpl. rewrite lookup_delete_eq. split; [exact I|reflexivity].
  - simpl. rewrite Hreg. split; [exact I|reflexivity].
Qed.

Lemma sent_invoked (t : list action) (p : port) : sent (t ++ [Invoked p]) = sent t.
Proof. unfold sent. rewrite omap_app. simpl. apply app_nil_r. Qed.

Lemma mute_ret {A} (a : A) : mute E c (ret a).
Proof. apply mute_quiet; reflexivity. Qed.

Lemma mute_await {A} (r : result A) : mute E c (await r).
Proof. apply mute_quiet; reflexivity. Qed.

Lemma mute_gets {A} (f : state -> A) : mute E c (gets f).
Proof. apply mute_quiet; reflexivity. Qed.

Lemma mute_record (p : port) : mute E c (modify (record (Invoked p))).
Proof. apply mute_quiet; [reflexivity|]. intros s. apply sent_invoked. Qed.

Lemma mute_set_audio_chunks (f : state -> list bytes) :
  mute E c (modify (fun s => set_audio_chunks (f s) s)).
Proof. apply mute_quiet; reflexivity. Qed.

Lemma mute_invoke {A} (p : port) (r : result A) : mute E c (invoke p r).
Proof. apply mute_bind; [apply mute_record|intros; apply mute_await]. Qed.

Lemma mute_create_session : mute E c (create_session E).
Proof.
  apply mute_quiet; intros s; unfold create_session;
    destruct (SessionManager.create_session _ _); reflexivity.
Qed.

Lemma mute_generate_response (message sid : string) :
  mute E c (generate_response E message sid).
Proof.
  apply mute_bind; [apply mute_record|]. intros _.
  apply mute_quiet; intros s;
    destruct (ChatService.generate_response _ _ _ _ _ _ _); reflexivity.
Qed.

Lemma mute_disconnect :
  mute E c (modify (fun s => set_manager (disconnect c (manager s)) s)).
Proof.
  intros s _. split; [|reflexivity]. unfold unreachable. simpl.
  rewrite lookup_delete_eq. exact I.
Qed.

Lemma mute_associate (sid : string) :
  mute E c (modify (fun s => set_manager (associate_session sid c (manager s)) s)).
Proof. apply mute_quiet; reflexivity. Qed.

Create HintDb mute.
#[local] Hint Resolve mute_send mute_ret mute_await mute_gets mute_record
  mute_set_audio_chunks mute_invoke mute_create_session mute_generate_response
  mute_disconnect mute_associate : mute.

Ltac hush :=
  repeat first
    [ solve [auto with mute]
    | apply mute_bind; [|intros ?]
    | apply mute_try; [|intros ?]
    | match goal with
      | |- mute _ _ (if ?b then _ else _) => destruct b
      | |- mute _ _ (match ?e with Agent _ => _ | _ => _ end) => destruct e
      | |- mute _ _ (match ?l with [] => _ | _ :: _ => _ end) => destruct l
      | |- mute _ _ (let _ := _ in _) => cbv zeta
      end ].

Lemma mute_process_complete_audio (chunks : list bytes) (sid : string) :
  mute E c (process_complete_audio E chunks c sid).
Proof.
  unfold process_complete_audio, process_complete_audio_body, report_turn_error. hush.
Qed.

#[local] Hint Resolve mute_process_complete_audio : mute.

Lemma mute_handle_audio_chunk (m : message_data) (sid : option string) :
  mute E c (handle_audio_chunk E m c sid).
Proof.
  unfold handle_audio_chunk. hush.
  all: apply (mute_set_audio_chunks (fun _ => [])).
Qed.

Lemma mute_handle_text_message (m : message_data) (sid : option string) :
  mute E c (handle_text_message E m c sid).
Proof. unfold handle_text_message. hush. Qed.

#[local] Hint Resolve mute_handle_audio_chunk mute_handle_text_message : mute.

Lemma mute_dispatch (m : message_data) (sid : option string) :
  mute E c (dispatch E m c sid).
Proof.
  unfold dispatch. hush.
  all: apply (mute_set_audio_chunks (fun _ => [])).
Qed.

Lemma mute_close_on_error (e : exception) : mute E c (close_on_error E c e).
Proof. unfold close_on_error. hush. Qed.

(** While a connection is not registered, or the peer of its socket has
    gone, a round of its receive loop sends nothing on any socket, whatever
    the message, and leaves the connection as unreachable as it was: what
    the handlers try to send is dropped without a trace. *)
Theorem unreachable_connection_gets_nothing
    (m : message_data) (sid : option string) (s : state) :
  unreachable E c s ->
  unreachable E c (snd (round E m c sid s)) /\
  sent (trace (snd (round E m c sid s))) = sent (trace s).
Proof.
  intros Hs. unfold round. destruct (mute_dispatch m sid s Hs) as [Hu Ht].
  destruct (dispatch E m c sid s) as [[sid'|e] s1]; simpl in *; [split; assumption|].
  destruct (mute_close_on_error e s1 Hu) as [Hu' Ht']. split; [exact Hu'|].
  rewrite Ht'. exact Ht.
Qed.

End Unreachable.

Lemma unreachable_connection_gets_nothing_witness :
  Effects.unreachable (Fixtures.hung_up (Sample.healthy "s2" "m3" "m4" 200)) "c"
    (snd (WebSocket.round (Fixtures.hung_up (Sample.healthy "s2" "m3" "m4" 200))
            (Sample.audio_chunk true) "c" (Some "s1") Sample.bound)) /\
  Effects.sent
    (WebSocket.trace
       (snd (WebSocket.round (Fixtures.hung_up (Sample.healthy "s2" "m3" "m4" 200))
               (Sample.audio_chunk true) "c" (Some "s1") Sample.bound)))
  = Effects.sent (WebSocket.trace Sample.bound).
Proof.
  apply (unreachable_connection_gets_nothing
           (Fixtures.hung_up (Sample.healthy "s2" "m3" "m4" 200)) "c"
           (Sample.audio_chunk true) (Some "s1") Sample.bound).
  reflexivity.
Defined.

(** ** A connection without a session *)

Section Unbound.
Import Py Exceptions Config WebSocket Effects.

Variable E : env.
Variable c : string.

Lemma work_send (ev : event) : keeps work (send_message E c ev).
Proof.
  intros s. unfold send_message, work.
  destruct (active_connections (manager s) !! c) as [w|]; [destruct (peer_gone E w)|];
    simpl; try reflexivity.
  unfold ports_invoked. rewrite omap_app. simpl. rewrite app_nil_r. reflexivity.
Qed.

Lemma work_set_audio_chunks (f : state -> list bytes) :
  keeps work (modify (fun s => set_audio_chunks (f s) s)).
Proof. intros s. reflexivity. Qed.

Create HintDb inert.
#[local] Hint Resolve keeps_ret keeps_await keeps_gets work_send work_set_audio_chunks : inert.

Lemma run_total_work {A} (k : io A) (s : state) :
  total k -> keeps work k ->
  exists a s', k s = (Ok a, s') /\ work s' = work s.
Proof.
  intros Ht Hk. specialize (Ht s). specialize (Hk s).
  destruct (k s) as [[a|e] s']; [|discriminate]. eauto.
Qed.

(** Without a bound session, no message but [initialize_session] makes the
    handlers invoke a capability or write to the store, and none ends the
    receive loop: an audio chunk is only accumulated, [end_audio] only
    empties the accumulator, a text message is refused. *)
Theorem unbound_round_is_inert (m : message_data) (sid : option string) (s : state) :
  truthy_opt sid = false ->
  msg_type m <> Some "initialize_session" ->
  fst (round E m c sid s) = Some sid /\
  db (snd (round E m c sid s)) = db s /\
  ports_invoked (trace (snd (round E m c sid s))) = ports_invoked (trace s).
Proof.
  intros Hsid Hinit.
  enough (exists s', dispatch E m c sid s = (Ok sid, s') /\ work s' = work s)
    as (s' & Hrun & Hwork).
  { unfold round. rewrite Hrun. simpl. injection Hwork as Hdb Hports. auto. }
  unfold dispatch. rewrite bool_decide_eq_false_2 by exact Hinit.
  destruct (bool_decide (msg_type m = Some "audio_chunk")).
  { assert (keeps work (handle_audio_chunk E m c sid)) as Hk.
    { unfold handle_audio_chunk. rewrite Hsid, andb_false_r.
      keep inert. all: apply (work_set_audio_chunks (fun s => audio_chunks s ++ [_])). }
    destruct (run_total_work _ s (total_handle_audio_chunk E c m sid) Hk)
      as (u & s' & Hrun & Hwork).
    unfold bind, ret. rewrite Hrun. eauto. }
  destruct (bool_decide (msg_type m = Some "text_message")).
  { assert (keeps work (handle_text_message E m c sid)) as Hk.
    { unfold handle_text_message. rewrite Hsid, orb_true_r. keep inert. }
    destruct (run_total_work _ s (total_handle_text_message E c m sid) Hk)
      as (u & s' & Hrun & Hwork).
    unfold bind, ret. rewrite Hrun. eauto. }
  destruct (bool_decide (msg_type m = Some "end_audio")).
  { rewrite Hsid. unfold bind, gets, modify, ret. rewrite andb_false_r. simpl. eauto. }
  destruct (bool_decide (msg_type m = Some "ping")).
  - destruct (run_total_work _ s (total_send E c pong) (work_send pong))
      as (u & s' & Hrun & Hwork).
    unfold bind, ret. rewrite Hrun. eauto.
  - match goal with
    | |- context [send_message E c ?ev] =>
        destruct (run_total_work _ s (total_send E c ev) (work_send ev))
          as (u & s' & Hrun & Hwork)
    end.
    unfold bind, ret. rewrite Hrun. eauto.
Qed.

End Unbound.

Lemma unbound_round_is_inert_witness :
  fst (WebSocket.round (Sample.healthy "s1" "m1" "m2" 100) (Sample.audio_chunk true)
         "c" None Sample.connected) = Some None /\
  WebSocket.db
    (snd (WebSocket.round (Sample.healthy "s1" "m1" "m2" 100) (Sample.audio_chunk true)
            "c" None Sample.connected)) = WebSocket.db Sample.connected /\
  WebSocket.ports_invoked
    (WebSocket.trace
       (snd (WebSocket.round (Sample.healthy "s1" "m1" "m2" 100) (Sample.audio_chunk true)
               "c" None Sample.connected)))
  = WebSocket.ports_invoked (WebSocket.trace Sample.connected).
Proof.
  apply (unbound_round_is_inert (Sample.healthy "s1" "m1" "m2" 100) "c"
           (Sample.audio_chunk true) None Sample.connected).
  - reflexivity.
  - discriminate.
Defined.

(** ** Pings *)

Section Pings.
Import Py Exceptions Config WebSocket Protocol Effects.

(** Any number of [ping] messages in a row are answered by as many [pong]
    events and by nothing else, with or without a bound session, and the
    receive loop goes on with the registry, the store, the accumulator and
    the session of the connection as they were. *)
Theorem pings_get_pongs (c : string) (ws : websocket) (frames : list frame)
    (sid : option string) (s : state) :
  active_connections (manager s) !! c = Some ws ->
  Forall (pinging ws) frames ->
  receive_loop frames c sid s =
  (Some sid,
   {| manager := manager s; db := db s; audio_chunks := audio_chunks s;
      trace := trace s ++ repeat (Sent ws pong) (length frames) |}).
Proof.
  intros Hreg Hall. revert s Hreg.
  induction Hall as [|f frames Hf _ IH]; intros s Hreg.
  - simpl. rewrite app_nil_r. destruct s. reflexivity.
  - destruct f as [E m| |]; try contradiction. destruct Hf as [Hm Hpeer].
    simpl. unfold round, dispatch. rewrite Hm.
    rewrite !bool_decide_eq_false_2 by discriminate.
    rewrite bool_decide_eq_true_2 by reflexivity.
    unfold bind. rewrite (send_message_live E c ws) by (split; assumption).
    unfold ret. rewrite IH by exact Hreg.
    simpl. rewrite <- app_assoc. reflexivity.
Qed.

End Pings.

Lemma pings_get_pongs_witness :
  WebSocket.receive_loop
    [WebSocket.Message (Sample.healthy "s2" "m3" "m4" 200) (Sample.bare "ping");
     WebSocket.Message (Sample.healthy "s2" "m3" "m4" 200) (Sample.bare "ping")]
    "c" (Some "s1") Sample.bound =
  (Some (Some "s1"),
   {| WebSocket.manager := WebSocket.manager Sample.bound;
      WebSocket.db := WebSocket.db Sample.bound;
      WebSocket.audio_chunks := WebSocket.audio_chunks Sample.bound;
      WebSocket.trace :=
        WebSocket.trace Sample.bound
        ++ repeat (WebSocket.Sent 7%nat WebSocket.pong) 2 |}).
Proof.
  apply (pings_get_pongs "c" 7%nat
           [WebSocket.Message (Sample.healthy "s2" "m3" "m4" 200) (Sample.bare "ping");
            WebSocket.Message (Sample.healthy "s2" "m3" "m4" 200) (Sample.bare "ping")]
           (Some "s1") Sample.bound).
  - reflexivity.
  - repeat constructor.
Defined.

(** ** What ends the receive loop *)

Section Closing.
Import Py Exceptions Config WebSocket Registry Effects.

Variable E : env.
Variable c : string.

Lemma total_bind_ret {A B} (k : io A) (b : B) (s : state) :
  total k -> exists s', bind k (fun _ => ret b) s = (Ok b, s').
Proof.
  intros Hk. specialize (Hk s). unfold bind, ret.
  destruct (k s) as [[a|e] s']; [eauto|discriminate].
Qed.

(** A message ends the receive loop in one case only: it is an
    [initialize_session] and the session cannot be created.  Every other
    failure, of decoding, of validation, of an engine or of the database,
    is answered within the loop, which goes on. *)
Theorem round_closes_only_on_failed_initialization
    (m : message_data) (sid : option string) (s : state) :
  fst (round E m c sid s) = None <->
  msg_type m = Some "initialize_session" /\
  is_ok (fst (SessionManager.create_session (session_draw E) (db s))) = false.
Proof.
  unfold round, dispatch.
  destruct (bool_decide (msg_type m = Some "initialize_session")) eqn:Hinit.
  { apply bool_decide_eq_true in Hinit. unfold bind at 1, create_session.
    destruct (SessionManager.create_session (session_draw E) (db s)) as [[new_id|e] d];
      simpl.
    - unfold bind at 1, modify. unfold bind at 1.
      pose proof (total_send E c (session_initialized new_id)
                    (set_manager (associate_session new_id c (manager (set_db d s)))
                       (set_db d s))) as Hsend.
      destruct (send_message E c _ _) as [[u|e] s1]; [|discriminate].
      simpl. split; [discriminate|]. intros [_ H]. discriminate.
    - split; [auto|reflexivity]. }
  apply bool_decide_eq_false in Hinit.
  assert (exists sid' s', (if bool_decide (msg_type m = Some "audio_chunk")
             then handle_audio_chunk E m c sid;; ret sid
             else if bool_decide (msg_type m = Some "text_message")
             then handle_text_message E m c sid;; ret sid
             else if bool_decide (msg_type m = Some "end_audio")
             then chunks <- gets audio_chunks;;
                  (if negb (bool_decide (chunks = [])) && truthy_opt sid
                   then process_complete_audio E chunks c (default "" sid)
                   else ret tt);;
                  modify (set_audio_chunks []);; ret sid
             else if bool_decide (msg_type m = Some "ping")
             then send_message E c pong;; ret sid
             else send_message E c
                    (error ("Unknown message type: " +:+ default "None" (msg_type m)) None);;
                  ret sid) s = (Ok sid', s')) as (sid' & s' & ->).
  { destruct (bool_decide (msg_type m = Some "audio_chunk")).
    { destruct (total_bind_ret (handle_audio_chunk E m c sid) sid s
                  (total_handle_audio_chunk E c m sid)) as [s' ->]. eauto. }
    destruct (bool_decide (msg_type m = Some "text_message")).
    { destruct (total_bind_ret (handle_text_message E m c sid) sid s
                  (total_handle_text_message E c m sid)) as [s' ->]. eauto. }
    destruct (bool_decide (msg_type m = Some "end_audio")).
    { unfold bind at 1, gets.
      destruct (negb (bool_decide (audio_chunks s = [])) && truthy_opt sid).
      - unfold bind at 1.
        pose proof (total_process_complete_audio E c (audio_chunks s) (default "" sid) s)
          as Hturn.
        destruct (process_complete_audio E (audio_chunks s) c (default "" sid) s)
          as [[u|e] s1]; [|discriminate].
        unfold bind, modify, ret. eauto.
      - unfold bind, modify, ret. eauto. }
    destruct (bool_decide (msg_type m = Some "ping")).
    - destruct (total_bind_ret (send_message E c pong) sid s (total_send E c pong))
        as [s' ->]. eauto.
    - destruct (total_bind_ret
                  (send_message E c
                     (error ("Unknown message type: " +:+ default "None" (msg_type m)) None))
                  sid s (total_send E c _)) as [s' ->]. eauto. }
  simpl. split; [discriminate|]. intros [H _]. contradiction.
Qed.

(** ** Connecting and disconnecting *)

Lemma drop_sessions_of_none (connection_id : string) (sessions : gmap string string) :
  (forall s, sessions !! s <> Some connection_id) ->
  drop_sessions_of connection_id sessions = sessions.
Proof.
  intros Hnone. apply map_eq. intros s. rewrite drop_sessions_of_lookup.
  destruct (sessions !! s) as [c'|] eqn:Hs; [|reflexivity].
  destruct (decide (c' = connection_id)) as [->|]; [|reflexivity].
  exfalso. exact (Hnone s Hs).
Qed.

Lemma sessions_of_nil (connection_id : string) (M : WebSocketManager) (s : string) :
  sessions_of connection_id M = [] ->
  session_connections M !! s <> Some connection_id.
Proof.
  unfold sessions_of. intros Hnil Hs.
  assert (In (s, connection_id)
            (List.filter (fun '(_, c') => String.eqb c' connection_id)
               (map_to_list (session_connections M)))) as Hin.
  { apply List.filter_In. split; [|apply String.eqb_refl].
    apply list_elem_of_In, elem_of_map_to_list, Hs. }
  destruct (List.filter _ _); [contradiction|discriminate].
Qed.

(** A connection that registers under an identifier not in use and
    disconnects without having initialised a session leaves the registry
    exactly as it found it, provided no session was mapped to that
    identifier. *)
Theorem connect_disconnect_round_trip (ws : websocket) (connection_id : string)
    (M : WebSocketManager) :
  active_connections M !! connection_id = None ->
  sessions_of connection_id M = [] ->
  disconnect connection_id (connect ws connection_id M) = M.
Proof.
  intros Hfresh Hnone. destruct M as [active sessions]. unfold disconnect, connect. simpl in *.
  f_equal.
  - apply delete_insert_id. exact Hfresh.
  - apply drop_sessions_of_none. intros s.
    exact (sessions_of_nil connection_id
             {| active_connections := active; session_connections := sessions |} s Hnone).
Qed.

End Closing.

Lemma round_closes_only_on_failed_initialization_witness :
  fst (WebSocket.round (Fixtures.no_database (Sample.healthy "s1" "m1" "m2" 100))
         Sample.initialize_session "c" None Sample.connected) = None.
Proof.
  apply (round_closes_only_on_failed_initialization
           (Fixtures.no_database (Sample.healthy "s1" "m1" "m2" 100)) "c"
           Sample.initialize_session None Sample.connected).
  split; reflexivity.
Defined.

Lemma connect_disconnect_round_trip_witness :
  WebSocket.disconnect "d" (WebSocket.connect 8%nat "d" (WebSocket.manager Sample.bound))
  = WebSocket.manager Sample.bound.
Proof.
  apply (connect_disconnect_round_trip 8%nat "d" (WebSocket.manager Sample.bound));
    reflexivity.
Defined.

(** ** The socket the endpoint sends on *)

Section Addressing.
Import Py Exceptions Config WebSocket Effects.

Variable c : string.
Variable ws : websocket.

Lemma addressed_bind {A B} (k : io A) (f : A -> io B) :
  addressed c ws k -> (forall a, addressed c ws (f a)) -> addressed c ws (bind k f).
Proof.
  intros Hk Hf s Hs. unfold bind. destruct (Hk s Hs) as [Ho (evs & Ht)].
  destruct (k s) as [[a|e] s1]; simpl in *; [|eauto].
  destruct (Hf a s1 Ho) as [Ho' (evs' & Ht')]. split; [exact Ho'|].
  exists (evs ++ evs'). rewrite Ht', Ht, map_app, app_assoc. reflexivity.
Qed.

Lemma addressed_try {A} (k : io A) (h : exception -> io A) :
  addressed c ws k -> (forall e, addressed c ws (h e)) -> addressed c ws (try_except k h).
Proof.
  intros Hk Hh s Hs. unfold try_except. destruct (Hk s Hs) as [Ho (evs & Ht)].
  destruct (k s) as [[a|e] s1]; simpl in *; [eauto|].
  destruct (Hh e s1 Ho) as [Ho' (evs' & Ht')]. split; [exact Ho'|].
  exists (evs ++ evs'). rewrite Ht', Ht, map_app, app_assoc. reflexivity.
Qed.

Lemma addressed_quiet {A} (k : io A) :
  (forall s, active_connections (manager (snd (k s))) = active_connections (manager s)) ->
  (forall s, sent (trace (snd (k s))) = sent (trace s)) ->
  addressed c ws k.
Proof.
  intros Hm Ht s Hs. split.
  - unfold own_socket in *. rewrite Hm. exact Hs.
  - exists []. rewrite Ht, app_nil_r. reflexivity.
Qed.

Lemma addressed_send (E : env) (ev : event) : addressed c ws (send_message E c ev).
Proof.
  intros s Hs. unfold own_socket, send_message in *.
  destruct (active_connections (manager s) !! c) as [w|] eqn:Hreg.
  - subst w. destruct (peer_gone E ws); simpl.
    + rewrite lookup_delete_eq. split; [exact I|]. exists []. rewrite app_nil_r. reflexivity.
    + rewrite Hreg. split; [reflexivity|]. exists [ev].
      unfold sent. rewrite omap_app. reflexivity.
  - simpl. rewrite Hreg. split; [exact I|]. exists []. rewrite app_nil_r. reflexivity.
Qed.

Lemma addressed_ret {A} (a : A) : addressed c ws (ret a).
Proof. apply addressed_quiet; reflexivity. Qed.

Lemma addressed_await {A} (r : result A) : addressed c ws (await r).
Proof. apply addressed_quiet; reflexivity. Qed.

Lemma addressed_gets {A} (f : state -> A) : addressed c ws (gets f).
Proof. apply addressed_quiet; reflexivity. Qed.

Lemma addressed_record (p : port) : addressed c ws (modify (record (Invoked p))).
Proof. apply addressed_quiet; [reflexivity|]. intros s. apply sent_invoked. Qed.

Lemma addressed_set_audio_chunks (f : state -> list bytes) :
  addressed c ws (modify (fun s => set_audio_chunks (f s) s)).
Proof. apply addressed_quiet; reflexivity. Qed.

Lemma addressed_invoke {A} (p : port) (r : result A) : addressed c ws (invoke p r).
Proof. apply addressed_bind; [apply addressed_record|intros; apply addressed_await]. Qed.

Lemma addressed_create_session (E : env) : addressed c ws (create_session E).
Proof.
  apply addressed_quiet; intros s; unfold create_session;
    destruct (SessionManager.create_session _ _); reflexivity.
Qed.

Lemma addressed_generate_response (E : env) (message sid : string) :
  addressed c ws (generate_response E message sid).
Proof.
  apply addressed_bind; [apply addressed_record|]. intros _.
  apply addressed_quiet; intros s;
    destruct (ChatService.generate_response _ _ _ _ _ _ _); reflexivity.
Qed.

Lemma addressed_disconnect :
  addressed c ws (modify (fun s => set_manager (disconnect c (manager s)) s)).
Proof.
  intros s _. split.
  - unfold own_socket. simpl. rewrite lookup_delete_eq. exact I.
  - exists []. rewrite app_nil_r. reflexivity.
Qed.

Lemma addressed_associate (sid : string) :
  addressed c ws (modify (fun s => set_manager (associate_session sid c (manager s)) s)).
Proof. apply addressed_quiet; reflexivity. Qed.

Create HintDb addressed.
#[local] Hint Resolve addressed_send addressed_ret addressed_await addressed_gets
  addressed_record addressed_set_audio_chunks addressed_invoke addressed_create_session
  addressed_generate_response addressed_disconnect addressed_associate : addressed.

Ltac address :=
  repeat first
    [ solve [auto with addressed]
    | apply addressed_bind; [|intros ?]
    | apply addressed_try; [|intros ?]
    | match goal with
      | |- addressed _ _ (if ?b then _ else _) => destruct b
      | |- addressed _ _ (match ?e with Agent _ => _ | _ => _ end) => destruct e
      | |- addressed _ _ (match ?l with [] => _ | _ :: _ => _ end) => destruct l
      | |- addressed _ _ (let _ := _ in _) => cbv zeta
      end ].

Lemma addressed_process_complete_audio (E : env) (chunks : list bytes) (sid : string) :
  addressed c ws (process_complete_audio E chunks c sid).
Proof.
  unfold process_complete_audio, process_complete_audio_body, report_turn_error. address.
Qed.

#[local] Hint Resolve addressed_process_complete_audio : addressed.

Lemma addressed_handle_audio_chunk (E : env) (m : message_data) (sid : option string) :
  addressed c ws (handle_audio_chunk E m c sid).
Proof.
  unfold handle_audio_chunk. address.
  all: apply (addressed_set_audio_chunks (fun _ => [])).
Qed.

Lemma addressed_handle_text_message (E : env) (m : message_data) (sid : option string) :
  addressed c ws (handle_text_message E m c sid).
Proof. unfold handle_text_message. address. Qed.

#[local] Hint Resolve addressed_handle_audio_chunk addressed_handle_text_message : addressed.

Lemma addressed_dispatch (E : env) (m : message_data) (sid : option string) :
  addressed c ws (dispatch E m c sid).
Proof.
  unfold dispatch. address.
  all: apply (addressed_set_audio_chunks (fun _ => [])).
Qed.

Lemma addressed_close_on_error (E : env) (e : exception) :
  addressed c ws (close_on_error E c e).
Proof. unfold close_on_error. address. Qed.

Lemma addressed_receive_loop (frames : list frame) (sid : option string) (s : state) :
  own_socket c ws s ->
  exists evs,
    sent (trace (snd (receive_loop frames c sid s))) = sent (trace s) ++ map (pair ws) evs.
Proof.
  revert sid s. induction frames as [|f frames IH]; intros sid s Hs.
  - exists []. rewrite app_nil_r. reflexivity.
  - destruct f as [E m|E reason|]; simpl.
    + unfold round. destruct (addressed_dispatch E m sid s Hs) as [Ho (evs & Ht)].
      destruct (dispatch E m c sid s) as [[sid'|e] s1]; simpl in *.
      * destruct (IH sid' s1 Ho) as (evs' & Ht').
        exists (evs ++ evs'). rewrite Ht', Ht, map_app, app_assoc. reflexivity.
      * destruct (addressed_close_on_error E e s1 Ho) as [_ (evs' & Ht')].
        exists (evs ++ evs'). rewrite Ht', Ht, map_app, app_assoc. reflexivity.
    + apply (addressed_close_on_error E (OtherError reason) s Hs).
    + exists []. rewrite app_nil_r. reflexivity.
Qed.

Lemma addressed_round (E : env) (m : message_data) (sid : option string) (s : state) :
  own_socket c ws s ->
  own_socket c ws (snd (round E m c sid s)) /\
  exists evs, sent (trace (snd (round E m c sid s))) = sent (trace s) ++ map (pair ws) evs.
Proof.
  intros Hs. unfold round. destruct (addressed_dispatch E m sid s Hs) as [Ho (evs & Ht)].
  destruct (dispatch E m c sid s) as [[sid'|e] s1]; simpl in *; [eauto|].
  destruct (addressed_close_on_error E e s1 Ho) as [Ho' (evs' & Ht')].
  split; [exact Ho'|].
  exists (evs ++ evs'). rewrite Ht', Ht, map_app, app_assoc. reflexivity.
Qed.

(** The endpoint of a connection sends to the socket that the registry
    holds under its connection identifier at the time of the send, and to
    no other: a send goes to that socket, or nowhere when the peer has
    gone or no socket is registered; all that a round of the receive loop
    sends goes to the socket registered when the round starts; [connect]
    replaces the entry without a check, so that a round which starts
    after another socket has connected under the identifier sends to that
    socket; and an endpoint that runs with no such connect in between
    sends everything on the socket it was called with. *)
Theorem endpoint_sends_to_registered_socket (E : env) (m : message_data)
    (sid : option string) (frames : list frame) (s : state) :
  (forall ev,
     sent (trace (snd (send_message E c ev s))) =
     sent (trace s) ++
     match active_connections (manager s) !! c with
     | Some w => if peer_gone E w then [] else [(w, ev)]
     | None => []
     end) /\
  (active_connections (manager s) !! c = Some ws ->
   exists evs,
     sent (trace (snd (round E m c sid s))) = sent (trace s) ++ map (pair ws) evs) /\
  (active_connections (manager s) !! c = None ->
   sent (trace (snd (round E m c sid s))) = sent (trace s)) /\
  active_connections (connect ws c (manager s)) !! c = Some ws /\
  (exists evs,
     sent (trace (snd (round E m c sid (set_manager (connect ws c (manager s)) s))))
     = sent (trace s) ++ map (pair ws) evs) /\
  (exists evs,
     sent (trace (snd (websocket_endpoint ws c frames s)))
     = sent (trace s) ++ map (pair ws) evs).
Proof.
  split; [|split; [|split; [|split; [|split]]]].
  - intros ev. unfold send_message.
    destruct (active_connections (manager s) !! c) as [w|]; [|rewrite app_nil_r; reflexivity].
    destruct (peer_gone E w); simpl; [rewrite app_nil_r; reflexivity|].
    unfold record, sent. simpl. rewrite omap_app. reflexivity.
  - intros Hreg. apply addressed_round. unfold own_socket. rewrite Hreg. reflexivity.
  - intros Hnone.
    assert (unreachable E c s) as Hs by (unfold unreachable; rewrite Hnone; exact I).
    unfold round. destruct (mute_dispatch E c m sid s Hs) as [Hu Ht].
    destruct (dispatch E m c sid s) as [[sid'|e] s1]; simpl in *; [exact Ht|].
    destruct (mute_close_on_error E c e s1 Hu) as [_ Ht']. rewrite Ht'. exact Ht.
  - unfold connect. simpl. apply lookup_insert_eq.
  - apply (addressed_round E m sid (set_manager (connect ws c (manager s)) s)).
    unfold own_socket. simpl. rewrite lookup_insert_eq. reflexivity.
  - unfold websocket_endpoint.
    apply (addressed_receive_loop frames None
             (set_audio_chunks [] (set_manager (connect ws c (manager s)) s))).
    unfold own_socket. simpl. rewrite lookup_insert_eq. reflexivity.
Qed.

End Addressing.

(** ** The reply is stored before it is sent *)

Lemma generate_response_stored B cfg dr st message sid context reply mid st' :
  ChatService.generate_response B cfg dr st message sid context = (Exceptions.Ok (reply, mid), st') ->
  Effects.turn_stored st st' sid message reply mid.
Proof.
  unfold ChatService.generate_response, ChatService.generate_response_body.
  destruct (SessionManager.get_conversation_history _ _ _ _ _) as [history|e].
  2:{ destruct (Py.contains _ _); discriminate. }
  destruct (ChatService.chat_completions_create B _ _) as [response| |]; simpl.
  2,3: destruct (Py.contains _ _); discriminate.
  destruct (SessionManager.add_message (ChatService.user_draw dr) st sid _ _ _)
    as [[umid|e] st1] eqn:Huser.
  2:{ destruct (Py.contains _ _); discriminate. }
  apply add_message_ok_inv in Huser as (um & Hst1 & _ & Hus & Hut & Huc & _ & _).
  injection Huc as Huc.
  destruct (SessionManager.add_message (ChatService.assistant_draw dr) st1 sid _ _ _)
    as [[amid|e] st2] eqn:Hasst.
  2:{ destruct (Py.contains _ _); discriminate. }
  apply add_message_ok_inv in Hasst as (am & Hst2 & Hai & Has & Hat & Hac & _ & _).
  destruct (ChatService.reply_content response) as [r|].
  2:{ destruct (Py.contains _ _); discriminate. }
  intros [= <- <- <-]. injection Hac as Hac. exists um, am.
  rewrite Hst2, Hst1, <- app_assoc. simpl. repeat split; auto.
Qed.


Section Persisted.
Import Py Exceptions Config WebSocket Protocol Effects.

Variable E : env.
Variable c : string.
Variable ws : websocket.








End Persisted.


(** ** The sweep of idle sessions *)

Section Sweep.
Import Py Exceptions Config SessionManager SessionAdmin.

Variable cfg : SessionSettings.

Lemma expired_twice (w : sweep) (sid : string) (conversation : Conversation) :
  expired w sid (expired w sid conversation) = expired w sid conversation.
Proof. reflexivity. Qed.

Lemma expire_fold (w : sweep) (rows : list (string * Conversation))
    (n : Z) (convs : gmap string Conversation) :
  fst (foldl (expire w) (n, convs) rows) = n + Z.of_nat (length rows) /\
  forall sid,
    snd (foldl (expire w) (n, convs) rows) !! sid =
    if decide (sid ∈ rows.*1) then expired w sid <$> convs !! sid else convs !! sid.
Proof.
  revert n convs. induction rows as [|[k c] rows IH]; intros n convs.
  - split; [simpl; lia|]. intros sid. rewrite decide_False by apply not_elem_of_nil.
    reflexivity.
  - change (foldl (expire w) (n, convs) ((k, c) :: rows))
      with (foldl (expire w) (n + 1, alter (expired w k) k convs) rows).
    destruct (IH (n + 1) (alter (expired w k) k convs)) as [Hn Hl].
    split; [rewrite Hn; simpl length; lia|].
    intros sid. rewrite Hl, fmap_cons. cbn [fst].
    destruct (decide (sid = k)) as [->|Hne].
    + rewrite lookup_alter_eq, (decide_True (P := k ∈ k :: rows.*1)) by left.
      destruct (decide (k ∈ rows.*1)); [|reflexivity].
      destruct (convs !! k); reflexivity.
    + rewrite lookup_alter_ne by congruence.
      destruct (decide (sid ∈ rows.*1)) as [Hin|Hout].
      * rewrite decide_True by (right; exact Hin). reflexivity.
      * rewrite decide_False; [reflexivity|].
        intros [H|H]%elem_of_cons; contradiction.
Qed.

Lemma idle_rows (expiry : Z) (convs : gmap string Conversation) (sid : string) :
  sid ∈ (List.filter (fun row => idle expiry (snd row)) (map_to_list convs)).*1 <->
  exists conversation, convs !! sid = Some conversation /\ idle expiry conversation = true.
Proof.
  rewrite list_elem_of_fmap. split.
  - intros ([k conversation] & -> & Hin). apply list_elem_of_In, List.filter_In in Hin as [Hin Hidle].
    apply list_elem_of_In, elem_of_map_to_list in Hin. eauto.
  - intros (conversation & Hc & Hidle). exists (sid, conversation). split; [reflexivity|].
    apply list_elem_of_In, List.filter_In. split; [|exact Hidle].
    apply list_elem_of_In, elem_of_map_to_list, Hc.
Qed.

Lemma filter_none {A} (p : A -> bool) (l : list A) :
  (forall x, x ∈ l -> p x = false) -> List.filter p l = [].
Proof.
  induction l as [|a l IH]; intros H; simpl; [reflexivity|].
  rewrite (H a) by left. apply IH. intros x Hx. apply H. right. exact Hx.
Qed.

(** The rows after a sweep that the database accepts. *)
Lemma sweep_rows (w : sweep) (st : store) (sid : string) :
  snd (foldl (expire w) (0, conversations st)
         (List.filter (fun row => idle (expiry_time cfg w) (snd row))
            (map_to_list (conversations st)))) !! sid =
  match conversations st !! sid with
  | Some conversation =>
      if idle (expiry_time cfg w) conversation
      then Some (expired w sid conversation)
      else Some conversation
  | None => None
  end.
Proof.
  destruct (expire_fold w
              (List.filter (fun row => idle (expiry_time cfg w) (snd row))
                 (map_to_list (conversations st))) 0 (conversations st)) as [_ Hl].
  rewrite Hl. destruct (decide _) as [Hin|Hout].
  - apply idle_rows in Hin as (conversation & -> & ->). reflexivity.
  - destruct (conversations st !! sid) as [conversation|] eqn:Hc; [|reflexivity].
    destruct (idle (expiry_time cfg w) conversation) eqn:Hidle; [|reflexivity].
    exfalso. apply Hout, idle_rows. eauto.
Qed.

(** A sweep that the database accepts marks as expired exactly the active
    sessions last updated before the expiry time and returns their number;
    it changes no other session and no message; and another sweep for the
    same or an earlier time then finds nothing to expire and changes
    nothing. *)
Theorem cleanup_expires_idle_sessions (w : sweep) (st : store) :
  sweep_error w = None ->
  exists st',
    cleanup_expired_sessions cfg w st =
      (Ok (Z.of_nat (length (List.filter (fun row => idle (expiry_time cfg w) (snd row))
                               (map_to_list (conversations st))))), st') /\
    messages st' = messages st /\
    (forall sid,
       conversations st' !! sid =
       match conversations st !! sid with
       | Some conversation =>
           if idle (expiry_time cfg w) conversation
           then Some (expired w sid conversation)
           else Some conversation
       | None => None
       end) /\
    (forall w',
       sweep_error w' = None -> sweep_now w' <= sweep_now w ->
       cleanup_expired_sessions cfg w' st' = (Ok 0, st')).
Proof.
  intros Hok. unfold cleanup_expired_sessions. rewrite Hok.
  set (rows := List.filter _ _).
  destruct (expire_fold w rows 0 (conversations st)) as [Hn _].
  eexists. split; [rewrite Hn; reflexivity|]. split; [reflexivity|].
  split; [apply sweep_rows|].
  intros w' Hok' Hnow. rewrite Hok'. simpl.
  rewrite filter_none; [reflexivity|].
  intros [sid conversation] Hin. apply elem_of_map_to_list in Hin. simpl in *.
  unfold rows in Hin. rewrite sweep_rows in Hin.
  destruct (conversations st !! sid) as [old|]; [|discriminate].
  destruct (idle (expiry_time cfg w) old) eqn:Hidle; injection Hin as <-;
    [apply andb_false_r|].
  unfold idle, expiry_time in *.
  destruct (status old); try (apply andb_false_r).
  rewrite andb_true_r in *. apply Z.ltb_ge in Hidle. apply Z.ltb_ge. lia.
Qed.

End Sweep.

Lemma cleanup_expires_idle_sessions_witness :
  exists st',
    SessionAdmin.cleanup_expired_sessions
      (Config.session_settings Config.default_settings) Fixtures.sweep_next_day
      Sample.three_messages = (Exceptions.Ok 1, st') /\
    SessionManager.messages st' = SessionManager.messages Sample.three_messages /\
    SessionManager.conversations st' !! "s1" =
      Some {| SessionManager.status := SessionManager.EXPIRED;
              SessionManager.created_at := 100;
              SessionManager.updated_at := 86400000000 |} /\
    SessionAdmin.cleanup_expired_sessions
      (Config.session_settings Config.default_settings) Fixtures.sweep_next_day st'
    = (Exceptions.Ok 0, st').
Proof.
  destruct (cleanup_expires_idle_sessions
              (Config.session_settings Config.default_settings)
              Fixtures.sweep_next_day Sample.three_messages eq_refl)
    as (st' & Hrun & Hmessages & Hrows & Hagain).
  exists st'. split; [exact Hrun|]. split; [exact Hmessages|].
  split; [rewrite Hrows; reflexivity|]. apply Hagain; [reflexivity|reflexivity].
Defined.

(** ** The store under its transactions *)

Section Integrity.
Import Py Exceptions Config SessionManager SessionAdmin Journal.

(** What a successful [add_message] wrote. *)
Lemma add_message_row d st sid ty text extra mid st' :
  add_message d st sid ty text extra = (Ok mid, st') ->
  exists body conversation,
    text = Some body /\ mid = uuid4 d /\
    conversations st !! sid = Some conversation /\
    conversations st' =
      <[sid := {| status := status conversation;
                  created_at := created_at conversation;
                  updated_at := utcnow_again d |}]> (conversations st) /\
    messages st' =
      messages st ++ [ {| id := uuid4 d; session_id := sid; type := ty; content := body;
                          timestamp := utcnow d; extra_data := extra |} ] /\
    Forall (fun x => id x <> uuid4 d) (messages st).
Proof.
  unfold add_message, raise_agent.
  destruct (db_error d); [discriminate|].
  destruct (conversations st !! sid) as [conversation|]; [|discriminate].
  destruct text as [body|]; [|discriminate].
  destruct (existsb _ _) eqn:Hfresh; [discriminate|].
  intros [= <- <-]. exists body, conversation. simpl. repeat split.
  apply Forall_forall. intros x Hx Heq.
  apply not_true_iff_false in Hfresh. apply Hfresh.
  apply existsb_exists. exists x. split; [apply list_elem_of_In; exact Hx|].
  apply String.eqb_eq. exact Heq.
Qed.

(** The store after [add_message], whatever its outcome: the one it found,
    or that one with one more message of the session. *)
Lemma add_message_store d st sid ty text extra :
  snd (add_message d st sid ty text extra) = st \/
  exists mid, add_message d st sid ty text extra
              = (Ok mid, snd (add_message d st sid ty text extra)).
Proof.
  destruct (add_message d st sid ty text extra) as [[mid|e] st'] eqn:Hadd.
  - right. exists mid. reflexivity.
  - left. eapply add_message_raise_inv. exact Hadd.
Qed.

Lemma consistent_add_message d st sid ty text extra :
  consistent st -> consistent (snd (add_message d st sid ty text extra)).
Proof.
  intros [Hrefs Hids].
  destruct (add_message_store d st sid ty text extra) as [->|[mid Hadd]];
    [split; assumption|].
  destruct (add_message_row _ _ _ _ _ _ _ _ Hadd)
    as (body & conversation & _ & _ & Hsid & Hconvs & Hmsgs & Hfresh).
  unfold consistent. rewrite Hconvs, Hmsgs. split.
  - apply Forall_app. split.
    + eapply Forall_impl; [exact Hrefs|]. intros m Hm. apply lookup_insert_is_Some'.
      right. exact Hm.
    + repeat constructor. simpl. apply lookup_insert_is_Some'. left. reflexivity.
  - rewrite map_app. simpl. apply NoDup_app. split; [exact Hids|].
    split; [|apply NoDup_singleton].
    intros x Hx Hx'. apply list_elem_of_singleton in Hx' as ->.
    apply list_elem_of_fmap in Hx as (m & Hm & Hin).
    rewrite Forall_forall in Hfresh. apply (Hfresh m Hin). symmetry. exact Hm.
Qed.

Lemma consistent_create_session d st :
  consistent st -> consistent (snd (create_session d st)).
Proof.
  intros [Hrefs Hids]. unfold create_session.
  destruct (db_error d); [split; assumption|].
  destruct (conversations st !! uuid4 d); [split; assumption|].
  split; [|exact Hids]. simpl.
  eapply Forall_impl; [exact Hrefs|]. intros m Hm. apply lookup_insert_is_Some'.
  right. exact Hm.
Qed.

(** The store after [generate_response], whatever its outcome: the one it
    found, or that one after one or two inserts for the session. *)
Lemma generate_response_store B cfg dr st message sid context :
  exists extra,
    let st1 := snd (add_message (ChatService.user_draw dr) st sid USER (Some message) extra) in
    snd (ChatService.generate_response B cfg dr st message sid context) = st \/
    snd (ChatService.generate_response B cfg dr st message sid context) = st1 \/
    exists reply extra',
      snd (ChatService.generate_response B cfg dr st message sid context)
      = snd (add_message (ChatService.assistant_draw dr) st1 sid ASSISTANT reply extra').
Proof.
  exists [("context", ChatService.context_json context)]. cbv zeta.
  unfold ChatService.generate_response, ChatService.generate_response_body.
  destruct (get_conversation_history _ _ _ _ _) as [history|e].
  2:{ left. destruct (contains _ _); reflexivity. }
  destruct (call _) as [response|e].
  2:{ left. destruct (contains _ _); reflexivity. }
  destruct (add_message (ChatService.user_draw dr) st sid USER (Some message) _)
    as [[umid|e] st1] eqn:Huser.
  2:{ right. left. destruct (contains _ _); reflexivity. }
  right. right. exists (ChatService.reply_content response).
  exists [("model", JStr (model (openai_settings cfg)));
          ("tokens_used",
           match ChatService.total_tokens response with
           | Some n => JInt n
           | None => JNull
           end)].
  simpl.
  destruct (add_message (ChatService.assistant_draw dr) st1 sid ASSISTANT _ _)
    as [[amid|e] st2].
  - destruct (ChatService.reply_content response); [reflexivity|].
    destruct (contains _ _); reflexivity.
  - destruct (contains _ _); reflexivity.
Qed.

Lemma consistent_generate_response B cfg dr st message sid context :
  consistent st ->
  consistent (snd (ChatService.generate_response B cfg dr st message sid context)).
Proof.
  intros Hst.
  destruct (generate_response_store B cfg dr st message sid context)
    as (extra & [->|[->|(reply & extra' & ->)]]).
  - exact Hst.
  - apply consistent_add_message, Hst.
  - apply consistent_add_message, consistent_add_message, Hst.
Qed.

Lemma consistent_cleanup cfg w st :
  consistent st -> consistent (snd (cleanup_expired_sessions cfg w st)).
Proof.
  intros [Hrefs Hids]. unfold cleanup_expired_sessions.
  destruct (sweep_error w); [split; assumption|].
  split; [|exact Hids]. simpl.
  eapply Forall_impl; [exact Hrefs|]. intros m [conversation Hm].
  rewrite sweep_rows, Hm. destruct (idle _ _); eauto.
Qed.

Lemma commit_consistent st t : consistent st -> consistent (commit st t).
Proof.
  destruct t; simpl.
  - apply consistent_create_session.
  - apply consistent_add_message.
  - apply consistent_generate_response.
  - apply consistent_cleanup.
Qed.

Lemma replay_snoc ts t : replay (ts ++ [t]) = commit (replay ts) t.
Proof. unfold replay. apply foldl_snoc. Qed.

Lemma replay_consistent ts : consistent (replay ts).
Proof.
  induction ts as [|t ts IH] using rev_ind.
  - split; constructor.
  - rewrite replay_snoc. apply commit_consistent, IH.
Qed.

(** The messages after [add_message]: those before, and at most one
    more. *)
Lemma add_message_appends d st sid ty text extra :
  exists new,
    messages (snd (add_message d st sid ty text extra)) = messages st ++ new /\
    (length new <= 1)%nat /\ Forall (fun m => session_id m = sid) new.
Proof.
  destruct (add_message_store d st sid ty text extra) as [->|[mid Hadd]].
  - exists []. rewrite app_nil_r. repeat split; [simpl; lia|constructor].
  - destruct (add_message_row _ _ _ _ _ _ _ _ Hadd)
      as (body & conversation & _ & _ & _ & _ & Hmsgs & _).
    eexists. split; [exact Hmsgs|]. split; [simpl; lia|]. repeat constructor.
Qed.

Lemma generate_response_appends B cfg dr st message sid context :
  exists new,
    messages (snd (ChatService.generate_response B cfg dr st message sid context))
    = messages st ++ new /\
    (length new <= 2)%nat /\ Forall (fun m => session_id m = sid) new.
Proof.
  destruct (generate_response_store B cfg dr st message sid context)
    as (extra & [->|[->|(reply & extra' & ->)]]).
  - exists []. rewrite app_nil_r. repeat split; [simpl; lia|constructor].
  - destruct (add_message_appends (ChatService.user_draw dr) st sid USER (Some message) extra)
      as (new & Hnew & Hlen & Hsid).
    exists new. repeat split; [exact Hnew|lia|exact Hsid].
  - destruct (add_message_appends (ChatService.user_draw dr) st sid USER (Some message) extra)
      as (new & Hnew & Hlen & Hsid).
    destruct (add_message_appends (ChatService.assistant_draw dr)
                (snd (add_message (ChatService.user_draw dr) st sid USER (Some message) extra))
                sid ASSISTANT reply extra')
      as (new' & Hnew' & Hlen' & Hsid').
    exists (new ++ new'). rewrite Hnew', Hnew, app_assoc.
    repeat split; [rewrite length_app; lia|apply Forall_app; split; assumption].
Qed.

(** In every store reached from the empty database by [create_session],
    [add_message], [generate_response] and [cleanup_expired_sessions],
    whether these succeed or fail, every message belongs to a stored
    session and no two messages share an identifier; and each of these
    transactions leaves the messages stored before it as they are, in
    place, adding at most two at the end. *)
Theorem store_stays_consistent (ts : list transaction) (t : transaction) :
  consistent (replay ts) /\
  exists new,
    messages (replay (ts ++ [t])) = messages (replay ts) ++ new /\
    (length new <= 2)%nat.
Proof.
  split; [apply replay_consistent|]. rewrite replay_snoc.
  destruct t as [d|d sid ty text extra|B cfg dr message sid context|cfg w]; simpl.
  - exists []. rewrite app_nil_r. split; [|simpl; lia].
    unfold create_session. destruct (db_error d); [reflexivity|].
    destruct (conversations (replay ts) !! uuid4 d); reflexivity.
  - destruct (add_message_appends d (replay ts) sid ty text extra) as (new & Hnew & Hlen & _).
    exists new. split; [exact Hnew|lia].
  - destruct (generate_response_appends B cfg dr (replay ts) message sid context)
      as (new & Hnew & Hlen & _).
    exists new. split; [exact Hnew|exact Hlen].
  - exists []. rewrite app_nil_r. split; [|simpl; lia].
    unfold cleanup_expired_sessions. destruct (sweep_error w); reflexivity.
Qed.

Lemma where_session_none sid rows :
  Forall (fun m => session_id m <> sid) rows -> where_session sid rows = [].
Proof.
  intros H. apply filter_none. intros m Hm. rewrite Forall_forall in H.
  apply String.eqb_neq, H, Hm.
Qed.

(** A session just created, in a store reached by the transactions above,
    reads as an active session with the two clock readings of its
    creation, and its history is empty, whatever the limit. *)
Theorem fresh_session_has_no_history (ts : list transaction) (d : draw)
    (sid : string) (st' : store) (cfg : SessionSettings) (limit : option Z) :
  create_session d (replay ts) = (Ok sid, st') ->
  get_session None st' sid =
    Ok (Some (sid, {| status := ACTIVE; created_at := utcnow d;
                      updated_at := utcnow_again d |})) /\
  get_conversation_history cfg None st' sid limit = Ok [].
Proof.
  unfold create_session, raise_agent.
  destruct (db_error d); [discriminate|].
  destruct (conversations (replay ts) !! uuid4 d) eqn:Hnew; [discriminate|].
  intros [= <- <-]. split.
  - unfold get_session. simpl. rewrite lookup_insert_eq. reflexivity.
  - unfold get_conversation_history, select_recent. simpl.
    rewrite where_session_none.
    + unfold sql_limit. simpl. destruct (_ <? 0); [reflexivity|].
      rewrite take_nil. reflexivity.
    + destruct (replay_consistent ts) as [Hrefs _].
      eapply Forall_impl; [exact Hrefs|]. intros m [conversation Hm] Heq.
      rewrite Heq in Hm. congruence.
Qed.

End Integrity.

Lemma fresh_session_has_no_history_witness :
  SessionAdmin.get_session None
    (snd (SessionManager.create_session (Sample.at_time "s2" 200)
            (Journal.replay
               [Journal.CreateSession (Sample.at_time "s1" 100);
                Journal.AddMessage (Sample.at_time "m1" 110) "s1" SessionManager.USER
                  (Some "one") []]))) "s2"
  = Exceptions.Ok
      (Some ("s2", {| SessionManager.status := SessionManager.ACTIVE;
                      SessionManager.created_at := 200;
                      SessionManager.updated_at := 200 |})) /\
  SessionManager.get_conversation_history
    (Config.session_settings Config.default_settings) None
    (snd (SessionManager.create_session (Sample.at_time "s2" 200)
            (Journal.replay
               [Journal.CreateSession (Sample.at_time "s1" 100);
                Journal.AddMessage (Sample.at_time "m1" 110) "s1" SessionManager.USER
                  (Some "one") []]))) "s2" None
  = Exceptions.Ok [].
Proof.
  apply (fresh_session_has_no_history
           [Journal.CreateSession (Sample.at_time "s1" 100);
            Journal.AddMessage (Sample.at_time "m1" 110) "s1" SessionManager.USER
              (Some "one") []]
           (Sample.at_time "s2" 200) "s2").
  reflexivity.
Defined.

(** ** Writing a message and reading it back *)

Section RoundTrip.
Import Py Exceptions Config SessionManager Chronology.

Lemma sql_limit_head n m rows :
  n <> 0 -> exists rest, sql_limit n (m :: rows) = m :: rest.
Proof.
  intros Hn. unfold sql_limit. destruct (n <? 0) eqn:Hneg; [eauto|].
  apply Z.ltb_ge in Hneg. destruct (Z.to_nat n) as [|k] eqn:Hk; [lia|].
  simpl. eauto.
Qed.

(** A message that [add_message] has stored with a time stamp later than
    those of its session is the last one of the history read next, with
    the identifier returned, the type, the content and the extra data
    given, unless the limit in force is the configured one and that is
    zero. *)
Theorem appended_message_closes_history (cfg : SessionSettings) (d : draw)
    (st : store) (sid : string) (ty : MessageType) (text : string) (extra : json)
    (mid : string) (st' : store) (limit : option Z) :
  add_message d st sid ty (Some text) extra = (Ok mid, st') ->
  Forall (fun m => timestamp m < utcnow d) (where_session sid (messages st)) ->
  effective_limit cfg limit <> 0 ->
  exists earlier,
    get_conversation_history cfg None st' sid limit =
    Ok (earlier ++ [ {| r_id := mid; r_type := ty; r_content := text;
                        r_timestamp := utcnow d; r_extra_data := extra |} ]).
Proof.
  intros Hadd Hlater Hlimit.
  destruct (add_message_row _ _ _ _ _ _ _ _ Hadd)
    as (body & conversation & [= <-] & -> & _ & _ & Hmsgs & _).
  rewrite history_value. unfold select_recent. rewrite Hmsgs, where_session_snoc.
  simpl. rewrite String.eqb_refl.
  set (m := {| id := uuid4 d; session_id := sid; type := ty; content := text;
               timestamp := utcnow d; extra_data := extra |}).
  destruct (order_by_snoc (where_session sid (messages st)) m)
    as (front & back & Hold & Hnew & Hfront & _).
  assert (front = []) as ->.
  { destruct front as [|x front]; [reflexivity|exfalso].
    apply Forall_cons in Hfront as [Hx _].
    assert (x ∈ where_session sid (messages st)) as Hin.
    { rewrite <- (order_by_perm (where_session sid (messages st))), Hold. left. }
    rewrite Forall_forall in Hlater. specialize (Hlater x Hin). simpl in Hx. lia. }
  rewrite Hnew. simpl.
  destruct (sql_limit_head (effective_limit cfg limit) m back Hlimit) as [rest ->].
  simpl. rewrite map_app. eexists. reflexivity.
Qed.

(** ** One session's turn and the other sessions *)

Lemma where_session_other sid other rows new :
  other <> sid -> Forall (fun m => session_id m = sid) new ->
  where_session other (rows ++ new) = where_session other rows.
Proof.
  intros Hne Hnew. unfold where_session. rewrite List.filter_app.
  rewrite (filter_none _ new); [apply app_nil_r|].
  intros m Hm. rewrite Forall_forall in Hnew. rewrite (Hnew m Hm).
  apply String.eqb_neq. congruence.
Qed.

Lemma add_message_rows_other d st sid ty text extra other :
  other <> sid ->
  conversations (snd (add_message d st sid ty text extra)) !! other
  = conversations st !! other.
Proof.
  intros Hne. destruct (add_message_store d st sid ty text extra) as [->|[mid Hadd]];
    [reflexivity|].
  destruct (add_message_row _ _ _ _ _ _ _ _ Hadd)
    as (body & conversation & _ & _ & _ & -> & _ & _).
  apply lookup_insert_ne. congruence.
Qed.

(** A call of [generate_response] for one session, whether it succeeds or
    fails, leaves every other session as it was: its row, and its history
    under every limit. *)
Theorem other_sessions_untouched (B : ChatService.Backend) (cfg : Settings)
    (dr : ChatService.draws) (st : store) (message sid : string)
    (context : option (gmap string string)) (other : string)
    (fault : option string) (limit : option Z) :
  other <> sid ->
  conversations (snd (ChatService.generate_response B cfg dr st message sid context)) !! other
  = conversations st !! other /\
  get_conversation_history (session_settings cfg) fault
    (snd (ChatService.generate_response B cfg dr st message sid context)) other limit
  = get_conversation_history (session_settings cfg) fault st other limit.
Proof.
  intros Hne. split.
  - destruct (generate_response_store B cfg dr st message sid context)
      as (extra & [->|[->|(reply & extra' & ->)]]).
    + reflexivity.
    + apply add_message_rows_other, Hne.
    + rewrite !add_message_rows_other by exact Hne. reflexivity.
  - destruct (generate_response_appends B cfg dr st message sid context)
      as (new & Hnew & _ & Hsid).
    unfold get_conversation_history, select_recent.
    rewrite Hnew, (where_session_other sid) by assumption. reflexivity.
Qed.

End RoundTrip.

Lemma appended_message_closes_history_witness :
  exists earlier,
    SessionManager.get_conversation_history
      (Config.session_settings Config.default_settings) None
      (snd (SessionManager.add_message (Sample.at_time "m4" 140) Sample.three_messages
              "s1" SessionManager.ASSISTANT (Some "four") [])) "s1" (Some 2)
    = Exceptions.Ok
        (earlier ++ [ {| SessionManager.r_id := "m4";
                         SessionManager.r_type := SessionManager.ASSISTANT;
                         SessionManager.r_content := "four";
                         SessionManager.r_timestamp := 140;
                         SessionManager.r_extra_data := [] |} ]).
Proof.
  apply (appended_message_closes_history
           (Config.session_settings Config.default_settings) (Sample.at_time "m4" 140)
           Sample.three_messages "s1" SessionManager.ASSISTANT "four" [] "m4"
           (snd (SessionManager.add_message (Sample.at_time "m4" 140) Sample.three_messages
                   "s1" SessionManager.ASSISTANT (Some "four") []))
           (Some 2)).
  - reflexivity.
  - repeat constructor.
  - discriminate.
Defined.

Lemma other_sessions_untouched_witness :
  SessionManager.conversations
    (snd (ChatService.generate_response Sample.chat_hello Config.default_settings
            Sample.second_insert_refused Sample.one_session "Hello" "s1" None)) !! "s2"
  = SessionManager.conversations Sample.one_session !! "s2" /\
  SessionManager.get_conversation_history
    (Config.session_settings Config.default_settings) None
    (snd (ChatService.generate_response Sample.chat_hello Config.default_settings
            Sample.second_insert_refused Sample.one_session "Hello" "s1" None)) "s2" None
  = SessionManager.get_conversation_history
      (Config.session_settings Config.default_settings) None
      Sample.one_session "s2" None.
Proof.
  apply (other_sessions_untouched Sample.chat_hello Config.default_settings
           Sample.second_insert_refused Sample.one_session "Hello" "s1" None "s2" None None).
  discriminate.
Defined.

(** ** The prompt and the history *)

Section Prompt.
Import Py Exceptions Config SessionManager ChatService Chronology Variants Journal.

Lemma history_length (cfg : SessionSettings) (st : store) (sid : string)
    (limit : option Z) (history : list MessageResponse) :
  get_conversation_history cfg None st sid limit = Ok history ->
  length history =
  bounded (effective_limit cfg limit) (length (where_session sid (messages st))).
Proof.
  rewrite history_value. intros [= <-].
  rewrite length_map, length_rev. unfold select_recent.
  rewrite sql_limit_length, (Permutation_length (order_by_perm _)). reflexivity.
Qed.

(** With a configured history bound that is not negative, the prompt
    [generate_response] builds from the history it has read is the system
    prompt, then that history, oldest message first and no more of them
    than the bound, each as a [user] entry when its type is [USER] and as
    an [assistant] entry otherwise, then the new message as the last
    [user] entry. *)
Theorem prompt_is_bounded_history (cfg : Settings) (st : store) (sid message : string)
    (history : list MessageResponse) :
  0 <= max_conversation_history (session_settings cfg) ->
  get_conversation_history (session_settings cfg) None st sid None = Ok history ->
  build_messages cfg history message None =
    {| role := "system"; text_of := system_prompt |}
    :: map prompt_entry history ++ [ {| role := "user"; text_of := message |} ] /\
  (length history <= Z.to_nat (max_conversation_history (session_settings cfg)))%nat /\
  chronological history.
Proof.
  intros Hbound Hread.
  assert (length history <= Z.to_nat (max_conversation_history (session_settings cfg)))%nat
    as Hlen.
  { rewrite (history_length _ _ _ _ _ Hread). unfold bounded, effective_limit.
    destruct (_ <? 0) eqn:Hneg; [apply Z.ltb_lt in Hneg; lia|]. lia. }
  split; [|split; [exact Hlen|]].
  - unfold build_messages, slice_last.
    destruct (0 <? _).
    + replace (length history - _)%nat with 0%nat by lia. reflexivity.
    + replace (Z.to_nat (- _)) with 0%nat by lia. reflexivity.
  - rewrite history_value in Hread. injection Hread as <-.
    apply oldest_first_chronological, newest_first_rev_oldest_first, sql_limit_sorted,
      order_by_sorted.
Qed.

(** ** A session the store does not know *)

Lemma add_message_unknown d st sid ty text extra :
  conversations st !! sid = None ->
  exists e, add_message d st sid ty text extra = (Raise e, st).
Proof.
  intros Hunknown. unfold add_message. rewrite Hunknown.
  destruct (db_error d); eexists; reflexivity.
Qed.

Lemma generate_response_unknown (B : Backend) (cfg : Settings) (dr : draws)
    (st : store) (message sid : string) (context : option (gmap string string)) :
  conversations st !! sid = None ->
  exists m,
    generate_response B cfg dr st message sid context
    = (raise_agent GPTServiceError m "RESPONSE_GENERATION_ERROR", st) \/
    generate_response B cfg dr st message sid context
    = (raise_agent RateLimitError m "RATE_LIMIT_EXCEEDED", st).
Proof.
  intros Hunknown. unfold generate_response, generate_response_body.
  destruct (get_conversation_history _ _ _ _ _) as [history|e].
  2:{ destruct (contains _ _); eexists; [right|left]; reflexivity. }
  destruct (call _) as [response|e].
  2:{ destruct (contains _ _); eexists; [right|left]; reflexivity. }
  destruct (add_message_unknown (user_draw dr) st sid USER (Some message)
              [("context", context_json context)] Hunknown) as [e ->].
  destruct (contains _ _); eexists; [right|left]; reflexivity.
Qed.

(** For a session that is not in the store, [generate_response] fails,
    whatever the engine answers, with [RESPONSE_GENERATION_ERROR] or, when
    the text of the failure mentions [rate_limit], with
    [RATE_LIMIT_EXCEEDED], and it leaves the store as it found it. *)
Theorem generate_response_unknown_session (B : Backend) (cfg : Settings) (dr : draws)
    (st : store) (message sid : string) (context : option (gmap string string)) :
  conversations st !! sid = None ->
  snd (generate_response B cfg dr st message sid context) = st /\
  exists m,
    fst (generate_response B cfg dr st message sid context)
    = raise_agent GPTServiceError m "RESPONSE_GENERATION_ERROR" \/
    fst (generate_response B cfg dr st message sid context)
    = raise_agent RateLimitError m "RATE_LIMIT_EXCEEDED".
Proof.
  intros Hunknown.
  destruct (generate_response_unknown B cfg dr st message sid context Hunknown)
    as (m & [H|H]); rewrite H; (split; [reflexivity|]); exists m; [left|right]; reflexivity.
Qed.

(** ** Summaries *)

(** [summarize_conversation] answers with a fixed sentence, whatever the
    engine, when the history query is answered and the store holds no
    message of the session; so it does, in a store that the transactions
    of [Journal] lead to, for a session the store does not know.  When the
    query is refused it fails; and it fails with [SUMMARIZATION_ERROR]
    only, a rate limit of the engine included. *)
Theorem summarize_conversation_outcomes (B : Backend) (cfg : Settings)
    (fault : option string) (st : store) (sid : string) :
  (fault = None -> of_session sid (messages st) = [] ->
   summarize_conversation B cfg fault st sid = Ok "No conversation to summarize.") /\
  (forall ts, fault = None -> st = replay ts -> conversations st !! sid = None ->
   of_session sid (messages st) = [] /\
   summarize_conversation B cfg fault st sid = Ok "No conversation to summarize.") /\
  (forall text, fault = Some text ->
   summarize_conversation B cfg fault st sid =
   raise_agent GPTServiceError
     ("Failed to summarize conversation: Failed to get conversation history: " +:+ text)
     "SUMMARIZATION_ERROR") /\
  match summarize_conversation B cfg fault st sid with
  | Ok _ => True
  | Raise e =>
      exists m, e = Agent {| exn_class_of := GPTServiceError; message := m;
                             error_code := Some "SUMMARIZATION_ERROR" |}
  end.
Proof.
  assert (fault = None -> of_session sid (messages st) = [] ->
          summarize_conversation B cfg fault st sid = Ok "No conversation to summarize.")
    as Hnone.
  { intros -> Hempty. unfold summarize_conversation, summarize_conversation_body.
    rewrite history_value. unfold select_recent.
    rewrite where_session_of_session, Hempty.
    unfold sql_limit. simpl. destruct (_ <? 0); [reflexivity|].
    rewrite take_nil. reflexivity. }
  split; [exact Hnone|]. split; [|split].
  - intros ts Hfault -> Hunknown.
    assert (of_session sid (messages (replay ts)) = []) as Hempty.
    { rewrite <- where_session_of_session. apply where_session_none.
      destruct (replay_consistent ts) as [Hrefs _].
      eapply Forall_impl; [exact Hrefs|]. intros m [conversation Hm] Heq.
      rewrite Heq in Hm. congruence. }
    split; [exact Hempty|exact (Hnone Hfault Hempty)].
  - intros text ->. reflexivity.
  - unfold summarize_conversation.
    destruct (summarize_conversation_body B cfg fault st sid); [exact I|].
    eexists. reflexivity.
Qed.

End Prompt.

Lemma prompt_is_bounded_history_witness :
  ChatService.build_messages Config.default_settings
    (map SessionManager.model_validate (SessionManager.messages Sample.three_messages))
    "four" None =
  {| ChatService.role := "system"; ChatService.text_of := ChatService.system_prompt |}
  :: map Variants.prompt_entry
       (map SessionManager.model_validate (SessionManager.messages Sample.three_messages))
  ++ [ {| ChatService.role := "user"; ChatService.text_of := "four" |} ] /\
  (length (map SessionManager.model_validate (SessionManager.messages Sample.three_messages))
   <= Z.to_nat (Config.max_conversation_history
                  (Config.session_settings Config.default_settings)))%nat /\
  Chronology.chronological
    (map SessionManager.model_validate (SessionManager.messages Sample.three_messages)).
Proof.
  apply (prompt_is_bounded_history Config.default_settings Sample.three_messages "s1" "four").
  - discriminate.
  - reflexivity.
Defined.

Lemma generate_response_unknown_session_witness :
  snd (ChatService.generate_response Sample.chat_hello Config.default_settings
         Sample.second_insert_refused Sample.one_session "Hello" "s9" None)
  = Sample.one_session /\
  exists m,
    fst (ChatService.generate_response Sample.chat_hello Config.default_settings
           Sample.second_insert_refused Sample.one_session "Hello" "s9" None)
    = Exceptions.raise_agent Exceptions.GPTServiceError m "RESPONSE_GENERATION_ERROR" \/
    fst (ChatService.generate_response Sample.chat_hello Config.default_settings
           Sample.second_insert_refused Sample.one_session "Hello" "s9" None)
    = Exceptions.raise_agent Exceptions.RateLimitError m "RATE_LIMIT_EXCEEDED".
Proof.
  apply (generate_response_unknown_session Sample.chat_hello Config.default_settings
           Sample.second_insert_refused Sample.one_session "Hello" "s9" None).
  reflexivity.
Defined.

(** ** Failures of transcription *)

Section TranscriptionFailures.
Import Py Exceptions Config AudioProcessor SpeechToText Variants.

Variable A : AudioProcessor.Backend.
Variable B : SpeechToText.Backend.
Variable cfg : OpenAISettings.

(** [transcribe_audio] fails in three ways only: with a [RateLimitError]
    and the code [RATE_LIMIT_EXCEEDED] when the engine answers the
    preprocessed audio with HTTP status 429, with [API_ERROR] when it
    answers with another HTTP status error, and with [TRANSCRIPTION_ERROR]
    otherwise, which includes the failures of preprocessing and of feature
    extraction: their own codes do not reach the caller.
    [transcribe_streaming] fails whenever [transcribe_audio] fails on the
    joined chunks, and then always with [STREAMING_ERROR], a rate limit
    included. *)
Theorem transcription_failures (data : bytes) (chunks : list bytes)
    (lang : option string) :
  match transcribe_audio A B cfg data lang with
  | Ok _ => True
  | Raise e =>
      exists m,
        (e = Agent {| exn_class_of := RateLimitError; message := m;
                      error_code := Some "RATE_LIMIT_EXCEEDED" |} /\
         exists processed t body,
           preprocess A data "wav" = Returned processed /\
           transcriptions_create B (whisper_model cfg) processed lang
           = FailedHTTP t 429 body) \/
        (e = Agent {| exn_class_of := SpeechToTextError; message := m;
                      error_code := Some "API_ERROR" |} /\
         exists processed t status body,
           preprocess A data "wav" = Returned processed /\
           transcriptions_create B (whisper_model cfg) processed lang
           = FailedHTTP t status body /\ status <> 429) \/
        e = Agent {| exn_class_of := SpeechToTextError; message := m;
                     error_code := Some "TRANSCRIPTION_ERROR" |}
  end /\
  match transcribe_streaming A B cfg chunks lang with
  | Ok r => transcribe_audio A B cfg (join chunks) lang = Ok r
  | Raise e =>
      is_ok (transcribe_audio A B cfg (join chunks) lang) = false /\
      exists m, e = Agent {| exn_class_of := SpeechToTextError; message := m;
                             error_code := Some "STREAMING_ERROR" |}
  end.
Proof.
  split.
  - unfold transcribe_audio, transcribe_audio_body, preprocess_for_speech_recognition,
      extract_audio_features.
    change (lower "wav") with "wav".
    destruct (preprocess A data "wav") as [processed|t|t status body] eqn:Hpre; simpl;
      try (eexists; right; right; reflexivity).
    destruct (transcriptions_create B (whisper_model cfg) processed lang)
      as [tr|t|t status body] eqn:Hengine; simpl.
    + destruct (features A processed "wav"); simpl; try exact I;
        eexists; right; right; reflexivity.
    + eexists; right; right; reflexivity.
    + destruct (status =? 429) eqn:Hstatus.
      * apply Z.eqb_eq in Hstatus as ->. eexists. left. split; [reflexivity|].
        exists processed, t, body. split; first [assumption|reflexivity].
      * apply Z.eqb_neq in Hstatus. eexists. right; left. split; [reflexivity|].
        exists processed, t, status, body. repeat split; first [assumption|reflexivity].
  - unfold transcribe_streaming.
    destruct (transcribe_audio A B cfg (join chunks) lang); [reflexivity|].
    split; [reflexivity|]. eexists. reflexivity.
Qed.

End TranscriptionFailures.

(** ** Texts that synthesis refuses *)

Section SynthesisFailures.
Import Py Exceptions Config TextToSpeech Variants.

Variable B : TextToSpeech.Backend.
Variable cfg : OpenAISettings.

(** [synthesize_speech] reports a text of more than 4096 code points, and
    a text that is empty or all white space, as a [SYNTHESIS_ERROR]: the
    [TEXT_TOO_LONG] and [EMPTY_TEXT] errors it raises for them are caught
    by its own [except Exception] clause.  The engine plays no part in
    that outcome.  No failure of [synthesize_speech] carries another code
    than [RATE_LIMIT_EXCEEDED], [API_ERROR] or [SYNTHESIS_ERROR]. *)
Theorem synthesize_speech_refusals (text : text_value) (s : string)
    (voice : option string) :
  ((4096 < Py.len s)%nat ->
   synthesize_speech B cfg (Text s) voice =
   raise_agent TextToSpeechError
     "Speech synthesis failed: Text too long for TTS (max 4096 characters)"
     "SYNTHESIS_ERROR") /\
  ((Py.len s <= 4096)%nat -> strip s = "" ->
   synthesize_speech B cfg (Text s) voice =
   raise_agent TextToSpeechError
     "Speech synthesis failed: Empty text provided for TTS" "SYNTHESIS_ERROR") /\
  In (code_of (synthesize_speech B cfg text voice))
    [None; Some "RATE_LIMIT_EXCEEDED"; Some "API_ERROR"; Some "SYNTHESIS_ERROR"] /\
  (code_of (synthesize_speech B cfg text voice) = None ->
   is_ok (synthesize_speech B cfg text voice) = true).
Proof.
  repeat split.
  - intros Hlong. unfold synthesize_speech, synthesize_speech_body, prepare_request.
    replace (4096 <? len (Text s)) with true; [reflexivity|].
    symmetry. apply Z.ltb_lt. simpl. lia.
  - intros Hshort Hblank.
    unfold synthesize_speech, synthesize_speech_body, prepare_request.
    replace (4096 <? len (Text s)) with false
      by (symmetry; apply Z.ltb_ge; simpl; lia).
    simpl. rewrite Hblank. reflexivity.
  - unfold synthesize_speech.
    destruct (synthesize_speech_body B cfg text voice) as [r|[v|t status body|t]]; simpl;
      auto.
    destruct (status =? 429); simpl; auto.
  - unfold synthesize_speech.
    destruct (synthesize_speech_body B cfg text voice) as [r|[v|t status body|t]]; simpl;
      try discriminate; [reflexivity|].
    destruct (status =? 429); discriminate.
Qed.

End SynthesisFailures.

(** ** Synthesis with options *)

Section Options.
Import Py Exceptions Config SpeechToText TextToSpeech Variants.

Lemma ltb_leb (x y : float) : PrimFloat.ltb x y = true -> PrimFloat.leb x y = true.
Proof.
  rewrite FloatAxioms.ltb_spec, FloatAxioms.leb_spec. unfold SpecFloat.SFltb, SpecFloat.SFleb.
  destruct (SpecFloat.SFcompare _ _) as [[| |]|]; congruence.
Qed.

Lemma clamp_speed (speed : float) :
  PrimFloat.leb 0.25 (py_max 0.25 (py_min 4.0 speed)) = true /\
  PrimFloat.leb (py_max 0.25 (py_min 4.0 speed)) 4.0 = true.
Proof.
  unfold py_max, py_min.
  destruct (PrimFloat.ltb speed 4.0) eqn:Hhigh.
  - destruct (PrimFloat.ltb 0.25 speed) eqn:Hlow.
    + split; apply ltb_leb; assumption.
    + split; reflexivity.
  - split; reflexivity.
Qed.

Lemma in_list_In (x : string) (xs : list string) : in_list x xs = true -> In x xs.
Proof.
  unfold in_list. intros H. apply existsb_exists in H as (y & Hy & Heq).
  apply String.eqb_eq in Heq as ->. exact Hy.
Qed.

(** Whatever its arguments, not-a-number included, [synthesize_with_options]
    asks the engine for a speed between 0.25 and 4.0 and for one of the
    four supported formats, the caller's when that is one of them; the
    caller's voice goes to the engine as it is, whether it is an available
    voice or not; and every failure of the engine, a rate limit included,
    is reported as [ADVANCED_SYNTHESIS_ERROR]. *)
Theorem synthesize_with_options_request (B : OptionsBackend) (cfg : OpenAISettings)
    (text : string) (voice : option string) (speed : float) (format : string) :
  PrimFloat.leb 0.25 (opt_speed (prepare_options cfg text voice speed format)) = true /\
  PrimFloat.leb (opt_speed (prepare_options cfg text voice speed format)) 4.0 = true /\
  In (opt_response_format (prepare_options cfg text voice speed format)) supported_formats /\
  (In format supported_formats ->
   opt_response_format (prepare_options cfg text voice speed format) = format) /\
  (forall v, voice = Some v -> v <> "" ->
             opt_voice (prepare_options cfg text voice speed format) = v) /\
  match synthesize_with_options B cfg text voice speed format with
  | Ok audio =>
      speech_create_with B (prepare_options cfg text voice speed format) = Returned audio
  | Raise e =>
      exists m, e = Agent {| exn_class_of := TextToSpeechError; message := m;
                             error_code := Some "ADVANCED_SYNTHESIS_ERROR" |}
  end.
Proof.
  destruct (clamp_speed speed) as [Hlow Hhigh].
  split; [exact Hlow|]. split; [exact Hhigh|].
  assert (opt_response_format (prepare_options cfg text voice speed format) =
          if negb (in_list format supported_formats) then "mp3" else format) as ->
    by reflexivity.
  split; [|split; [|split]].
  - destruct (in_list format supported_formats) eqn:Hin.
    + apply in_list_In, Hin.
    + left. reflexivity.
  - intros Hin. replace (in_list format supported_formats) with true; [reflexivity|].
    symmetry. unfold in_list. apply existsb_exists. exists format.
    split; [exact Hin|apply String.eqb_refl].
  - intros v -> Hv. unfold prepare_options, truthy. cbn [opt_voice].
    apply String.eqb_neq in Hv. rewrite Hv. reflexivity.
  - unfold synthesize_with_options.
    destruct (speech_create_with B _); simpl; [reflexivity|eexists; reflexivity..].
Qed.

End Options.

(** ** The text handed to the speech engine *)

Section Words.
Import Py Exceptions Config TextToSpeech Variants.

Lemma code_points_units (s : list ascii) :
  Forall (fun u => unit_of_text u = true) (code_points s) /\
  Forall (fun u => begins u = true) (tail (code_points s)).
Proof.
  induction s as [|b r [Hunits Hbegin]]; simpl; [split; constructor|].
  destruct (code_points r) as [|[|c p] ps].
  - split; repeat constructor.
  - apply Forall_cons in Hunits as [Hu _]. discriminate.
  - apply Forall_cons in Hunits as [Hu Hps]. simpl in Hu, Hbegin.
    destruct (continuation c) eqn:Hc.
    + split; [|exact Hbegin]. constructor; [|exact Hps]. simpl. rewrite Hc. exact Hu.
    + split.
      * repeat constructor; assumption.
      * simpl. constructor; [|exact Hbegin]. simpl. rewrite Hc. reflexivity.
Qed.

Lemma code_points_unit (b : ascii) (cs rest : list ascii) :
  forallb continuation cs = true ->
  match code_points rest with
  | [] => True
  | u :: _ => begins u = true
  end ->
  code_points (b :: cs ++ rest) = (b :: cs) :: code_points rest.
Proof.
  revert b. induction cs as [|c cs IH]; intros b Hcs Hrest.
  - simpl. destruct (code_points rest) as [|[|c p] ps]; [reflexivity|discriminate|].
    simpl in Hrest. apply negb_true_iff in Hrest. rewrite Hrest. reflexivity.
  - simpl in Hcs. apply andb_prop in Hcs as [Hc Hcs].
    change (code_points (b :: (c :: cs) ++ rest))
      with (match code_points (c :: cs ++ rest) with
            | (c' :: p) :: ps =>
                if continuation c' then (b :: c' :: p) :: ps else [b] :: (c' :: p) :: ps
            | ps => [b] :: ps
            end).
    rewrite (IH c Hcs Hrest), Hc. reflexivity.
Qed.

(** A list of code points is the list of the code points of the text it
    spells. *)
Lemma code_points_concat (l : list (list ascii)) :
  Forall (fun u => unit_of_text u = true) l ->
  Forall (fun u => begins u = true) (tail l) ->
  code_points (concat l) = l.
Proof.
  induction l as [|u l IH]; intros Hunits Hbegin; [reflexivity|].
  apply Forall_cons in Hunits as [Hu Hl]. simpl in Hbegin.
  destruct u as [|b cs]; [discriminate|]. simpl in Hu.
  assert (code_points (concat l) = l) as Hrest.
  { apply IH; [exact Hl|]. destruct l; [constructor|].
    apply Forall_cons in Hbegin as [_ H]. exact H. }
  change (concat ((b :: cs) :: l)) with (b :: cs ++ concat l).
  rewrite code_points_unit, Hrest; [reflexivity|exact Hu|].
  rewrite Hrest. destruct l; [exact I|]. apply Forall_cons in Hbegin as [H _]. exact H.
Qed.

Lemma not_space_not_blank (c : list ascii) :
  isspace c = false -> encoded_by c [32%nat] = false.
Proof.
  unfold isspace, white_space. intros Hc.
  destruct (encoded_by c [32%nat]) eqn:Hblank; [|reflexivity].
  rewrite <- Hc. symmetry. apply existsb_exists. exists [32%nat].
  split; [|exact Hblank]. simpl. tauto.
Qed.

Lemma squeeze_units (pending seen : bool) (l : list (list ascii)) :
  Forall (fun u => unit_of_text u = true) l ->
  Forall (fun u => begins u = true) l ->
  Forall (fun u => unit_of_text u = true) (squeeze pending seen l) /\
  Forall (fun u => begins u = true) (squeeze pending seen l).
Proof.
  revert pending seen. induction l as [|c r IH]; intros pending seen Hunits Hbegin;
    [split; constructor|].
  apply Forall_cons in Hunits as [Hc Hr], Hbegin as [Hbc Hbr]. simpl.
  destruct (isspace c); [apply IH; assumption|].
  destruct (IH false true Hr Hbr) as [H1 H2].
  destruct pending; simpl; split; repeat constructor; assumption.
Qed.

(** After a word, what [squeeze] emits continues the text in words. *)
Lemma squeeze_after_word (pending : bool) (s : list (list ascii)) :
  spaced false (squeeze pending true s) = true.
Proof.
  revert pending. induction s as [|c r IH]; intros pending; [reflexivity|].
  simpl. destruct (isspace c) eqn:Hc; [apply IH|].
  destruct pending; simpl; rewrite (not_space_not_blank c Hc), Hc; simpl; apply IH.
Qed.

Lemma squeeze_in_words (s : list (list ascii)) :
  squeeze false false s = [] \/ spaced true (squeeze false false s) = true.
Proof.
  induction s as [|c r IH]; [left; reflexivity|].
  simpl. destruct (isspace c) eqn:Hc; [exact IH|]. right.
  simpl. rewrite (not_space_not_blank c Hc), Hc. simpl. apply squeeze_after_word.
Qed.

Lemma squeeze_code_points (s : list ascii) :
  code_points (concat (squeeze false false (code_points s)))
  = squeeze false false (code_points s).
Proof.
  destruct (code_points_units s) as [Hunits Hbegin].
  destruct (code_points s) as [|c r]; [reflexivity|].
  apply Forall_cons in Hunits as [Hc Hr]. simpl in Hbegin.
  apply code_points_concat; simpl; destruct (isspace c).
  - apply squeeze_units; assumption.
  - constructor; [exact Hc|]. apply squeeze_units; assumption.
  - destruct (squeeze_units false false r Hr Hbegin) as [_ H].
    destruct (squeeze false false r); [constructor|].
    apply Forall_cons in H as [_ H]. exact H.
  - apply squeeze_units; assumption.
Qed.

Lemma normalize_spaces_in_words (s : string) : in_words (normalize_spaces s) = true.
Proof.
  unfold in_words, normalize_spaces.
  rewrite list_ascii_of_string_of_list_ascii, squeeze_code_points.
  destruct (squeeze_in_words (code_points (list_ascii_of_string s))) as [->|H];
    [reflexivity|].
  destruct (squeeze false false _); [reflexivity|exact H].
Qed.

Lemma squeeze_blank (s : list (list ascii)) :
  forallb isspace s = true -> squeeze false false s = [].
Proof.
  induction s as [|c r IH]; [reflexivity|]. simpl.
  intros [Hc Hr]%andb_prop. rewrite Hc. apply IH, Hr.
Qed.

Lemma lstrip_nil (s : list (list ascii)) :
  lstrip_chars s = [] -> forallb isspace s = true.
Proof.
  induction s as [|c r IH]; [reflexivity|]. simpl.
  destruct (isspace c); [exact IH|discriminate].
Qed.

Lemma lstrip_sublist (s : list (list ascii)) (u : list ascii) :
  In u (lstrip_chars s) -> In u s.
Proof.
  induction s as [|c r IH]; [tauto|]. simpl.
  destruct (isspace c); [intros H; right; apply IH, H|tauto].
Qed.

Lemma concat_units_nil (l : list (list ascii)) :
  (forall u, In u l -> unit_of_text u = true) -> concat l = [] -> l = [].
Proof.
  destruct l as [|[|b cs] l]; [reflexivity| |discriminate].
  intros H _. specialize (H [] (or_introl eq_refl)). discriminate.
Qed.

Lemma strip_blank (s : string) :
  strip s = "" -> forallb isspace (code_points (list_ascii_of_string s)) = true.
Proof.
  unfold strip, rstrip_chars. intros H.
  apply (f_equal list_ascii_of_string) in H.
  rewrite list_ascii_of_string_of_list_ascii in H. simpl in H.
  destruct (code_points_units (list_ascii_of_string s)) as [Hunits _].
  rewrite Forall_forall in Hunits.
  apply concat_units_nil in H.
  2:{ intros u Hu. apply Hunits, list_elem_of_In.
      apply in_rev, lstrip_sublist, in_rev, lstrip_sublist in Hu. exact Hu. }
  apply (f_equal (@rev (list ascii))) in H. rewrite rev_involutive in H. simpl in H.
  apply lstrip_nil in H. rewrite forallb_forall in H.
  assert (forall x, In x (lstrip_chars (code_points (list_ascii_of_string s))) ->
                    isspace x = true) as Hl.
  { intros x Hx. apply H. apply -> in_rev. exact Hx. }
  clear H Hunits. induction (code_points (list_ascii_of_string s)) as [|c r IH];
    [reflexivity|].
  simpl in *. destruct (isspace c) eqn:Hc; [apply IH, Hl|].
  specialize (Hl c (or_introl eq_refl)). congruence.
Qed.

(** The text [_preprocess_text] returns, which is the text the speech
    engines are given, is in words: among its code points there is no white
    space but single blanks, each between two code points that are not
    white space, so none at either end; and a text that is empty or all
    white space is returned empty. *)
Theorem preprocess_text_in_words (text : string) :
  in_words (_preprocess_text text) = true /\
  (strip text = "" -> _preprocess_text text = "").
Proof.
  split; [apply normalize_spaces_in_words|].
  intros Hblank. unfold _preprocess_text.
  assert (normalize_spaces text = "") as ->.
  { unfold normalize_spaces. rewrite squeeze_blank; [reflexivity|].
    apply strip_blank, Hblank. }
  reflexivity.
Qed.

End Words.

(** ** The REST endpoints *)

Section Rest.
Import Py Exceptions Config SessionManager Chronology Effects Endpoints.

Lemma server_error_status {A} (classes : list exn_class) (e : exception) :
  exists detail, @server_error A classes e = HTTPException 500 detail.
Proof.
  unfold server_error. destruct e as [v| |]; [destruct (caught classes v)|..]; eauto.
Qed.

Lemma session_or_new_ok (sd : draw) (session_id : option string) (st : store)
    (sid : string) (st1 : store) :
  session_or_new sd session_id st = (Ok sid, st1) ->
  messages st1 = messages st /\
  sid = (if truthy_opt session_id then default "" session_id else uuid4 sd).
Proof.
  unfold session_or_new. destruct (truthy_opt session_id).
  - intros [= <- <-]. split; reflexivity.
  - unfold create_session, raise_agent. destruct (db_error sd); [discriminate|].
    destruct (conversations st !! uuid4 sd); [discriminate|].
    intros [= <- <-]. split; reflexivity.
Qed.

(** A successful [generate_response] leaves the session in the store. *)
Lemma generate_response_ok_session B cfg dr st message sid context r st' :
  ChatService.generate_response B cfg dr st message sid context = (Ok r, st') ->
  is_Some (conversations st' !! sid).
Proof.
  intros Hgen.
  destruct (generate_response_store B cfg dr st message sid context)
    as (extra & Hstore).
  cbv zeta in Hstore. rewrite Hgen in Hstore. simpl in Hstore.
  assert (is_Some (conversations st !! sid)) as Hknown.
  { destruct (conversations st !! sid) eqn:Hc; [eauto|exfalso].
    destruct (generate_response_unknown B cfg dr st message sid context Hc)
      as (m & [H|H]); rewrite Hgen in H; discriminate. }
  assert (forall d st0 ty text extra0,
            is_Some (conversations st0 !! sid) ->
            is_Some (conversations (snd (add_message d st0 sid ty text extra0)) !! sid))
    as Hkeep.
  { intros d st0 ty text extra0 H0.
    destruct (add_message_store d st0 sid ty text extra0) as [->|[mid Hadd]]; [exact H0|].
    destruct (add_message_row _ _ _ _ _ _ _ _ Hadd)
      as (body & conversation & _ & _ & _ & -> & _ & _).
    rewrite lookup_insert_eq. eauto. }
  destruct Hstore as [->|[->|(reply & extra' & ->)]]; auto.
Qed.

(** When [POST /chat] answers with a reply, the store holds the turn: the
    user's message and, last, the assistant's message, whose content is
    the reply returned and whose identifier is the message identifier
    returned; the session returned is the one the request named, or the
    one just created when it named none, and it is in the store. *)
Theorem chat_reply_is_stored (B : ChatService.Backend) (cfg : Settings) (sd : draw)
    (dr : ChatService.draws) (request : ChatRequest) (st : store)
    (r : ChatResponse) (st' : store) :
  chat B cfg sd dr request st = (Response r, st') ->
  (exists um am,
     messages st' = messages st ++ [um; am] /\
     session_id um = response_session_id r /\ type um = USER /\
     content um = request_message request /\
     session_id am = response_session_id r /\ type am = ASSISTANT /\
     content am = response_message r /\ id am = response_message_id r) /\
  is_Some (conversations st' !! response_session_id r) /\
  response_session_id r =
    (if truthy_opt (request_session_id request)
     then default "" (request_session_id request) else uuid4 sd).
Proof.
  unfold chat, chat_body.
  destruct (session_or_new sd (request_session_id request) st) as [[sid|e] st1] eqn:Hsession.
  2:{ intros [= H _]. destruct (server_error_status (A := ChatResponse)
                                  [GPTServiceError; SessionError] e) as [detail Hd].
      rewrite Hd in H. discriminate. }
  apply session_or_new_ok in Hsession as [Hmessages Hsid].
  destruct (ChatService.generate_response B cfg dr st1 (request_message request) sid None)
    as [[[reply mid]|e] st2] eqn:Hgen.
  2:{ intros [= H _]. destruct (server_error_status (A := ChatResponse)
                                  [GPTServiceError; SessionError] e) as [detail Hd].
      rewrite Hd in H. discriminate. }
  simpl. intros [= <- <-]. simpl. split; [|split; [|exact Hsid]].
  - rewrite <- Hmessages. exact (generate_response_stored _ _ _ _ _ _ _ _ _ _ Hgen).
  - exact (generate_response_ok_session _ _ _ _ _ _ _ _ _ Hgen).
Qed.

(** [POST /voice-interaction] never answers with a response: whatever the
    upload, the engines, the database and the file system do, it raises an
    [HTTPException] with status 500.  Where the audio is valid and
    transcription and generation succeed, the turn is stored and the
    endpoint fails at the next step, whatever the speech engine and the
    file system would do: with the message of the session error when the
    history query it makes is refused, and else with [Internal server
    error], the query having returned the last message of the session,
    which the endpoint subscripts. *)
Theorem voice_interaction_never_answers (P : AudioProcessor.Backend)
    (S : SpeechToText.Backend) (B : ChatService.Backend) (T : TextToSpeech.Backend)
    (cfg : Settings) (dr : voice_draws) (u : upload)
    (language session_id voice : option string) (st : store) :
  (exists detail,
     fst (voice_interaction P S B T cfg dr u language session_id voice st)
     = HTTPException 500 detail) /\
  (forall sid st1 ok tr response st2,
     session_or_new (voice_session_draw dr) session_id st = (Ok sid, st1) ->
     AudioProcessor.validate_audio P (audio_settings cfg) (file_bytes u) (file_format u)
     = Ok ok ->
     SpeechToText.transcribe_audio P S (openai_settings cfg) (file_bytes u) language
     = Ok tr ->
     ChatService.generate_response B cfg (voice_chat_draws dr) st1
       (SpeechToText.text tr) sid None = (Ok response, st2) ->
     Effects.turn_stored st1 st2 sid (SpeechToText.text tr) (fst response) (snd response) /\
     voice_interaction P S B T cfg dr u language session_id voice st =
     (HTTPException 500
        match voice_history_fault dr with
        | Some text => "Failed to get conversation history: " +:+ text
        | None => "Internal server error"
        end, st2)).
Proof.
  split.
  - unfold voice_interaction.
    assert (forall e (st' : store), exists detail,
              fst (server_error (A := VoiceInteractionResponse)
                     [AudioProcessingError; SpeechToTextError; GPTServiceError;
                      TextToSpeechError; SessionError] e, st')
              = HTTPException 500 detail) as Hfail.
    { intros e st'. apply server_error_status. }
    unfold voice_interaction_body.
    destruct (session_or_new _ _ _) as [[sid|e] st1]; [|apply Hfail].
    destruct (AudioProcessor.validate_audio _ _ _ _); [|apply Hfail].
    destruct (SpeechToText.transcribe_audio _ _ _ _ _); [|apply Hfail].
    destruct (ChatService.generate_response _ _ _ _ _ _ _) as [[response|e] st2];
      [|apply Hfail].
    cbv zeta.
    destruct (get_conversation_history _ _ _ _ _) as [history|e]; [|apply Hfail].
    unfold last_message_id. destruct (last history) as [msg|]; apply Hfail.
  - intros sid st1 ok tr [reply mid] st2 Hsession Hvalid Htr Hgen.
    pose proof (generate_response_stored _ _ _ _ _ _ _ _ _ _ Hgen) as Hstored.
    split; [exact Hstored|].
    unfold voice_interaction, voice_interaction_body.
    rewrite Hsession, Hvalid, Htr, Hgen. cbv zeta.
    destruct (voice_history_fault dr) as [text|]; [reflexivity|].
    destruct (get_conversation_history (session_settings cfg) None st2 sid (Some 1))
      as [history|e] eqn:Hhistory; [|discriminate].
    apply history_length in Hhistory.
    destruct Hstored as (um & am & Hmessages & Hum & _ & _ & Ham & _).
    rewrite Hmessages, where_session_of_session in Hhistory.
    unfold of_session in Hhistory. rewrite filter_app in Hhistory.
    rewrite (filter_cons_True _ um) in Hhistory by exact Hum.
    rewrite length_app in Hhistory. simpl in Hhistory.
    unfold bounded, effective_limit in Hhistory. simpl in Hhistory.
    unfold last_message_id.
    destruct (last history) as [msg|] eqn:Hlast; [reflexivity|].
    apply last_None in Hlast. subst history. simpl in Hhistory. exfalso.
    rewrite Nat.add_succ_r in Hhistory. discriminate Hhistory.
Qed.

Lemma voice_interaction_never_answers_witness :
  exists st2,
    Endpoints.voice_interaction Sample.audio_ok Sample.whisper_hi Sample.chat_hello
      Sample.tts_three_bytes Config.default_settings Fixtures.voice_draws_accepted
      Fixtures.short_wav None None (Some "alloy") SessionManager.empty_store
    = (Endpoints.HTTPException 500 "Internal server error", st2) /\
    map (fun m => (SessionManager.type m, SessionManager.content m))
      (SessionManager.messages st2)
    = [(SessionManager.USER, "hi"); (SessionManager.ASSISTANT, "hello")].
Proof.
  eexists. split.
  - refine (proj2 (proj2 (voice_interaction_never_answers Sample.audio_ok Sample.whisper_hi
                      Sample.chat_hello Sample.tts_three_bytes Config.default_settings
                      Fixtures.voice_draws_accepted Fixtures.short_wav None None
                      (Some "alloy") SessionManager.empty_store)
                    _ _ _ _ _ _ _ _ _ _)); vm_compute; reflexivity.
  - vm_compute. reflexivity.
Defined.


Lemma history_empty (cfg : SessionSettings) (st : store) (sid : string) :
  get_conversation_history cfg None st sid None = Ok [] <->
  where_session sid (messages st) = [] \/ max_conversation_history cfg = 0.
Proof.
  split.
  - intros Hread. pose proof (history_length _ _ _ _ _ Hread) as Hlen.
    simpl in Hlen. unfold bounded in Hlen.
    destruct (where_session sid (messages st)); [left; reflexivity|right].
    simpl in Hlen. destruct (_ <? 0) eqn:Hneg; [discriminate|].
    apply Z.ltb_ge in Hneg. lia.
  - rewrite history_value. unfold select_recent, effective_limit. intros [->| ->].
    + unfold sql_limit. simpl. destruct (_ <? 0); [reflexivity|].
      rewrite take_nil. reflexivity.
    + reflexivity.
Qed.

(** [GET /sessions/{session_id}], the database answering: 404 for a session
    that is not stored; the session for one without messages; and, for a
    session with a message, no answer of the endpoint at all but the
    [TypeError] of the first subscript of a [MessageResponse], which
    escapes it, unless the configured history bound is zero. *)
Theorem get_session_answers (cfg : Settings) (st : store) (sid : string) :
  Endpoints.get_session cfg None None st sid =
  match conversations st !! sid with
  | None => Served (HTTPException 404 "Session not found")
  | Some conversation =>
      if bool_decide (where_session sid (messages st) = []
                      \/ max_conversation_history (session_settings cfg) = 0)
      then Served (Response {| schema_id := sid;
                               schema_status := status conversation;
                               schema_created_at := created_at conversation;
                               schema_updated_at := updated_at conversation |})
      else Unhandled (OtherError "'MessageResponse' object is not subscriptable")
  end.
Proof.
  unfold Endpoints.get_session, SessionAdmin.get_session.
  destruct (conversations st !! sid) as [conversation|]; [|reflexivity].
  pose proof (history_empty (session_settings cfg) st sid) as Hempty.
  destruct (get_conversation_history _ _ _ _ _) as [[|first rest]|e] eqn:Hread.
  - rewrite bool_decide_eq_true_2 by (apply Hempty; reflexivity). reflexivity.
  - rewrite bool_decide_eq_false_2; [reflexivity|].
    intros H. apply Hempty in H. discriminate.
  - rewrite history_value in Hread. discriminate.
Qed.

End Rest.

Lemma chat_reply_is_stored_witness :
  (exists um am,
     SessionManager.messages
       (snd (Endpoints.chat Sample.chat_hello Config.default_settings
               (Sample.at_time "s1" 100) Fixtures.two_inserts
               {| Endpoints.request_message := "Hello";
                  Endpoints.request_session_id := None |}
               SessionManager.empty_store))
     = SessionManager.messages SessionManager.empty_store ++ [um; am] /\
     SessionManager.session_id um = "s1" /\ SessionManager.type um = SessionManager.USER /\
     SessionManager.content um = "Hello" /\
     SessionManager.session_id am = "s1" /\
     SessionManager.type am = SessionManager.ASSISTANT /\
     SessionManager.content am = "hello" /\ SessionManager.id am = "m2") /\
  is_Some
    (SessionManager.conversations
       (snd (Endpoints.chat Sample.chat_hello Config.default_settings
               (Sample.at_time "s1" 100) Fixtures.two_inserts
               {| Endpoints.request_message := "Hello";
                  Endpoints.request_session_id := None |}
               SessionManager.empty_store)) !! "s1") /\
  "s1" = SessionManager.uuid4 (Sample.at_time "s1" 100).
Proof.
  apply (chat_reply_is_stored Sample.chat_hello Config.default_settings
           (Sample.at_time "s1" 100) Fixtures.two_inserts
           {| Endpoints.request_message := "Hello"; Endpoints.request_session_id := None |}
           SessionManager.empty_store
           {| Endpoints.response_message := "hello";
              Endpoints.response_session_id := "s1";
              Endpoints.response_message_id := "m2" |}).
  reflexivity.
Defined.
